(** * The stdio kernel transport of dotnet-interactive-vscode

    A shallow embedding of [src/dotnet-interactive-vscode/src/stdioKernelTransport.ts]:
    the class [StdioKernelTransport] with its fields as a record, its methods
    as computations in a state-and-exception monad over that record, and the
    JavaScript runtime it relies on (arrays and envelopes held by reference,
    [null] against [undefined], promises, exceptions thrown by the runtime and
    by the observers) written out where the code depends on it. *)

From Stdlib Require Import ZArith Ascii String Lia.
From stdpp Require Import base decidable option list strings pretty.

Open Scope Z_scope.
Open Scope string_scope.
Open Scope list_scope.

(** ** JavaScript values the transport handles *)

(** A reference that may hold [null] or [undefined] instead of an object. *)
Inductive Nullable (T : Type) : Type :=
| null
| undefined
| object (t : T).
Arguments null {T}.
Arguments undefined {T}.
Arguments object {T} t.

(** A JavaScript number as far as this file meets one: an integer (a port, the
    initial [0]) or the [NaN] that [parseInt] answers on a token without digits. *)
Inductive Number : Type :=
| NaN
| Int (z : Z).

(** What a [throw], a [reject(...)] or the runtime itself raises. *)
Inductive Reason : Type :=
| NoReason                      (* reject() *)
| Text (s : string)             (* reject("...") *)
| TypeError (msg : string)      (* raised by the runtime *)
| SyntaxError (msg : string)    (* raised by parse on a malformed line *)
| SocketError (msg : string)    (* the argument of the server's error event *)
| StreamError (code : string).  (* raised by a write to a destroyed stream *)

Global Instance Reason_eq_dec : EqDecision Reason.
Proof. solve_decision. Defined.

(** The state of a promise. *)
Inductive PromiseState (A : Type) : Type :=
| Pending
| Fulfilled (a : A)
| Rejected (e : Reason).
Arguments Pending {A}.
Arguments Fulfilled {A} a.
Arguments Rejected {A} e.

(** ** contracts.ts, as far as the transport reads it *)

(** The payload of an event: the transport reads one field of it, [message],
    declared [string] for a diagnostic log entry. *)
Record KernelEvent : Type := { message : string; body : string }.

Global Instance KernelEvent_eq_dec : EqDecision KernelEvent.
Proof. solve_decision. Defined.

Record KernelEventEnvelope : Type := {
  eventType : string;
  event : KernelEvent
}.

Global Instance KernelEventEnvelope_eq_dec : EqDecision KernelEventEnvelope.
Proof. solve_decision. Defined.

Definition KernelCommand : Type := string.
Definition KernelCommandType : Type := string.

(** The object literal [{ token, commandType, command }] of [submitCommand]. *)
Record CommandEnvelope : Type := {
  token : string;
  commandType : KernelCommandType;
  command : KernelCommand
}.

(** An observer is a function value; two registrations are the same entry for
    [indexOf] exactly when they are the same function.  The transport owns one
    observer, the listener it registers for the ready event; every other
    observer is a function of its user, told apart by a number. *)
Inductive Observer : Type :=
| ReadySubscriber
| UserObserver (id : nat).

Global Instance Observer_eq_dec : EqDecision Observer.
Proof. solve_decision. Defined.

(** What the body of a user's observer does, statement by statement: it calls
    into the observer set through the transport's interface, it assigns to a
    field of the envelope it was handed (the one object that every observer of
    the pass is handed), or it throws, which ends the body. *)
Inductive Action : Type :=
| DisposeHandle (id : nat)       (* dispose() on the handle got for observer id *)
| SubscribeObserver (id : nat)   (* subscribeToKernelEvents(observer id) *)
| AssignEventType (t : string)   (* envelope.eventType = t *)
| AssignEvent (e : KernelEvent)  (* envelope.event = e *)
| Throw (e : Reason).            (* throw e *)

Global Instance Action_eq_dec : EqDecision Action.
Proof. solve_decision. Defined.

(** The handle [subscribeToKernelEvents] returns: a closure over the observer. *)
Record DisposableSubscription : Type := { observer : Observer }.

(** ** The process host and the port allocator *)

Record ChildProcess : Type := {
  pid : nat;
  spawn_command : string;
  spawn_args : list string;
  spawn_cwd : string;
  stdin : list string;   (* chunks written to the input stream, oldest first *)
  kill_calls : nat
}.

(** The events the probing server of [findFreePort] emits. *)
Inductive ServerEvent : Type :=
| listening (port : Z)
| close
| error (e : string).

Record ProcessStart : Type := {
  command_path : string;
  args : nat;            (* the array of arguments, by reference *)
  workingDirectory : string
}.

(** ** The transport *)

Record Transport : Type := {
  childProcess : Nullable ChildProcess;
  readyPromise : PromiseState unit;
  subscribers : list Observer;
  httpPort : Number;
  (* the objects the transport holds or reaches *)
  diagnosticChannel : list string;   (* lines appended to the sink, oldest first *)
  arrays : list (list string);       (* the string arrays alive, by reference *)
  envelopes : list KernelEventEnvelope;  (* the envelopes decoded, by reference *)
  exited : bool;                     (* the spawned process has exited, which
                                        destroys its input stream *)
  (* what the transport did to its environment *)
  resolve_calls : nat;               (* calls of resolve of readyPromise *)
  notifications : list (Observer * nat)  (* observer calls, oldest first: the
                                            observer and the envelope handed *)
}.

Definition set_childProcess (c : Nullable ChildProcess) (s : Transport) : Transport :=
  {| childProcess := c; readyPromise := readyPromise s; subscribers := subscribers s;
     httpPort := httpPort s; diagnosticChannel := diagnosticChannel s; arrays := arrays s;
     envelopes := envelopes s; exited := exited s; resolve_calls := resolve_calls s;
     notifications := notifications s |}.

Definition set_readyPromise (p : PromiseState unit) (s : Transport) : Transport :=
  {| childProcess := childProcess s; readyPromise := p; subscribers := subscribers s;
     httpPort := httpPort s; diagnosticChannel := diagnosticChannel s; arrays := arrays s;
     envelopes := envelopes s; exited := exited s; resolve_calls := resolve_calls s;
     notifications := notifications s |}.

Definition set_subscribers (l : list Observer) (s : Transport) : Transport :=
  {| childProcess := childProcess s; readyPromise := readyPromise s; subscribers := l;
     httpPort := httpPort s; diagnosticChannel := diagnosticChannel s; arrays := arrays s;
     envelopes := envelopes s; exited := exited s; resolve_calls := resolve_calls s;
     notifications := notifications s |}.

Definition set_httpPort (n : Number) (s : Transport) : Transport :=
  {| childProcess := childProcess s; readyPromise := readyPromise s;
     subscribers := subscribers s; httpPort := n; diagnosticChannel := diagnosticChannel s;
     arrays := arrays s; envelopes := envelopes s; exited := exited s;
     resolve_calls := resolve_calls s; notifications := notifications s |}.

Definition set_diagnosticChannel (d : list string) (s : Transport) : Transport :=
  {| childProcess := childProcess s; readyPromise := readyPromise s;
     subscribers := subscribers s; httpPort := httpPort s; diagnosticChannel := d;
     arrays := arrays s; envelopes := envelopes s; exited := exited s;
     resolve_calls := resolve_calls s; notifications := notifications s |}.

Definition set_arrays (h : list (list string)) (s : Transport) : Transport :=
  {| childProcess := childProcess s; readyPromise := readyPromise s;
     subscribers := subscribers s; httpPort := httpPort s;
     diagnosticChannel := diagnosticChannel s; arrays := h; envelopes := envelopes s;
     exited := exited s; resolve_calls := resolve_calls s;
     notifications := notifications s |}.

Definition set_envelopes (h : list KernelEventEnvelope) (s : Transport) : Transport :=
  {| childProcess := childProcess s; readyPromise := readyPromise s;
     subscribers := subscribers s; httpPort := httpPort s;
     diagnosticChannel := diagnosticChannel s; arrays := arrays s; envelopes := h;
     exited := exited s; resolve_calls := resolve_calls s;
     notifications := notifications s |}.

Definition set_exited (b : bool) (s : Transport) : Transport :=
  {| childProcess := childProcess s; readyPromise := readyPromise s;
     subscribers := subscribers s; httpPort := httpPort s;
     diagnosticChannel := diagnosticChannel s; arrays := arrays s;
     envelopes := envelopes s; exited := b; resolve_calls := resolve_calls s;
     notifications := notifications s |}.

Definition set_resolve_calls (n : nat) (s : Transport) : Transport :=
  {| childProcess := childProcess s; readyPromise := readyPromise s;
     subscribers := subscribers s; httpPort := httpPort s;
     diagnosticChannel := diagnosticChannel s; arrays := arrays s;
     envelopes := envelopes s; exited := exited s; resolve_calls := n;
     notifications := notifications s |}.

Definition set_notifications (l : list (Observer * nat)) (s : Transport) : Transport :=
  {| childProcess := childProcess s; readyPromise := readyPromise s;
     subscribers := subscribers s; httpPort := httpPort s;
     diagnosticChannel := diagnosticChannel s; arrays := arrays s;
     envelopes := envelopes s; exited := exited s; resolve_calls := resolve_calls s;
     notifications := l |}.

(** ** Computations

    A method body runs on the transport and either returns, throws, or (an
    [async] body only) stays suspended at an [await] whose promise never
    settles.  What it did to the transport before that stays done. *)
Inductive Outcome (A : Type) : Type :=
| Returned (a : A)
| Threw (e : Reason)
| Suspended.
Arguments Returned {A} a.
Arguments Threw {A} e.
Arguments Suspended {A}.

Definition M (A : Type) : Type := Transport -> Outcome A * Transport.

Global Instance M_ret : MRet M := fun A (a : A) s => (Returned a, s).

Global Instance M_bind : MBind M := fun A B (k : A -> M B) (m : M A) s =>
  match m s with
  | (Returned a, s') => k a s'
  | (Threw e, s') => (Threw e, s')
  | (Suspended, s') => (Suspended, s')
  end.

Definition throw {A} (e : Reason) : M A := fun s => (Threw e, s).

Definition get {A} (f : Transport -> A) : M A := fun s => (Returned (f s), s).

Definition modify (f : Transport -> Transport) : M unit := fun s => (Returned tt, f s).

(** [await p] inside an [async] body. *)
Definition await {A} (p : PromiseState A) : M A :=
  fun s =>
    match p with
    | Fulfilled a => (Returned a, s)
    | Rejected e => (Threw e, s)
    | Pending => (Suspended, s)
    end.

(** ** Arrays *)

(** [l.indexOf(x)]: the first index holding [x], [-1] when none does. *)
Fixpoint indexOf_from {A} `{EqDecision A} (l : list A) (x : A) (i : Z) : Z :=
  match l with
  | [] => -1
  | y :: l' => if decide (y = x) then i else indexOf_from l' x (i + 1)
  end.

Definition indexOf {A} `{EqDecision A} (l : list A) (x : A) : Z := indexOf_from l x 0.

(** [l[i] = v] for [0 <= i]: inside the array the element is replaced, at its
    end the array grows by one.  Further out JavaScript leaves holes, shown
    here as empty strings; the transport writes at an index [indexOf] found
    and at the next one, so never there (see [configureHttpArgs_replaces]). *)
Definition array_set (l : list string) (i : nat) (v : string) : list string :=
  if decide (i < length l)%nat then <[i := v]> l
  else l ++ replicate (i - length l)%nat "" ++ [v].

(** [l.splice(i, 1)] *)
Definition splice1 {A} (l : list A) (i : nat) : list A := delete i l.

(** The array a reference stands for. *)
Definition deref (h : list (list string)) (r : nat) : list string := default [] (h !! r).

(** [[...a]]: a new array with the elements of [a]. *)
Definition spread (a : nat) : M nat :=
  fun s => (Returned (length (arrays s)), set_arrays (arrays s ++ [deref (arrays s) a]) s).

Definition array_read (r : nat) : M (list string) := get (fun s => deref (arrays s) r).

(** [r.indexOf(x)] *)
Definition array_indexOf (r : nat) (x : string) : M Z :=
  get (fun s => indexOf (deref (arrays s) r) x).

(** [r[i]]: [None] stands for [undefined], the value of a missing element. *)
Definition array_get (r : nat) (i : nat) : M (option string) :=
  get (fun s => deref (arrays s) r !! i).

Definition array_write (r : nat) (i : nat) (v : string) : M unit :=
  modify (fun s => set_arrays (<[r := array_set (deref (arrays s) r) i v]> (arrays s)) s).

Definition array_push (r : nat) (v : string) : M unit :=
  modify (fun s => set_arrays (<[r := deref (arrays s) r ++ [v]]> (arrays s)) s).

(** ** Envelopes

    [parse] answers a new object, and [handleLine] hands that one object to
    every observer it calls: what one observer assigns to it, the observers
    called after it read.  The envelopes are held by reference, like the
    arrays. *)
Definition no_envelope : KernelEventEnvelope :=
  {| eventType := ""; event := {| message := ""; body := "" |} |}.

(** The envelope a reference stands for. *)
Definition envelope_at (h : list KernelEventEnvelope) (e : nat) : KernelEventEnvelope :=
  default no_envelope (h !! e).

(** The object [parse] answers. *)
Definition new_envelope (obj : KernelEventEnvelope) : M nat :=
  fun s => (Returned (length (envelopes s)), set_envelopes (envelopes s ++ [obj]) s).

Definition envelope_read (e : nat) : M KernelEventEnvelope :=
  get (fun s => envelope_at (envelopes s) e).

(** One assignment of an observer's body to the envelope it holds. *)
Definition assign (content : KernelEventEnvelope) (a : Action) : KernelEventEnvelope :=
  match a with
  | AssignEventType t => {| eventType := t; event := event content |}
  | AssignEvent ev => {| eventType := eventType content; event := ev |}
  | _ => content
  end.

Definition envelope_assign (e : nat) (a : Action) : M unit :=
  modify (fun s =>
    set_envelopes (<[e := assign (envelope_at (envelopes s) e) a]> (envelopes s)) s).

(** The template literal [`${n}`] of a number. *)
Definition number_toString (n : Number) : string :=
  match n with
  | NaN => "NaN"
  | Int z => pretty z
  end.

(** ** The port allocator: [findFreePort]

    The promise [findFreePort] returns, after the probing server has emitted
    the given events.  Each handler is registered with [once]; [listening]
    stores the port, [close] settles the promise by it, [error] rejects. *)
Record Probe : Type := {
  port_seen : option Z;
  on_listening : bool;
  on_close : bool;
  on_error : bool;
  settled : PromiseState Z
}.

Definition settle (p : PromiseState Z) (st : Probe) : Probe :=
  {| port_seen := port_seen st; on_listening := on_listening st; on_close := on_close st;
     on_error := on_error st;
     settled := match settled st with Pending => p | q => q end |}.

Definition probe_step (st : Probe) (ev : ServerEvent) : Probe :=
  match ev with
  | listening p =>
      if on_listening st then
        {| port_seen := Some p; on_listening := false; on_close := on_close st;
           on_error := on_error st; settled := settled st |}
      else st
  | close =>
      if on_close st then
        let st' := {| port_seen := port_seen st; on_listening := on_listening st;
                      on_close := false; on_error := on_error st; settled := settled st |} in
        match port_seen st with
        | None => settle (Rejected (Text "Can't get port")) st'
        | Some p => settle (Fulfilled p) st'
        end
      else st
  | error e =>
      if on_error st then
        settle (Rejected (SocketError e))
          {| port_seen := port_seen st; on_listening := on_listening st;
             on_close := on_close st; on_error := false; settled := settled st |}
      else st
  end.

Definition findFreePort (server : list ServerEvent) : PromiseState Z :=
  settled (fold_left probe_step server
             {| port_seen := None; on_listening := true; on_close := true;
                on_error := true; settled := Pending |}).

(** ** The diagnostic sink *)

Definition appendLine (line : string) : M unit :=
  modify (fun s => set_diagnosticChannel (diagnosticChannel s ++ [line]) s).

Definition deprecation_notice : string :=
  "the --http-port-range command option is not supported in vscode extension, remove if from settings. The kernel will start with --http-port option isntead.".

(** ** Instances for the examples

    The transport is parametric in [parseInt], in the codec of utilities.ts,
    in the discriminants of contracts.ts and in the bodies of the observers.
    The examples run it with these. *)

Definition digit_of (c : Ascii.ascii) : option Z :=
  let n := Z.of_nat (Ascii.nat_of_ascii c) in
  if ((48 <=? n)%Z && (n <=? 57)%Z)%bool then Some (n - 48) else None.

Fixpoint digits (s : string) (acc : option Z) : option Z :=
  match s with
  | EmptyString => acc
  | String c s' =>
      match digit_of c with
      | Some d => digits s' (Some (10 * default 0 acc + d))
      | None => acc
      end
  end.

(** [parseInt] on tokens that start with a decimal digit or with none. *)
Definition parseInt_decimal (tok : option string) : Number :=
  match tok with
  | None => NaN
  | Some s => match digits s None with Some z => Int z | None => NaN end
  end.

Fixpoint split_colon (s : string) : option (string * string) :=
  match s with
  | EmptyString => None
  | String c s' =>
      if Ascii.eqb c ":"%char then Some (EmptyString, s')
      else match split_colon s' with
           | Some (t, m) => Some (String c t, m)
           | None => None
           end
  end.

(** A line codec for the examples: discriminant, colon, message. *)
Definition parse_colon (line : string) : option KernelEventEnvelope :=
  match split_colon line with
  | Some (t, m) => Some {| eventType := t; event := {| message := m; body := line |} |}
  | None => None
  end.

Definition stringify_colon (c : CommandEnvelope) : string :=
  token c +:+ ":" +:+ commandType c +:+ ":" +:+ command c.

(** Observers for the examples: 2 disposes the handles of 1 and of itself,
    3 disposes the handle of 1, 4 disposes its own handle, 6 throws, 8 makes
    the envelope it is handed a ready envelope, 10 replaces its payload, the
    others only look at the envelope. *)
Definition example_callback (id : nat) (envelope : KernelEventEnvelope) : list Action :=
  match id with
  | 2%nat => [DisposeHandle 1; DisposeHandle 2]
  | 3%nat => [DisposeHandle 1]
  | 4%nat => [DisposeHandle 4]
  | 6%nat => [Throw (Text "observer failed")]
  | 8%nat => [AssignEventType "KernelReady"]
  | 10%nat => [AssignEvent {| message := "seen"; body := "" |}]
  | _ => []
  end.

(** The start descriptor of the examples; its arguments are array [0]. *)
Definition example_start : ProcessStart :=
  {| command_path := "dotnet-interactive"; args := 0; workingDirectory := "/workspace" |}.

Section Transport.

(** [parseInt] of the language, on an array element that may be missing. *)
Variable parseInt : option string -> Number.

(** utilities.ts: [parse] decodes a line ([None]: it throws), [stringify]
    encodes a command envelope. *)
Variable parse : string -> option KernelEventEnvelope.
Variable stringify : CommandEnvelope -> string.

(** contracts.ts: the two discriminants the transport looks for. *)
Variable KernelReadyType : string.
Variable DiagnosticLogEntryProducedType : string.

(** The bodies of the user's observers: what observer [id] does when it is
    handed an envelope that reads as given. *)
Variable callback : nat -> KernelEventEnvelope -> list Action.

(** ** [configureHttpArgs]

    [server] is what the probing server of [findFreePort] will emit. *)
Definition configureHttpArgs (args : nat) (server : list ServerEvent) : M nat :=
  newArgs ← spread args;
  index ← array_indexOf newArgs "--http-port";
  if decide (index < 0) then
    index ← array_indexOf newArgs "--http-port-range";
    port ← await (findFreePort server);
    modify (set_httpPort (Int port));;
    (if decide (index > 0) then
       appendLine deprecation_notice;;
       array_write newArgs (Z.to_nat index) "--http-port";;
       p ← get httpPort;
       array_write newArgs (Z.to_nat (index + 1)) (number_toString p)
     else
       array_push newArgs "--http-port";;
       p ← get httpPort;
       array_push newArgs (number_toString p));;
    mret newArgs
  else
    token ← array_get newArgs (Z.to_nat (index + 1));
    modify (set_httpPort (parseInt token));;
    mret newArgs.

(** ** [isNotNull] and the members of the child process *)

(** [obj !== undefined] *)
Definition isNotNull {T} (obj : Nullable T) : bool :=
  match obj with
  | undefined => false
  | null => true
  | object _ => true
  end.

(** Reading member [name] of [obj]: the runtime throws a [TypeError] on [null]
    and on [undefined] (its message is worded as Node worded it then). *)
Definition member {T} (obj : Nullable T) (name : string) : M T :=
  match obj with
  | object t => mret t
  | null => throw (TypeError ("Cannot read property '" +:+ name +:+ "' of null"))
  | undefined => throw (TypeError ("Cannot read property '" +:+ name +:+ "' of undefined"))
  end.

(** [this.childProcess.stdin.write(chunk)]: the input stream of a process that
    has exited is destroyed, and a write to it throws (as Node did then, whose
    wording the errors here follow). *)
Definition stdin_write (chunk : string) : M unit :=
  c ← get childProcess;
  p ← member c "stdin";
  destroyed ← get exited;
  if (destroyed : bool) then throw (StreamError "ERR_STREAM_DESTROYED")
  else
    modify (set_childProcess (object
      {| pid := pid p; spawn_command := spawn_command p; spawn_args := spawn_args p;
         spawn_cwd := spawn_cwd p; stdin := stdin p ++ [chunk];
         kill_calls := kill_calls p |})).

(** [this.childProcess.kill()] *)
Definition kill : M unit :=
  c ← get childProcess;
  p ← member c "kill";
  modify (set_childProcess (object
    {| pid := pid p; spawn_command := spawn_command p; spawn_args := spawn_args p;
       spawn_cwd := spawn_cwd p; stdin := stdin p; kill_calls := S (kill_calls p) |})).

Definition newline : string := String (Ascii.ascii_of_nat 10) EmptyString.

(** [new Promise(executor)] for an executor that runs to its end at once: the
    executor answers how it settled the promise, and a throw rejects it. *)
Definition new_Promise {A} (executor : M (PromiseState A)) (s : Transport)
  : PromiseState A * Transport :=
  match executor s with
  | (Returned p, s') => (p, s')
  | (Threw e, s') => (Rejected e, s')
  | (Suspended, s') => (Pending, s')
  end.

(** ** [submitCommand] and [dispose] *)

Definition submitCommand (command : KernelCommand) (commandType : KernelCommandType)
    (token : string) : Transport -> PromiseState unit * Transport :=
  new_Promise (
    let submit := {| token := token; commandType := commandType; command := command |} in
    let str := stringify submit in
    c ← get childProcess;
    if isNotNull c then
      stdin_write str;;
      stdin_write newline;;
      mret (Fulfilled tt)
    else
      mret (Rejected NoReason)).

Definition dispose : M unit :=
  c ← get childProcess;
  if isNotNull c then kill else mret tt.

(** ** Subscriptions *)

Definition subscribeToKernelEvents (observer : Observer) : M DisposableSubscription :=
  modify (fun s => set_subscribers (subscribers s ++ [observer]) s);;
  mret {| observer := observer |}.

(** [dispose] of a subscription handle. *)
Definition dispose_subscription (h : DisposableSubscription) : M unit :=
  l ← get subscribers;
  let i := indexOf l (observer h) in
  if decide (i >= 0) then modify (set_subscribers (splice1 l (Z.to_nat i)))
  else mret tt.

(** [resolve()] of the ready promise. *)
Definition resolve : M unit :=
  modify (fun s =>
    set_resolve_calls (S (resolve_calls s))
      (set_readyPromise
         (match readyPromise s with Pending => Fulfilled tt | p => p end) s)).

(** The listener of the constructor, closed over its own handle.  It reads
    the discriminant of the envelope as it is when the listener is called. *)
Definition readyListener (readySubscriber : DisposableSubscription)
    (eventEnvelope : nat) : M unit :=
  content ← envelope_read eventEnvelope;
  if decide (eventType content = KernelReadyType) then
    dispose_subscription readySubscriber;;
    resolve
  else mret tt.

(** One statement of the body of a user's observer that was handed [envelope]. *)
Definition perform (envelope : nat) (a : Action) : M unit :=
  match a with
  | DisposeHandle id => dispose_subscription {| observer := UserObserver id |}
  | SubscribeObserver id => subscribeToKernelEvents (UserObserver id);; mret tt
  | AssignEventType _ | AssignEvent _ => envelope_assign envelope a
  | Throw e => throw e
  end.

Fixpoint perform_all (envelope : nat) (l : list Action) : M unit :=
  match l with
  | [] => mret tt
  | a :: l' => perform envelope a;; perform_all envelope l'
  end.

(** Calling the function value [o] on an envelope.  Nothing catches what the
    function throws. *)
Definition call (o : Observer) (envelope : nat) : M unit :=
  modify (fun s => set_notifications (notifications s ++ [(o, envelope)]) s);;
  match o with
  | ReadySubscriber => readyListener {| observer := ReadySubscriber |} envelope
  | UserObserver id =>
      content ← envelope_read envelope;
      perform_all envelope (callback id content)
  end.

(** ** [handleLine] *)

(** [this.subscribers[i](envelope)]: calling a missing element throws. *)
Definition call_subscriber (i : nat) (envelope : nat) : M unit :=
  l ← get subscribers;
  match l !! i with
  | Some o => call o envelope
  | None => throw (TypeError "this.subscribers[i] is not a function")
  end.

(** The loop [for (let i = n - 1; i >= 0; i--)]. *)
Fixpoint notify_from (n : nat) (envelope : nat) : M unit :=
  match n with
  | O => mret tt
  | S i => call_subscriber i envelope;; notify_from i envelope
  end.

Definition handleLine (line : string) : M unit :=
  envelope ← (match parse line with
              | Some obj => new_envelope obj
              | None => throw (SyntaxError line)
              end);
  content ← envelope_read envelope;
  (if decide (eventType content = DiagnosticLogEntryProducedType) then
     appendLine (message (event content))
   else mret tt);;
  n ← get (fun s => length (subscribers s));
  notify_from n envelope.

(** The transport when the pass of [handleLine] begins: the envelope is the
    one new object, and its message is in the sink if it is diagnostic. *)
Definition decoded (envelope : KernelEventEnvelope) (s : Transport) : Transport :=
  let s0 := set_envelopes (envelopes s ++ [envelope]) s in
  if decide (eventType envelope = DiagnosticLogEntryProducedType)
  then set_diagnosticChannel (diagnosticChannel s ++ [message (event envelope)]) s0
  else s0.

(** ** The constructor *)

(** The statements of the constructor up to the promise: the transport as it
    is handed to its user, over the arrays and the sink that exist. *)
Definition constructor (heap : list (list string)) (sink : list string) : Transport :=
  {| childProcess := null; readyPromise := Pending; subscribers := [];
     httpPort := Int 0; diagnosticChannel := sink; arrays := heap;
     envelopes := []; exited := false;
     resolve_calls := 0; notifications := [] |}.

(** The [async] executor of the ready promise; [pid] is the process the host
    spawns.  It is an [async] function, so when it throws its own promise is
    rejected and the ready promise is left alone. *)
Definition executor (processStart : ProcessStart) (server : list ServerEvent)
    (pid : nat) : M unit :=
  args ← configureHttpArgs (args processStart) server;
  argv ← array_read args;
  let childProcess :=
    {| pid := pid; spawn_command := command_path processStart; spawn_args := argv;
       spawn_cwd := workingDirectory processStart; stdin := []; kill_calls := 0 |} in
  modify (set_childProcess (object childProcess));;
  appendLine ("Kernel started with pid " +:+ pretty pid +:+ ".");;
  readySubscriber ← subscribeToKernelEvents ReadySubscriber;
  mret tt.

(** ** The life of a transport *)

(** What happens to a transport from outside. *)
Inductive Event : Type :=
| Subscribe (id : nat)            (* subscribeToKernelEvents(observer id) *)
| DisposeSubscription (id : nat)  (* dispose() on the handle of observer id *)
| StdoutLine (line : string)      (* the line reader surfaces a line *)
| SubmitCommand (command : KernelCommand) (commandType : KernelCommandType) (token : string)
| Dispose.                        (* dispose() of the transport *)

(** One event.  A line can only come from the output stream of a spawned
    process, which the executor wires to the line reader.  An exception leaves
    through the host's event loop; the transport keeps what was done. *)
Definition step (s : Transport) (ev : Event) : Transport :=
  match ev with
  | Subscribe id => snd (subscribeToKernelEvents (UserObserver id) s)
  | DisposeSubscription id => snd (dispose_subscription {| observer := UserObserver id |} s)
  | StdoutLine line =>
      match childProcess s with
      | object _ => snd (handleLine line s)
      | _ => s
      end
  | SubmitCommand c t k => snd (submitCommand c t k s)
  | Dispose => snd (dispose s)
  end.

Definition run (evs : list Event) (s : Transport) : Transport := fold_left step evs s.

(** A transport is constructed, used while the executor awaits, started by the
    executor, and used on.  The executor runs up to its first [await] inside
    the constructor; what it does there (copying the arguments, reading an
    explicit port) touches only the copy and [httpPort], which no event reads
    or writes, so it is run here together with the rest.  The process runs
    throughout; its exit and its error stream come in with [host_lifetime]. *)
Definition lifetime (heap : list (list string)) (sink : list string)
    (processStart : ProcessStart) (before : list Event)
    (server : list ServerEvent) (pid : nat) (after : list Event) : Transport :=
  run after (snd (executor processStart server pid (run before (constructor heap sink)))).


(** ** What an observer does when it is called *)

Definition touches_set (a : Action) : bool :=
  match a with
  | DisposeHandle _ | SubscribeObserver _ => true
  | _ => false
  end.

Definition is_throw (a : Action) : bool :=
  match a with
  | Throw _ => true
  | _ => false
  end.

(** The body of [o], handed an envelope that reads [content], calls into the
    observer set. *)
Definition modifies (o : Observer) (content : KernelEventEnvelope) : bool :=
  match o with
  | ReadySubscriber => bool_decide (eventType content = KernelReadyType)
  | UserObserver id => existsb touches_set (callback id content)
  end.

(** The body of [o], handed an envelope that reads [content], has a [throw]. *)
Definition throws (o : Observer) (content : KernelEventEnvelope) : bool :=
  match o with
  | ReadySubscriber => false
  | UserObserver id => existsb is_throw (callback id content)
  end.

(** The body of [o], handed an envelope that reads [content], disposes the
    handle of [o] and does nothing else. *)
Definition disposes_itself (o : Observer) (content : KernelEventEnvelope) : bool :=
  match o with
  | ReadySubscriber => bool_decide (eventType content = KernelReadyType)
  | UserObserver id => bool_decide (callback id content = [DisposeHandle id])
  end.

(** What the envelope reads after the body of [o] ran to its end on it. *)
Definition left_by (o : Observer) (content : KernelEventEnvelope) : KernelEventEnvelope :=
  match o with
  | ReadySubscriber => content
  | UserObserver id => fold_left assign (callback id content) content
  end.

(** What the envelope reads after the observers [l] were called on it, in
    that order, and each ran to its end. *)
Definition pass_content (l : list Observer) (content : KernelEventEnvelope)
  : KernelEventEnvelope := fold_left (λ c o, left_by o c) l content.

(** A pass that calls the observers [l], in that order, on an envelope that
    reads [content] at first: no observer modifies the observer set and none
    throws, each on the envelope as the observers before it left it. *)
Fixpoint calm_pass (l : list Observer) (content : KernelEventEnvelope) : bool :=
  match l with
  | [] => true
  | o :: l' =>
      negb (modifies o content) && negb (throws o content) &&
      calm_pass l' (left_by o content)
  end.

(** The same, but an observer may also dispose its own handle, and nothing
    else, if it is not among the observers still to be called (so is
    registered nowhere before the entry the loop is at). *)
Fixpoint tidy_pass (l : list Observer) (content : KernelEventEnvelope) : bool :=
  match l with
  | [] => true
  | o :: l' =>
      (negb (modifies o content) && negb (throws o content)
       || disposes_itself o content && bool_decide (o ∉ l')) &&
      tidy_pass l' (left_by o content)
  end.

(** The calls of [o] so far. *)
Definition calls_of (o : Observer) (s : Transport) : list (Observer * nat) :=
  filter (λ x, fst x = o) (notifications s).

(** The envelope [e] was handed to an observer whose body assigns the ready
    type to the envelope it is handed. *)
Definition made_ready (e : nat) (s : Transport) : Prop :=
  ∃ id content,
    AssignEventType KernelReadyType ∈ callback id content ∧
    (UserObserver id, e) ∈ notifications s.

(** [s'] differs from [s] at most in the observer set, the ready promise, the
    envelopes and the record of calls. *)
Definition same_outside (s s' : Transport) : Prop :=
  childProcess s' = childProcess s ∧ httpPort s' = httpPort s ∧
  diagnosticChannel s' = diagnosticChannel s ∧ arrays s' = arrays s ∧
  exited s' = exited s.

(** What the body of a user's observer can do to the observer set [l]: in
    [l'] the ready listener is registered as often as in [l], and wherever it
    stood in [l] it stands in [l'] at that index or a lower one. *)
Definition user_edit (l l' : list Observer) : Prop :=
  length (filter (λ o, o = ReadySubscriber) l') =
    length (filter (λ o, o = ReadySubscriber) l) ∧
  ∀ j, l !! j = Some ReadySubscriber →
    ∃ j', (j' ≤ j)%nat ∧ l' !! j' = Some ReadySubscriber.

Definition ready_count (s : Transport) : nat :=
  length (filter (λ o, o = ReadySubscriber) (subscribers s)).

Definition spawned (s : Transport) : bool :=
  match childProcess s with
  | object _ => true
  | _ => false
  end.

(** The ready promise and its listener go together: while the promise is
    pending [resolve] has not been called and the listener is registered once
    if the process was spawned (and not at all before); once [resolve] has
    been called, it was called once and the listener is gone. *)
Definition ready_inv (s : Transport) : Prop :=
  (readyPromise s = Pending ∧ resolve_calls s = 0%nat ∧
   ready_count s = (if spawned s then 1 else 0)%nat) ∨
  (readyPromise s = Fulfilled tt ∧ resolve_calls s = 1%nat ∧ ready_count s = 0%nat).

(** A transport whose executor has not spawned the process yet. *)
Definition unstarted (s : Transport) : Prop :=
  spawned s = false ∧ readyPromise s = Pending ∧ resolve_calls s = 0%nat ∧
  ready_count s = 0%nat.

(** ** The handlers of the spawned process, and [waitForReady] *)

(** A number or [null] used as a condition: [null], [0] and [NaN] are falsy. *)
Definition truthy_number (code : option Number) : bool :=
  match code with
  | Some (Int z) => negb (z =? 0)%Z
  | Some NaN => false
  | None => false
  end.

(** [code !== 0] *)
Definition not_zero (code : option Number) : bool :=
  match code with
  | Some (Int z) => negb (z =? 0)%Z
  | Some NaN => true
  | None => true
  end.

(** A string or [null] used as a condition: [null] and [""] are falsy. *)
Definition truthy_string (signal : option string) : bool :=
  match signal with
  | Some EmptyString => false
  | Some _ => true
  | None => false
  end.

(** The template literal of a value that may be [null]. *)
Definition code_text (code : option Number) : string :=
  match code with
  | Some n => number_toString n
  | None => "null"
  end.

Definition signal_text (signal : option string) : string :=
  match signal with
  | Some t => t
  | None => "null"
  end.

(** The line the exit handler builds; the host hands [null] for a code or a
    signal that does not apply. *)
Definition exit_message (pid : nat) (code : option Number) (signal : option string)
  : string :=
  let message := "Kernel pid " +:+ pretty pid +:+ " ended" in
  let messageCodeSuffix :=
    if (truthy_number code && not_zero code)%bool
    then " with code " +:+ code_text code
    else "" in
  let messageSignalSuffix :=
    if truthy_string signal
    then " with signal " +:+ signal_text signal
    else "" in
  (message +:+ messageCodeSuffix) +:+ messageSignalSuffix.

(** The handler of the [exit] event of the process [pid]. *)
Definition on_exit (pid : nat) (code : option Number) (signal : option string) : M unit :=
  appendLine (exit_message pid code signal).

(** The handler of [data] on the error stream of the process [pid]; [data] is
    the chunk as UTF-8 text. *)
Definition on_stderr_data (pid : nat) (data : string) : M unit :=
  appendLine ("kernel (" +:+ pretty pid +:+ ") stderr: " +:+ data).

Definition waitForReady : M (PromiseState unit) := get readyPromise.

(** What happens to a transport, its process included. *)
Inductive HostEvent : Type :=
| Api (ev : Event)
| Exit (code : option Number) (signal : option string)
| StderrData (data : string).

Definition is_exit (ev : HostEvent) : bool :=
  match ev with
  | Exit _ _ => true
  | _ => false
  end.

(** One event of the host.  The handlers of the process exist once the
    executor has spawned it, and are closed over its [pid].  When the host
    reports the exit, the process is gone and its streams are destroyed. *)
Definition host_step (s : Transport) (ev : HostEvent) : Transport :=
  match ev with
  | Api ev => step s ev
  | Exit code signal =>
      match childProcess s with
      | object p => snd (on_exit (pid p) code signal (set_exited true s))
      | _ => s
      end
  | StderrData data =>
      match childProcess s with
      | object p => snd (on_stderr_data (pid p) data s)
      | _ => s
      end
  end.

Definition host_run (evs : list HostEvent) (s : Transport) : Transport :=
  fold_left host_step evs s.

(** [lifetime], with the events of the process among those after the start. *)
Definition host_lifetime (heap : list (list string)) (sink : list string)
    (processStart : ProcessStart) (before : list Event)
    (server : list ServerEvent) (pid : nat) (after : list HostEvent) : Transport :=
  host_run after
    (snd (executor processStart server pid (run before (constructor heap sink)))).

(** [p'] is the process [p] later on: the same process, started the same
    way, with more written to it and killed at least as often. *)
Definition process_continues (p p' : ChildProcess) : Prop :=
  pid p' = pid p ∧ spawn_command p' = spawn_command p ∧
  spawn_args p' = spawn_args p ∧ spawn_cwd p' = spawn_cwd p ∧
  stdin p `prefix_of` stdin p' ∧ (kill_calls p ≤ kill_calls p')%nat.

(** [s'] is [s] later on, as far as events can tell. *)
Definition evolves (s s' : Transport) : Prop :=
  httpPort s' = httpPort s ∧ arrays s' = arrays s ∧
  diagnosticChannel s `prefix_of` diagnosticChannel s' ∧
  match childProcess s with
  | object p => ∃ p', childProcess s' = object p' ∧ process_continues p p'
  | null => childProcess s' = null
  | undefined => childProcess s' = undefined
  end.

(** The chunks one command puts on the input stream. *)
Definition command_chunks (c : CommandEnvelope) : list string :=
  [stringify c; newline].

(** ** Facts about arrays and [indexOf] *)

Lemma indexOf_from_split {A} `{EqDecision A} (l : list A) (x : A) (i : Z) :
((x ∉ l) ∧ indexOf_from l x i = -1) ∨
  (∃ l1 l2, l = l1 ++ x :: l2 ∧ (x ∉ l1) ∧ indexOf_from l x i = i + Z.of_nat (length l1)).
Proof.
  revert i. induction l as [|y l IH]; intros i; simpl.
  - left. split; [apply not_elem_of_nil | reflexivity].
  - destruct (decide (y = x)) as [->|Hne].
    + right. exists [], l. simpl. split; [reflexivity|].
      split; [apply not_elem_of_nil | lia].
    + destruct (IH (i + 1)) as [[Hnot Hidx] | (l1 & l2 & Hl & Hnot & Hidx)].
      * left. split; [|exact Hidx].
        apply not_elem_of_cons. split; [congruence | exact Hnot].
      * right. exists (y :: l1), l2. subst l. simpl. split; [reflexivity|].
        split; [apply not_elem_of_cons; split; [congruence | exact Hnot] |].
        rewrite Hidx. lia.
Qed.

Lemma indexOf_split {A} `{EqDecision A} (l : list A) (x : A) :
  ((x ∉ l) ∧ indexOf l x = -1) ∨
  (∃ l1 l2, l = l1 ++ x :: l2 ∧ (x ∉ l1) ∧ indexOf l x = Z.of_nat (length l1)).
Proof.
  unfold indexOf. destruct (indexOf_from_split l x 0) as [?|(l1 & l2 & ? & ? & ?)].
  - left. assumption.
  - right. exists l1, l2. split; [assumption|]. split; [assumption | lia].
Qed.

Lemma indexOf_absent {A} `{EqDecision A} (l : list A) (x : A) :
  x ∉ l → indexOf l x = -1.
Proof.
  intros Hnot. destruct (indexOf_split l x) as [[_ ?]|(l1 & l2 & -> & _ & _)]; [assumption|].
  exfalso. apply Hnot. apply elem_of_app. right. apply list_elem_of_here.
Qed.

Lemma indexOf_first {A} `{EqDecision A} (l1 l2 : list A) (x : A) :
  x ∉ l1 → indexOf (l1 ++ x :: l2) x = Z.of_nat (length l1).
Proof.
  intros Hnot. unfold indexOf.
  enough (∀ i, indexOf_from (l1 ++ x :: l2) x i = i + Z.of_nat (length l1)) as Hgen
    by (rewrite Hgen; lia).
  induction l1 as [|y l1 IH]; intros i; simpl.
  - destruct (decide (x = x)); [lia | congruence].
  - apply not_elem_of_cons in Hnot as [Hne Hnot].
    destruct (decide (y = x)); [congruence|].
    rewrite IH by assumption. lia.
Qed.

Lemma array_set_middle (l1 l2 : list string) (x v : string) :
  array_set (l1 ++ x :: l2) (length l1) v = l1 ++ v :: l2.
Proof.
  unfold array_set. rewrite decide_True.
  - rewrite insert_app_r_alt by lia. rewrite Nat.sub_diag. reflexivity.
  - rewrite length_app. simpl. lia.
Qed.

Lemma array_set_end (l : list string) (v : string) :
  array_set l (length l) v = l ++ [v].
Proof.
  unfold array_set. rewrite decide_False by lia. rewrite Nat.sub_diag. reflexivity.
Qed.

(** The decimal text of a port is not the port flag. *)
Lemma number_toString_not_flag (z : Z) : number_toString (Int z) ≠ "--http-port".
Proof.
  simpl. unfold pretty, pretty_Z. destruct z as [|q|q].
  - discriminate.
  - unfold pretty, pretty_positive, pretty, pretty_N.
    destruct (decide (N.pos q = 0%N)); [discriminate|].
    apply (pretty_N_go_ne_dash (N.pos q) "" "-http-port"). discriminate.
  - unfold pretty, pretty_positive, pretty, pretty_N.
    destruct (decide (N.pos q = 0%N)); [discriminate|].
    intros Heq. simpl in Heq. injection Heq as Heq.
    revert Heq. apply (pretty_N_go_ne_dash (N.pos q) "" "http-port"). discriminate.
Qed.


(** ** The heap of arrays *)

Lemma deref_new (h : list (list string)) (l : list string) :
  deref (h ++ [l]) (length h) = l.
Proof. unfold deref. rewrite list_lookup_middle by reflexivity. reflexivity. Qed.

Lemma insert_new {A} (h : list A) (l l' : A) :
  <[length h := l']> (h ++ [l]) = h ++ [l'].
Proof. rewrite insert_app_r_alt by lia. rewrite Nat.sub_diag. reflexivity. Qed.

Lemma deref_Some (h : list (list string)) (a : nat) (l : list string) :
  h !! a = Some l → deref h a = l.
Proof. intros Hl. unfold deref. rewrite Hl. reflexivity. Qed.

Ltac run_M :=
  unfold spread, array_read, array_indexOf, array_get, array_write, array_push,
    appendLine, modify, get, await, throw, mbind, mret, M_bind, M_ret; simpl.

(** ** [configureHttpArgs], branch by branch *)

Lemma configureHttpArgs_explicit (a : nat) (server : list ServerEvent) (s : Transport)
    (l1 l2 : list string) :
  arrays s !! a = Some (l1 ++ "--http-port" :: l2) →
  "--http-port" ∉ l1 →
  configureHttpArgs a server s =
    (Returned (length (arrays s)),
     set_httpPort (parseInt (head l2))
       (set_arrays (arrays s ++ [l1 ++ "--http-port" :: l2]) s)).
Proof.
  intros Ha Hnot. unfold configureHttpArgs. run_M.
  rewrite (deref_Some _ _ _ Ha), deref_new.
  rewrite (indexOf_first l1 l2 "--http-port" Hnot).
  rewrite decide_False by lia. simpl. rewrite deref_new.
  replace (Z.to_nat (Z.of_nat (length l1) + 1)) with (length l1 + 1)%nat by lia.
  rewrite lookup_app_r by lia.
  replace (length l1 + 1 - length l1)%nat with 1%nat by lia.
  simpl. destruct l2; reflexivity.
Qed.


Lemma configureHttpArgs_rejected (a : nat) (server : list ServerEvent) (s : Transport)
    (l : list string) (e : Reason) :
  arrays s !! a = Some l →
  "--http-port" ∉ l →
  findFreePort server = Rejected e →
  configureHttpArgs a server s = (Threw e, set_arrays (arrays s ++ [l]) s).
Proof.
  intros Ha Hnot Hprobe. unfold configureHttpArgs. run_M.
  rewrite (deref_Some _ _ _ Ha), deref_new, (indexOf_absent l _ Hnot).
  rewrite decide_True by lia. simpl. rewrite Hprobe. reflexivity.
Qed.

Lemma configureHttpArgs_suspended (a : nat) (server : list ServerEvent) (s : Transport)
    (l : list string) :
  arrays s !! a = Some l →
  "--http-port" ∉ l →
  findFreePort server = Pending →
  configureHttpArgs a server s = (Suspended, set_arrays (arrays s ++ [l]) s).
Proof.
  intros Ha Hnot Hprobe. unfold configureHttpArgs. run_M.
  rewrite (deref_Some _ _ _ Ha), deref_new, (indexOf_absent l _ Hnot).
  rewrite decide_True by lia. simpl. rewrite Hprobe. reflexivity.
Qed.

Lemma configureHttpArgs_appends (a : nat) (server : list ServerEvent) (s : Transport)
    (l : list string) (port : Z) :
  arrays s !! a = Some l →
  "--http-port" ∉ l →
  indexOf l "--http-port-range" <= 0 →
  findFreePort server = Fulfilled port →
  configureHttpArgs a server s =
    (Returned (length (arrays s)),
     set_arrays (arrays s ++ [l ++ ["--http-port"; number_toString (Int port)]])
       (set_httpPort (Int port) s)).
Proof.
  intros Ha Hnot Hidx Hprobe. unfold configureHttpArgs. run_M.
  rewrite (deref_Some _ _ _ Ha), deref_new, (indexOf_absent l _ Hnot).
  rewrite decide_True by lia. simpl. rewrite Hprobe, ?deref_new.
  rewrite decide_False by lia. simpl.
  rewrite deref_new, insert_new, deref_new, insert_new.
  rewrite <- (app_assoc l). reflexivity.
Qed.

Lemma configureHttpArgs_replaces (a : nat) (server : list ServerEvent) (s : Transport)
    (l1 l2 : list string) (port : Z) :
  arrays s !! a = Some (l1 ++ "--http-port-range" :: l2) →
  "--http-port" ∉ l1 ++ "--http-port-range" :: l2 →
  "--http-port-range" ∉ l1 →
  l1 ≠ [] →
  findFreePort server = Fulfilled port →
  configureHttpArgs a server s =
    (Returned (length (arrays s)),
     set_arrays
       (arrays s ++ [l1 ++ "--http-port" :: number_toString (Int port) :: tail l2])
       (set_diagnosticChannel (diagnosticChannel s ++ [deprecation_notice])
          (set_httpPort (Int port) s))).
Proof.
  intros Ha Hnot Hfirst Hne Hprobe. unfold configureHttpArgs. run_M.
  rewrite (deref_Some _ _ _ Ha), deref_new, (indexOf_absent _ _ Hnot).
  rewrite decide_True by lia. simpl. rewrite Hprobe, ?deref_new.
  rewrite (indexOf_first l1 l2 _ Hfirst).
  assert (0 < length l1)%nat by (destruct l1; [congruence | simpl; lia]).
  rewrite decide_True by lia. simpl.
  rewrite deref_new, insert_new, deref_new, insert_new.
  rewrite Nat2Z.id, array_set_middle.
  replace (Z.to_nat (Z.of_nat (length l1) + 1)) with (length (l1 ++ ["--http-port"])).
  2: { rewrite length_app. simpl. lia. }
  replace (l1 ++ "--http-port" :: l2) with ((l1 ++ ["--http-port"]) ++ l2)
    by (rewrite <- app_assoc; reflexivity).
  destruct l2 as [|t l2].
  - rewrite app_nil_r, array_set_end, <- app_assoc. reflexivity.
  - rewrite array_set_middle, <- app_assoc. reflexivity.
Qed.


Lemma filter_absent (l : list string) (x : string) :
  x ∉ l → filter (λ y, y = x) l = [].
Proof.
  induction l as [|y l IH]; intros Hnot; [reflexivity|].
  apply not_elem_of_cons in Hnot as [Hne Hnot].
  rewrite filter_cons_False by congruence. apply IH, Hnot.
Qed.

(** Every way [configureHttpArgs] can end, for an array of arguments [l]: the
    copy it works on is the one new array, and what it holds in the end is
    told by where the flags are in [l]. *)
Lemma configureHttpArgs_cases (a : nat) (server : list ServerEvent) (s : Transport)
    (l : list string) :
  arrays s !! a = Some l →
  ∃ o l' s', configureHttpArgs a server s = (o, s') ∧ arrays s' = arrays s ++ [l'] ∧
    match o with
    | Returned newArgs => newArgs = length (arrays s)
    | _ => True
    end.
Proof.
  intros Ha.
  destruct (indexOf_split l "--http-port") as [[Hnot _]|(l1 & l2 & -> & Hnot & _)].
  - destruct (findFreePort server) as [|port|e] eqn:Hprobe.
    + eexists _, _, _. split; [apply (configureHttpArgs_suspended _ _ _ _ Ha Hnot Hprobe)|].
      split; reflexivity.
    + destruct (indexOf_split l "--http-port-range")
        as [[Hnor Hidx]|(l1 & l2 & -> & Hnor & Hidx)].
      * eexists _, _, _. split.
        { apply (configureHttpArgs_appends _ _ _ _ port Ha Hnot); [lia | exact Hprobe]. }
        split; reflexivity.
      * destruct l1 as [|t l1].
        { eexists _, _, _. split.
          { apply (configureHttpArgs_appends _ _ _ _ port Ha Hnot); [|exact Hprobe].
            rewrite Hidx. simpl. lia. }
          split; reflexivity. }
        { eexists _, _, _. split.
          { apply (configureHttpArgs_replaces _ _ _ _ _ port Ha Hnot Hnor); [|exact Hprobe].
            discriminate. }
          split; reflexivity. }
    + eexists _, _, _. split; [apply (configureHttpArgs_rejected _ _ _ _ _ Ha Hnot Hprobe)|].
      split; reflexivity.
  - eexists _, _, _. split; [apply (configureHttpArgs_explicit _ _ _ _ _ Ha Hnot)|].
    split; reflexivity.
Qed.

(** What [configureHttpArgs] returns, in every branch: a list that holds the
    port flag, and the port it recorded is the number of the token after the
    flag's first occurrence. *)
Lemma configureHttpArgs_result (a : nat) (server : list ServerEvent)
    (s s' : Transport) (l : list string) (newArgs : nat) :
  arrays s !! a = Some l →
  configureHttpArgs a server s = (Returned newArgs, s') →
  ∃ l1 l2,
    arrays s' !! newArgs = Some (l1 ++ "--http-port" :: l2) ∧
    ("--http-port" ∉ l1) ∧
    (("--http-port" ∈ l ∧ l1 ++ "--http-port" :: l2 = l ∧
      httpPort s' = parseInt (head l2))
     ∨
     (("--http-port" ∉ l) ∧ ("--http-port" ∉ l2) ∧
      ∃ port, findFreePort server = Fulfilled port ∧
        head l2 = Some (number_toString (Int port)) ∧ httpPort s' = Int port)).
Proof.
  intros Ha Hrun.
  destruct (indexOf_split l "--http-port") as [[Hnot _]|(l1 & l2 & -> & Hnot & _)].
  - destruct (findFreePort server) as [|port|e] eqn:Hprobe.
    + rewrite (configureHttpArgs_suspended _ _ _ _ Ha Hnot Hprobe) in Hrun. discriminate.
    + destruct (indexOf_split l "--http-port-range")
        as [[Hnor Hidx]|(l1 & l2 & -> & Hnor & Hidx)].
      * rewrite (configureHttpArgs_appends _ _ _ _ port Ha Hnot) in Hrun;
          [|lia|exact Hprobe].
        injection Hrun as <- <-. exists l, [number_toString (Int port)].
        split; [simpl; apply list_lookup_middle; reflexivity|].
        split; [exact Hnot|]. right.
        split; [exact Hnot|]. split.
        { apply not_elem_of_cons. split; [|apply not_elem_of_nil].
          intros Heq. symmetry in Heq. revert Heq. apply number_toString_not_flag. }
        exists port. split; [reflexivity|]. split; reflexivity.
      * destruct l1 as [|t l1].
        { rewrite (configureHttpArgs_appends _ _ _ _ port Ha Hnot) in Hrun;
            [|rewrite Hidx; simpl; lia|exact Hprobe].
          injection Hrun as <- <-.
          exists ("--http-port-range" :: l2), [number_toString (Int port)].
          split; [simpl; apply list_lookup_middle; reflexivity|].
          split; [exact Hnot|]. right.
          split; [exact Hnot|]. split.
          { apply not_elem_of_cons. split; [|apply not_elem_of_nil].
            intros Heq. symmetry in Heq. revert Heq. apply number_toString_not_flag. }
          exists port. split; [reflexivity|]. split; reflexivity. }
        { rewrite (configureHttpArgs_replaces _ _ _ _ _ port Ha Hnot Hnor) in Hrun;
            [|discriminate|exact Hprobe].
          injection Hrun as <- <-.
          apply not_elem_of_app in Hnot as [Hnot1 Hnot2].
          apply not_elem_of_cons in Hnot2 as [_ Hnot2].
          exists (t :: l1), (number_toString (Int port) :: tail l2).
          split; [simpl; apply list_lookup_middle; reflexivity|].
          split; [exact Hnot1|]. right.
          split; [apply not_elem_of_app; split;
                  [exact Hnot1 | apply not_elem_of_cons; split; [discriminate | exact Hnot2]]|].
          split.
          { apply not_elem_of_cons. split.
            - intros Heq. symmetry in Heq. revert Heq. apply number_toString_not_flag.
            - destruct l2 as [|u l2]; [exact Hnot2|].
              apply not_elem_of_cons in Hnot2 as [_ Hnot2]. exact Hnot2. }
          exists port. split; [reflexivity|]. split; reflexivity. }
    + rewrite (configureHttpArgs_rejected _ _ _ _ _ Ha Hnot Hprobe) in Hrun. discriminate.
  - rewrite (configureHttpArgs_explicit _ _ _ _ _ Ha Hnot) in Hrun.
    injection Hrun as <- <-. exists l1, l2.
    split; [simpl; apply list_lookup_middle; reflexivity|].
    split; [exact Hnot|]. left.
    split; [apply elem_of_app; right; apply list_elem_of_here|].
    split; reflexivity.
Qed.

(** ** Claims about argument negotiation *)

(** C9. For an argument list with neither ["--http-port"] nor
    ["--http-port-range"], and a port probe that yields [port],
    [configureHttpArgs] returns the list with the one pair ["--http-port"],
    decimal numeral of [port] appended at its end: every argument that was
    there keeps its position, the flag occurs exactly once, and [port] is
    recorded in [httpPort]. *)
Theorem configureHttpArgs_appends_port_pair (a : nat) (server : list ServerEvent)
    (s : Transport) (l : list string) (port : Z) :
  arrays s !! a = Some l →
  "--http-port" ∉ l →
  "--http-port-range" ∉ l →
  findFreePort server = Fulfilled port →
  ∃ newArgs s' l',
    configureHttpArgs a server s = (Returned newArgs, s') ∧
    arrays s' !! newArgs = Some l' ∧
    l' = l ++ ["--http-port"; pretty port] ∧
    (∀ i x, l !! i = Some x → l' !! i = Some x) ∧
    length (filter (λ x, x = "--http-port") l') = 1%nat ∧
    httpPort s' = Int port.
Proof.
  intros Ha Hnot Hnor Hprobe.
  eexists _, _, _. split.
  { apply (configureHttpArgs_appends _ _ _ _ port Ha Hnot); [|exact Hprobe].
    rewrite (indexOf_absent _ _ Hnor). lia. }
  split; [simpl; apply list_lookup_middle; reflexivity|].
  split; [reflexivity|].
  split; [intros i x Hi; apply lookup_app_l_Some, Hi|].
  split; [|reflexivity].
  rewrite filter_app, (filter_absent _ _ Hnot).
  rewrite (filter_cons_True _ "--http-port") by reflexivity.
  rewrite filter_cons_False by exact (number_toString_not_flag port).
  reflexivity.
Qed.

(** C10. [configureHttpArgs] leaves every array that exists when it is called
    as it is, the caller's array of arguments among them: it allocates one new
    array, the copy, works on that, and returns a reference to it, however it
    ends (returning, rejected by the port probe, or waiting for it). *)
Theorem configureHttpArgs_keeps_callers_array (a : nat) (server : list ServerEvent)
    (s : Transport) (l : list string) :
  arrays s !! a = Some l →
  arrays (snd (configureHttpArgs a server s)) !! a = Some l ∧
  (∃ copy, arrays (snd (configureHttpArgs a server s)) = arrays s ++ [copy]) ∧
  match fst (configureHttpArgs a server s) with
  | Returned newArgs => newArgs ≠ a ∧ arrays s !! newArgs = None
  | _ => True
  end.
Proof.
  intros Ha.
  destruct (configureHttpArgs_cases a server s l Ha) as (o & l' & s' & -> & Harr & Ho).
  simpl. split; [rewrite Harr; apply lookup_app_l_Some, Ha|].
  split; [exists l'; exact Harr|].
  destruct o as [newArgs| |]; [|exact I..]. subst newArgs.
  apply lookup_lt_Some in Ha. split; [lia|].
  apply lookup_ge_None. lia.
Qed.


(** C2, at position 0.  When ["--http-port-range"] is the first argument (and
    ["--http-port"] is absent), [configureHttpArgs] does not replace it: the
    test [index > 0] sends index [0] to the branch that appends, so the flag
    and its token stay, the pair ["--http-port"], [port] is appended, and no
    line is logged. *)
Theorem configureHttpArgs_leading_port_range_kept (a : nat) (server : list ServerEvent)
    (s : Transport) (l2 : list string) (port : Z) :
  arrays s !! a = Some ("--http-port-range" :: l2) →
  "--http-port" ∉ l2 →
  findFreePort server = Fulfilled port →
  ∃ s',
    configureHttpArgs a server s = (Returned (length (arrays s)), s') ∧
    arrays s' !! length (arrays s) =
      Some ("--http-port-range" :: l2 ++ ["--http-port"; number_toString (Int port)]) ∧
    diagnosticChannel s' = diagnosticChannel s.
Proof.
  intros Ha Hnot Hprobe.
  assert ("--http-port" ∉ "--http-port-range" :: l2) as Hnot'
    by (apply not_elem_of_cons; split; [discriminate | exact Hnot]).
  eexists. split.
  { apply (configureHttpArgs_appends _ _ _ _ port Ha Hnot'); [|exact Hprobe].
    pose proof (indexOf_first [] l2 "--http-port-range" (not_elem_of_nil _)) as Hidx.
    simpl in Hidx. rewrite Hidx. lia. }
  split; [simpl; apply list_lookup_middle; reflexivity | reflexivity].
Qed.

(** C3, as the code has it.  When [configureHttpArgs] returns, the list it
    returns holds the flag ["--http-port"], and [httpPort] is the number of
    the token after the flag's first occurrence.  If the arguments held the
    flag, the returned list is equal to them and [httpPort] is [parseInt] of
    that token (of [undefined] when the flag is last); if they did not, the
    flag occurs exactly once and the token is the decimal numeral of the
    probed port, which [httpPort] holds. *)
Theorem configureHttpArgs_records_first_port (a : nat) (server : list ServerEvent)
    (s s' : Transport) (l : list string) (newArgs : nat) :
  arrays s !! a = Some l →
  configureHttpArgs a server s = (Returned newArgs, s') →
  ∃ l1 l2,
    arrays s' !! newArgs = Some (l1 ++ "--http-port" :: l2) ∧
    ("--http-port" ∉ l1) ∧
    (("--http-port" ∈ l ∧ l1 ++ "--http-port" :: l2 = l ∧
      httpPort s' = parseInt (head l2))
     ∨
     (("--http-port" ∉ l) ∧ ("--http-port" ∉ l2) ∧
      ∃ port, findFreePort server = Fulfilled port ∧
        head l2 = Some (pretty port) ∧ httpPort s' = Int port)).
Proof. exact (configureHttpArgs_result a server s s' l newArgs). Qed.


(** ** Subscriptions and calls *)

Lemma dispose_subscription_absent (h : DisposableSubscription) (s : Transport) :
  observer h ∉ subscribers s → dispose_subscription h s = (Returned tt, s).
Proof.
  intros Hnot. unfold dispose_subscription. run_M.
  rewrite (indexOf_absent _ _ Hnot). rewrite decide_False by lia. reflexivity.
Qed.

Lemma dispose_subscription_first (h : DisposableSubscription) (s : Transport)
    (l1 l2 : list Observer) :
  subscribers s = l1 ++ observer h :: l2 →
  observer h ∉ l1 →
  dispose_subscription h s = (Returned tt, set_subscribers (l1 ++ l2) s).
Proof.
  intros Hsub Hnot. unfold dispose_subscription. run_M.
  rewrite Hsub, (indexOf_first _ _ _ Hnot). rewrite decide_True by lia.
  unfold splice1. rewrite Nat2Z.id, delete_middle. reflexivity.
Qed.

Lemma same_outside_refl (s : Transport) : same_outside s s.
Proof. repeat split. Qed.

Lemma same_outside_trans (s1 s2 s3 : Transport) :
  same_outside s1 s2 → same_outside s2 s3 → same_outside s1 s3.
Proof.
  intros (H1 & H2 & H3 & H4 & H5) (K1 & K2 & K3 & K4 & K5).
  repeat split; congruence.
Qed.

(** ** The envelope an observer holds *)

Lemma envelope_at_new (h : list KernelEventEnvelope) (c : KernelEventEnvelope) :
  envelope_at (h ++ [c]) (length h) = c.
Proof. unfold envelope_at. rewrite list_lookup_middle by reflexivity. reflexivity. Qed.

Lemma envelope_at_insert (h : list KernelEventEnvelope) (e : nat)
    (c : KernelEventEnvelope) :
  (e < length h)%nat → envelope_at (<[e := c]> h) e = c.
Proof.
  intros He. unfold envelope_at. rewrite list_lookup_insert_eq by exact He. reflexivity.
Qed.

Lemma insert_envelope_at (h : list KernelEventEnvelope) (e : nat) :
  <[e := envelope_at h e]> h = h.
Proof.
  destruct (h !! e) as [c|] eqn:Hc.
  - unfold envelope_at. rewrite Hc. apply list_insert_id, Hc.
  - apply list_insert_ge, lookup_ge_None, Hc.
Qed.

Lemma set_subscribers_same (s : Transport) : set_subscribers (subscribers s) s = s.
Proof. destruct s. reflexivity. Qed.

Lemma set_envelopes_same (s : Transport) : set_envelopes (envelopes s) s = s.
Proof. destruct s. reflexivity. Qed.

(** A body that only assigns runs to its end and leaves the envelope as its
    assignments make it. *)
Lemma perform_all_assigns (e : nat) (acts : list Action) (s : Transport) :
  (e < length (envelopes s))%nat →
  existsb touches_set acts = false →
  existsb is_throw acts = false →
  perform_all e acts s =
    (Returned tt,
     set_envelopes
       (<[e := fold_left assign acts (envelope_at (envelopes s) e)]> (envelopes s)) s).
Proof.
  revert s. induction acts as [|a acts IH]; intros s He Hset Hthrow.
  - simpl. rewrite insert_envelope_at, set_envelopes_same. reflexivity.
  - simpl in Hset, Hthrow.
    apply orb_false_iff in Hset as [Ha Hset].
    apply orb_false_iff in Hthrow as [Ha' Hthrow].
    assert (perform e a s =
            (Returned tt,
             set_envelopes (<[e := assign (envelope_at (envelopes s) e) a]> (envelopes s)) s))
      as Hstep by (destruct a; try discriminate; reflexivity).
    change (perform_all e (a :: acts) s)
      with (match perform e a s with
            | (Returned _, s1) => perform_all e acts s1
            | (Threw x, s1) => (Threw x, s1)
            | (Suspended, s1) => (Suspended, s1)
            end).
    rewrite Hstep, IH; [|simpl; rewrite length_insert; exact He|exact Hset|exact Hthrow].
    simpl. rewrite envelope_at_insert by exact He.
    rewrite list_insert_insert_eq. reflexivity.
Qed.

(** ** Calls in a calm or tidy pass *)

Lemma disposes_itself_modifies (o : Observer) (content : KernelEventEnvelope) :
  disposes_itself o content = true → modifies o content = true.
Proof.
  destruct o as [|id]; simpl; [tauto|].
  intros Hd. apply bool_decide_eq_true in Hd. rewrite Hd. reflexivity.
Qed.

Lemma disposes_itself_left_by (o : Observer) (content : KernelEventEnvelope) :
  disposes_itself o content = true → left_by o content = content.
Proof.
  destruct o as [|id]; simpl; [reflexivity|].
  intros Hd. apply bool_decide_eq_true in Hd. rewrite Hd. reflexivity.
Qed.

Lemma call_quiet (o : Observer) (e : nat) (s : Transport) :
  (e < length (envelopes s))%nat →
  modifies o (envelope_at (envelopes s) e) = false →
  throws o (envelope_at (envelopes s) e) = false →
  call o e s =
    (Returned tt,
     set_envelopes (<[e := left_by o (envelope_at (envelopes s) e)]> (envelopes s))
       (set_notifications (notifications s ++ [(o, e)]) s)).
Proof.
  intros He Hq Ht. unfold call. run_M. destruct o as [|id]; simpl in Hq, Ht.
  - apply bool_decide_eq_false in Hq. unfold readyListener, envelope_read. run_M.
    rewrite decide_False by exact Hq. rewrite insert_envelope_at. reflexivity.
  - unfold envelope_read. run_M.
    rewrite perform_all_assigns; [reflexivity|exact He|exact Hq|exact Ht].
Qed.

Lemma call_disposes_itself (o : Observer) (e : nat) (s : Transport)
    (l1 l2 : list Observer) :
  disposes_itself o (envelope_at (envelopes s) e) = true →
  subscribers s = l1 ++ o :: l2 →
  o ∉ l1 →
  ∃ s1, call o e s = (Returned tt, s1) ∧
    subscribers s1 = l1 ++ l2 ∧
    notifications s1 = notifications s ++ [(o, e)] ∧
    envelopes s1 = envelopes s ∧
    same_outside s s1.
Proof.
  intros Hd Hsub Hnot. unfold call. run_M. destruct o as [|id]; simpl in Hd.
  - apply bool_decide_eq_true in Hd. unfold readyListener, envelope_read. run_M.
    rewrite decide_True by exact Hd. run_M.
    rewrite (dispose_subscription_first {| observer := ReadySubscriber |} _ l1 l2);
      [|exact Hsub|exact Hnot].
    unfold resolve. run_M. eexists. split; [reflexivity|].
    repeat split.
  - apply bool_decide_eq_true in Hd. unfold envelope_read. run_M. rewrite Hd. simpl. run_M.
    rewrite (dispose_subscription_first {| observer := UserObserver id |} _ l1 l2);
      [|exact Hsub|exact Hnot].
    eexists. split; [reflexivity|]. repeat split.
Qed.

Lemma call_subscriber_Some (i : nat) (o : Observer) (e : nat) (s : Transport) :
  subscribers s !! i = Some o → call_subscriber i e s = call o e s.
Proof. intros Hi. unfold call_subscriber. run_M. rewrite Hi. reflexivity. Qed.

Lemma call_subscriber_None (i : nat) (e : nat) (s : Transport) :
  subscribers s !! i = None →
  call_subscriber i e s =
    (Threw (TypeError "this.subscribers[i] is not a function"), s).
Proof. intros Hi. unfold call_subscriber. run_M. rewrite Hi. reflexivity. Qed.

Lemma notify_from_S (i : nat) (e : nat) (s : Transport) :
  notify_from (S i) e s =
    match call_subscriber i e s with
    | (Returned _, s1) => notify_from i e s1
    | (Threw x, s1) => (Threw x, s1)
    | (Suspended, s1) => (Suspended, s1)
    end.
Proof. reflexivity. Qed.

Lemma calm_pass_tidy (l : list Observer) (content : KernelEventEnvelope) :
  calm_pass l content = true → tidy_pass l content = true.
Proof.
  revert content. induction l as [|o l IH]; intros content; [reflexivity|]. simpl.
  intros Hc. apply andb_true_iff in Hc as [Hc Hrest].
  apply andb_true_iff. split; [|apply IH, Hrest].
  apply orb_true_iff. left. exact Hc.
Qed.

(** A tidy pass over the first [n] observers: it returns, has called each of
    them once, last registered first, on the one envelope, and leaves the
    envelope as they made it; a calm pass leaves the observer set and the
    ready promise as they were. *)
Lemma notify_from_tidy (e : nat) (n : nat) (s : Transport) :
  (n ≤ length (subscribers s))%nat →
  (e < length (envelopes s))%nat →
  tidy_pass (reverse (take n (subscribers s))) (envelope_at (envelopes s) e) = true →
  ∃ s', notify_from n e s = (Returned tt, s') ∧
    notifications s' =
      notifications s ++ ((λ o, (o, e)) <$> reverse (take n (subscribers s))) ∧
    envelopes s' =
      <[e := pass_content (reverse (take n (subscribers s))) (envelope_at (envelopes s) e)]>
        (envelopes s) ∧
    same_outside s s' ∧
    (calm_pass (reverse (take n (subscribers s))) (envelope_at (envelopes s) e) = true →
     subscribers s' = subscribers s ∧ readyPromise s' = readyPromise s ∧
     resolve_calls s' = resolve_calls s).
Proof.
  revert s. induction n as [|i IH]; intros s Hlen He Htidy.
  - exists s. split; [reflexivity|]. simpl. rewrite app_nil_r.
    split; [reflexivity|]. split; [symmetry; apply insert_envelope_at|].
    split; [apply same_outside_refl|]. intros _. repeat split.
  - destruct (lookup_lt_is_Some_2 (subscribers s) i) as [o Ho]; [lia|].
    rewrite notify_from_S, (call_subscriber_Some _ _ _ _ Ho).
    rewrite (take_S_r _ _ _ Ho), reverse_snoc in Htidy |- *. rewrite fmap_cons.
    simpl in Htidy. apply andb_true_iff in Htidy as [Hhere Hrest].
    set (c := envelope_at (envelopes s) e) in *.
    apply orb_true_iff in Hhere as [Hq|Hd].
    + apply andb_true_iff in Hq as [Hq Ht].
      apply negb_true_iff in Hq. apply negb_true_iff in Ht.
      rewrite (call_quiet _ _ _ He Hq Ht). fold c.
      destruct (IH (set_envelopes (<[e := left_by o c]> (envelopes s))
                      (set_notifications (notifications s ++ [(o, e)]) s)))
        as (s' & Hrun & Hnote & Henv & Hout & Hcalm).
      { simpl. lia. }
      { simpl. rewrite length_insert. exact He. }
      { simpl. rewrite envelope_at_insert by exact He. exact Hrest. }
      simpl in Hnote, Henv, Hcalm. rewrite envelope_at_insert in Henv, Hcalm by exact He.
      exists s'. split; [exact Hrun|].
      split; [rewrite Hnote, <- app_assoc; reflexivity|].
      split; [rewrite Henv, list_insert_insert_eq; reflexivity|].
      split; [exact Hout|].
      simpl. intros Hc. apply andb_true_iff in Hc as [_ Hc]. apply (Hcalm Hc).
    + apply andb_true_iff in Hd as [Hd Hnot]. apply bool_decide_eq_true in Hnot.
      rewrite elem_of_reverse in Hnot.
      pose proof (take_drop_middle _ _ _ Ho) as Hmid. symmetry in Hmid.
      destruct (call_disposes_itself o e s _ _ Hd Hmid Hnot)
        as (s1 & Hcall & Hsub1 & Hnote1 & Henv1 & Hout1).
      rewrite Hcall.
      assert (length (take i (subscribers s)) = i) as Htake
        by (rewrite length_take; lia).
      assert (take i (subscribers s1) = take i (subscribers s)) as Htake1.
      { rewrite Hsub1, take_app_le by lia. rewrite take_take.
        replace (i `min` i)%nat with i by lia. reflexivity. }
      destruct (IH s1) as (s' & Hrun & Hnote & Henv & Hout & _).
      { rewrite Hsub1, length_app. lia. }
      { rewrite Henv1. exact He. }
      { rewrite Htake1, Henv1. fold c.
        rewrite (disposes_itself_left_by _ _ Hd) in Hrest. exact Hrest. }
      rewrite Htake1 in Hnote, Henv. rewrite Henv1 in Henv. fold c in Henv.
      exists s'. split; [exact Hrun|].
      split; [rewrite Hnote, Hnote1, <- app_assoc; reflexivity|].
      split; [rewrite Henv; simpl; rewrite (disposes_itself_left_by _ _ Hd); reflexivity|].
      split; [exact (same_outside_trans _ _ _ Hout1 Hout)|].
      simpl. intros Hc. apply andb_true_iff in Hc as [Hc _].
      apply andb_true_iff in Hc as [Hc _].
      rewrite (disposes_itself_modifies _ _ Hd) in Hc. discriminate.
Qed.

(** ** Calls of arbitrary observers *)

Lemma user_edit_refl (l : list Observer) : user_edit l l.
Proof. split; [reflexivity|]. intros j Hj. exists j. split; [lia | exact Hj]. Qed.

Lemma user_edit_trans (l1 l2 l3 : list Observer) :
  user_edit l1 l2 → user_edit l2 l3 → user_edit l1 l3.
Proof.
  intros [Hc1 Hp1] [Hc2 Hp2]. split; [congruence|].
  intros j Hj. destruct (Hp1 j Hj) as (j1 & Hle1 & Hj1).
  destruct (Hp2 j1 Hj1) as (j2 & Hle2 & Hj2).
  exists j2. split; [lia | exact Hj2].
Qed.

Lemma user_edit_delete (l1 l2 : list Observer) (id : nat) :
  user_edit (l1 ++ UserObserver id :: l2) (l1 ++ l2).
Proof.
  split.
  - rewrite !filter_app, filter_cons_False by discriminate. reflexivity.
  - intros j Hj. destruct (decide (j < length l1)%nat) as [Hlt|Hge].
    + exists j. split; [lia|]. rewrite lookup_app_l in Hj by lia.
      apply lookup_app_l_Some, Hj.
    + rewrite lookup_app_r in Hj by lia.
      destruct (j - length l1)%nat as [|k] eqn:Hk; [discriminate|]. simpl in Hj.
      exists (length l1 + k)%nat. split; [lia|].
      rewrite lookup_app_r by lia.
      replace (length l1 + k - length l1)%nat with k by lia. exact Hj.
Qed.

Lemma user_edit_push (l : list Observer) (o : Observer) :
  o ≠ ReadySubscriber → user_edit l (l ++ [o]).
Proof.
  intros Hne. split.
  - rewrite filter_app, filter_cons_False, filter_nil, app_nil_r by exact Hne.
    reflexivity.
  - intros j Hj. exists j. split; [lia|]. apply lookup_app_l_Some, Hj.
Qed.

(** Disposing the handle of a user's observer. *)
Lemma dispose_user_spec (id : nat) (s : Transport) :
  ∃ l, dispose_subscription {| observer := UserObserver id |} s =
         (Returned tt, set_subscribers l s) ∧
    user_edit (subscribers s) l ∧
    (∀ o, o ∈ l → o ∈ subscribers s).
Proof.
  destruct (indexOf_split (subscribers s) (UserObserver id))
    as [[Hnot _]|(l1 & l2 & Hsub & Hnot & _)].
  - exists (subscribers s).
    rewrite (dispose_subscription_absent {| observer := UserObserver id |})
      by exact Hnot.
    rewrite set_subscribers_same. split; [reflexivity|].
    split; [apply user_edit_refl | tauto].
  - exists (l1 ++ l2).
    rewrite (dispose_subscription_first {| observer := UserObserver id |} _ l1 l2)
      by assumption.
    split; [reflexivity|]. rewrite Hsub. split; [apply user_edit_delete|].
    intros o Ho. apply elem_of_app in Ho as [Ho|Ho]; apply elem_of_app;
      [left; exact Ho | right; apply list_elem_of_further, Ho].
Qed.

(** One statement of a body, whatever it is: it changes the observer set and
    the envelope only, it throws only if it is a [throw], and the
    discriminant of the envelope changes only by an assignment to it. *)
Lemma perform_spec (e : nat) (a : Action) (s : Transport) :
  ∃ r l h, perform e a s = (r, set_envelopes h (set_subscribers l s)) ∧
    user_edit (subscribers s) l ∧
    length h = length (envelopes s) ∧
    (r = Returned tt ∨ ∃ x, a = Throw x ∧ r = Threw x) ∧
    (eventType (envelope_at h e) = eventType (envelope_at (envelopes s) e) ∨
     ∃ t, a = AssignEventType t ∧ eventType (envelope_at h e) = t) ∧
    (∀ o, o ∈ l → o ∈ subscribers s ∨ ∃ id, a = SubscribeObserver id ∧ o = UserObserver id).
Proof.
  assert (∀ c, eventType (envelope_at (<[e := c]> (envelopes s)) e) =
               eventType (envelope_at (envelopes s) e) ∨
               envelope_at (<[e := c]> (envelopes s)) e = c) as Hat.
  { intros c. destruct (decide (e < length (envelopes s))%nat) as [He|He].
    - right. apply envelope_at_insert, He.
    - left. rewrite list_insert_ge by lia. reflexivity. }
  destruct a as [id|id|t|ev|x]; simpl.
  - destruct (dispose_user_spec id s) as (l & Hrun & Hedit & Hin).
    exists (Returned tt), l, (envelopes s). rewrite Hrun.
    split; [reflexivity|]. split; [exact Hedit|]. split; [reflexivity|].
    split; [left; reflexivity|]. split; [left; reflexivity|].
    intros o Ho. left. apply Hin, Ho.
  - exists (Returned tt), (subscribers s ++ [UserObserver id]), (envelopes s).
    split; [reflexivity|]. split; [apply user_edit_push; discriminate|].
    split; [reflexivity|]. split; [left; reflexivity|]. split; [left; reflexivity|].
    intros o Ho. apply elem_of_app in Ho as [Ho|Ho]; [left; exact Ho|].
    right. exists id. apply list_elem_of_singleton in Ho. split; [reflexivity | exact Ho].
  - eexists (Returned tt), (subscribers s), _. unfold envelope_assign. run_M.
    split; [reflexivity|]. split; [apply user_edit_refl|].
    split; [apply length_insert|]. split; [left; reflexivity|].
    split; [|intros o Ho; left; exact Ho].
    destruct (Hat {| eventType := t; event := event (envelope_at (envelopes s) e) |})
      as [Hsame|Hnew]; [left; exact Hsame|].
    right. exists t. split; [reflexivity|]. rewrite Hnew. reflexivity.
  - eexists (Returned tt), (subscribers s), _. unfold envelope_assign. run_M.
    split; [reflexivity|]. split; [apply user_edit_refl|].
    split; [apply length_insert|]. split; [left; reflexivity|].
    split; [|intros o Ho; left; exact Ho].
    destruct (Hat {| eventType := eventType (envelope_at (envelopes s) e); event := ev |})
      as [Hsame|Hnew]; [left; exact Hsame|].
    left. rewrite Hnew. reflexivity.
  - exists (Threw x), (subscribers s), (envelopes s).
    split; [unfold throw; rewrite set_subscribers_same, set_envelopes_same; reflexivity|].
    split; [apply user_edit_refl|]. split; [reflexivity|].
    split; [right; exists x; split; reflexivity|]. split; [left; reflexivity|].
    intros o Ho. left. exact Ho.
Qed.

Lemma perform_all_spec (e : nat) (acts : list Action) (s : Transport) :
  ∃ r l h, perform_all e acts s = (r, set_envelopes h (set_subscribers l s)) ∧
    user_edit (subscribers s) l ∧
    length h = length (envelopes s) ∧
    (r = Returned tt ∨ ∃ x, Throw x ∈ acts ∧ r = Threw x) ∧
    (eventType (envelope_at h e) = eventType (envelope_at (envelopes s) e) ∨
     ∃ t, AssignEventType t ∈ acts ∧ eventType (envelope_at h e) = t) ∧
    (∀ o, o ∈ l →
       o ∈ subscribers s ∨ ∃ id, SubscribeObserver id ∈ acts ∧ o = UserObserver id).
Proof.
  revert s. induction acts as [|a acts IH]; intros s.
  - exists (Returned tt), (subscribers s), (envelopes s). simpl. run_M.
    rewrite set_subscribers_same, set_envelopes_same.
    split; [reflexivity|]. split; [apply user_edit_refl|]. split; [reflexivity|].
    split; [left; reflexivity|]. split; [left; reflexivity|].
    intros o Ho. left. exact Ho.
  - destruct (perform_spec e a s) as (r1 & l1 & h1 & Hrun1 & Hedit1 & Hlen1 & Hr1 & Hty1 & Hin1).
    change (perform_all e (a :: acts) s)
      with (match perform e a s with
            | (Returned _, s1) => perform_all e acts s1
            | (Threw x, s1) => (Threw x, s1)
            | (Suspended, s1) => (Suspended, s1)
            end).
    rewrite Hrun1. destruct Hr1 as [->|(x & -> & ->)].
    + destruct (IH (set_envelopes h1 (set_subscribers l1 s)))
        as (r & l & h & Hrun & Hedit & Hlen & Hr & Hty & Hin).
      simpl in Hedit, Hlen, Hty, Hin.
      exists r, l, h. rewrite Hrun. split; [reflexivity|].
      split; [exact (user_edit_trans _ _ _ Hedit1 Hedit)|].
      split; [congruence|]. split.
      { destruct Hr as [->|(x & Hx & ->)]; [left; reflexivity|].
        right. exists x. split; [apply list_elem_of_further, Hx | reflexivity]. }
      split.
      { destruct Hty as [Hty|(t & Ht & Hty)].
        - destruct Hty1 as [Hty1|(t & -> & Hty1)]; [left; congruence|].
          right. exists t. split; [apply list_elem_of_here | congruence].
        - right. exists t. split; [apply list_elem_of_further, Ht | exact Hty]. }
      intros o Ho. destruct (Hin o Ho) as [Ho1|(id & Hid & ->)].
      * destruct (Hin1 o Ho1) as [Ho0|(id & -> & ->)]; [left; exact Ho0|].
        right. exists id. split; [apply list_elem_of_here | reflexivity].
      * right. exists id. split; [apply list_elem_of_further, Hid | reflexivity].
    + exists (Threw x), l1, h1. split; [reflexivity|]. split; [exact Hedit1|].
      split; [exact Hlen1|].
      split; [right; exists x; split; [apply list_elem_of_here | reflexivity]|].
      split.
      { destruct Hty1 as [Hty1|(t & Ht & _)]; [left; exact Hty1 | discriminate]. }
      intros o Ho. destruct (Hin1 o Ho) as [Ho0|(id & Hid & _)]; [left; exact Ho0|].
      discriminate.
Qed.

(** A call of a user's observer. *)
Lemma call_user_spec (id : nat) (e : nat) (s : Transport) :
  ∃ r l h,
    call (UserObserver id) e s =
      (r, set_envelopes h
            (set_subscribers l
               (set_notifications (notifications s ++ [(UserObserver id, e)]) s))) ∧
    user_edit (subscribers s) l ∧
    length h = length (envelopes s) ∧
    (r = Returned tt ∨
     ∃ x, Throw x ∈ callback id (envelope_at (envelopes s) e) ∧ r = Threw x) ∧
    (eventType (envelope_at h e) = eventType (envelope_at (envelopes s) e) ∨
     ∃ t, AssignEventType t ∈ callback id (envelope_at (envelopes s) e) ∧
       eventType (envelope_at h e) = t) ∧
    (∀ o, o ∈ l →
       o ∈ subscribers s ∨
       ∃ id', SubscribeObserver id' ∈ callback id (envelope_at (envelopes s) e) ∧
         o = UserObserver id').
Proof.
  unfold call, envelope_read. run_M.
  destruct (perform_all_spec e (callback id (envelope_at (envelopes s) e))
              (set_notifications (notifications s ++ [(UserObserver id, e)]) s))
    as (r & l & h & Hrun & Hrest).
  exists r, l, h. split; [exact Hrun | exact Hrest].
Qed.

Lemma call_ready_quiet (e : nat) (s : Transport) :
  eventType (envelope_at (envelopes s) e) ≠ KernelReadyType →
  call ReadySubscriber e s =
    (Returned tt, set_notifications (notifications s ++ [(ReadySubscriber, e)]) s).
Proof.
  intros Hty. unfold call, readyListener, envelope_read. run_M.
  rewrite decide_False by exact Hty. reflexivity.
Qed.

Lemma call_ready_spec (e : nat) (s : Transport) (l1 l2 : list Observer) :
  eventType (envelope_at (envelopes s) e) = KernelReadyType →
  subscribers s = l1 ++ ReadySubscriber :: l2 →
  ReadySubscriber ∉ l1 →
  call ReadySubscriber e s =
    (Returned tt,
     set_resolve_calls (S (resolve_calls s))
       (set_readyPromise (match readyPromise s with Pending => Fulfilled tt | p => p end)
          (set_subscribers (l1 ++ l2)
             (set_notifications (notifications s ++ [(ReadySubscriber, e)]) s)))).
Proof.
  intros Hty Hsub Hnot. unfold call, readyListener, envelope_read. run_M.
  rewrite decide_True by exact Hty. run_M.
  rewrite (dispose_subscription_first {| observer := ReadySubscriber |} _ l1 l2);
    [|exact Hsub|exact Hnot].
  reflexivity.
Qed.

Lemma ready_count_elem (l : list Observer) :
  ReadySubscriber ∈ l → (1 ≤ length (filter (λ o, o = ReadySubscriber) l))%nat.
Proof.
  intros Hin. apply list_elem_of_split in Hin as (l1 & l2 & ->).
  rewrite filter_app, filter_cons_True, length_app by reflexivity. simpl. lia.
Qed.

Lemma ready_count_0 (l : list Observer) :
  length (filter (λ o, o = ReadySubscriber) l) = 0%nat → ReadySubscriber ∉ l.
Proof. intros H0 Hin. apply ready_count_elem in Hin. lia. Qed.

(** A call of a registered observer, whatever it does: the ready promise and
    its listener stay together; the listener returns, and resolves exactly
    when the envelope reads as a ready envelope at that moment; a user's
    observer leaves the promise alone. *)
Lemma call_spec (o : Observer) (e : nat) (s : Transport) :
  o ∈ subscribers s →
  ∃ r s1, call o e s = (r, s1) ∧
    same_outside s s1 ∧
    (resolve_calls s ≤ resolve_calls s1)%nat ∧
    (ready_inv s → ready_inv s1) ∧
    notifications s1 = notifications s ++ [(o, e)] ∧
    length (envelopes s1) = length (envelopes s) ∧
    match o with
    | ReadySubscriber =>
        r = Returned tt ∧ envelopes s1 = envelopes s ∧
        (eventType (envelope_at (envelopes s) e) = KernelReadyType →
         (1 ≤ resolve_calls s1)%nat) ∧
        (eventType (envelope_at (envelopes s) e) ≠ KernelReadyType →
         readyPromise s1 = readyPromise s)
    | UserObserver id =>
        user_edit (subscribers s) (subscribers s1) ∧
        readyPromise s1 = readyPromise s ∧
        (r = Returned tt ∨
         ∃ x, Throw x ∈ callback id (envelope_at (envelopes s) e) ∧ r = Threw x) ∧
        (eventType (envelope_at (envelopes s1) e) =
           eventType (envelope_at (envelopes s) e) ∨
         ∃ t, AssignEventType t ∈ callback id (envelope_at (envelopes s) e) ∧
           eventType (envelope_at (envelopes s1) e) = t)
    end.
Proof.
  intros Hin. destruct o as [|id].
  - destruct (decide (eventType (envelope_at (envelopes s) e) = KernelReadyType))
      as [Hty|Hty].
    + destruct (indexOf_split (subscribers s) ReadySubscriber)
        as [[Hnot _]|(l1 & l2 & Hsub & Hnot & _)]; [contradiction|].
      rewrite (call_ready_spec _ _ _ _ Hty Hsub Hnot).
      eexists _, _. split; [reflexivity|]. simpl.
      split; [repeat split|]. split; [lia|]. split.
      * intros [(Hp & Hc & Hn)|(Hp & Hc & Hn)].
        -- right. unfold ready_count in *. simpl. rewrite Hp.
           split; [reflexivity|]. split; [lia|].
           rewrite Hsub in Hn.
           rewrite filter_app, filter_cons_True, length_app in Hn by reflexivity.
           simpl in Hn. rewrite filter_app, length_app.
           destruct (spawned s); lia.
        -- exfalso. apply ready_count_elem in Hin. unfold ready_count in Hn. lia.
      * split; [reflexivity|]. split; [reflexivity|].
        split; [reflexivity|]. split; [reflexivity|]. split; [lia | contradiction].
    + rewrite (call_ready_quiet _ _ Hty).
      eexists _, _. split; [reflexivity|]. simpl.
      split; [repeat split|]. split; [lia|].
      split; [tauto|]. split; [reflexivity|]. split; [reflexivity|].
      split; [reflexivity|]. split; [reflexivity|]. split; [contradiction | reflexivity].
  - destruct (call_user_spec id e s) as (r & l & h & Hrun & Hedit & Hlen & Hr & Hty & _).
    rewrite Hrun. eexists _, _. split; [reflexivity|]. simpl.
    split; [repeat split|]. split; [lia|]. split.
    + destruct Hedit as [Hcount _].
      intros [(Hp & Hc & Hn)|(Hp & Hc & Hn)]; [left|right];
        unfold ready_count, spawned in *; simpl; rewrite Hcount; tauto.
    + split; [reflexivity|]. split; [exact Hlen|]. split; [exact Hedit|].
      split; [reflexivity|]. split; [exact Hr | exact Hty].
Qed.

(** ** Notification passes with arbitrary observers *)

Lemma notify_from_spec (e : nat) (n : nat) (s : Transport) :
  ∃ r s', notify_from n e s = (r, s') ∧
    same_outside s s' ∧
    (resolve_calls s ≤ resolve_calls s')%nat ∧
    (ready_inv s → ready_inv s') ∧
    length (envelopes s') = length (envelopes s).
Proof.
  revert s. induction n as [|i IH]; intros s.
  - exists (Returned tt), s. split; [reflexivity|].
    split; [apply same_outside_refl|]. split; [lia|]. tauto.
  - rewrite notify_from_S. destruct (subscribers s !! i) as [o|] eqn:Ho.
    + rewrite (call_subscriber_Some _ _ _ _ Ho).
      destruct (call_spec o e s) as (r1 & s1 & Hcall & Hout1 & Hle1 & Hinv1 & _ & Hlen1 & _).
      { apply list_elem_of_lookup. exists i. exact Ho. }
      rewrite Hcall. destruct r1 as [[]|x|].
      * destruct (IH s1) as (r & s' & Hrun & Hout & Hle & Hinv & Hlen).
        exists r, s'. split; [exact Hrun|].
        split; [exact (same_outside_trans _ _ _ Hout1 Hout)|].
        split; [lia|]. split; [tauto | congruence].
      * exists (Threw x), s1. split; [reflexivity|]. tauto.
      * exists Suspended, s1. split; [reflexivity|]. tauto.
    + rewrite (call_subscriber_None _ _ _ Ho). eexists _, s.
      split; [reflexivity|]. split; [apply same_outside_refl|].
      split; [lia|]. tauto.
Qed.

Lemma notify_from_log (e : nat) (n : nat) (s : Transport) :
  notifications s `prefix_of` notifications (snd (notify_from n e s)).
Proof.
  revert s. induction n as [|i IH]; intros s; [reflexivity|].
  rewrite notify_from_S. destruct (subscribers s !! i) as [o|] eqn:Ho.
  - rewrite (call_subscriber_Some _ _ _ _ Ho).
    destruct (call_spec o e s) as (r1 & s1 & Hcall & _ & _ & _ & Hn1 & _).
    { apply list_elem_of_lookup. exists i. exact Ho. }
    rewrite Hcall.
    assert (notifications s `prefix_of` notifications s1) as Hpre
      by (rewrite Hn1; apply prefix_app_r; reflexivity).
    destruct r1 as [[]|x|]; [|exact Hpre..].
    etrans; [exact Hpre | apply IH].
  - rewrite (call_subscriber_None _ _ _ Ho). reflexivity.
Qed.

Lemma made_ready_later (e : nat) (s s' : Transport) :
  notifications s `prefix_of` notifications s' → made_ready e s → made_ready e s'.
Proof.
  intros [more Hmore] (id & content & Hassign & Hin). exists id, content.
  split; [exact Hassign|]. rewrite Hmore. apply elem_of_app. left. exact Hin.
Qed.

(** The ready promise changes in a pass only if the envelope reads as a ready
    envelope when the listener is called: it did so when the pass began, or
    an observer called before the listener assigned the ready type to it. *)
Lemma notify_from_promise (P : Prop) (e : nat) (n : nat) (s : Transport) :
  (eventType (envelope_at (envelopes s) e) = KernelReadyType → P ∨ made_ready e s) →
  readyPromise (snd (notify_from n e s)) = readyPromise s ∨
  P ∨ made_ready e (snd (notify_from n e s)).
Proof.
  revert s. induction n as [|i IH]; intros s Hnow; [left; reflexivity|].
  pose proof (notify_from_log e (S i) s) as Hlog.
  rewrite notify_from_S in Hlog |- *. destruct (subscribers s !! i) as [o|] eqn:Ho.
  - rewrite (call_subscriber_Some _ _ _ _ Ho) in Hlog |- *.
    destruct (call_spec o e s) as (r1 & s1 & Hcall & _ & _ & _ & Hn1 & _ & Ho1).
    { apply list_elem_of_lookup. exists i. exact Ho. }
    rewrite Hcall in Hlog |- *. destruct o as [|id].
    + destruct Ho1 as (-> & Henv & _ & Hsame).
      destruct (decide (eventType (envelope_at (envelopes s) e) = KernelReadyType))
        as [Hty|Hty].
      { right. destruct (Hnow Hty) as [HP|Hmade]; [left; exact HP|].
        right. exact (made_ready_later _ _ _ Hlog Hmade). }
      destruct (IH s1) as [Hp|Hp]; [|left; rewrite Hp; apply Hsame, Hty|right; exact Hp].
      rewrite Henv. intros Hready. contradiction.
    + destruct Ho1 as (_ & Hprom & Hr & Hty).
      assert (eventType (envelope_at (envelopes s1) e) = KernelReadyType →
              P ∨ made_ready e s1) as Hnow1.
      { intros Hready. destruct Hty as [Hty|(t & Ht & Hty)].
        - destruct Hnow as [HP|Hmade]; [congruence|left; exact HP|].
          right. apply (made_ready_later e s); [|exact Hmade].
          rewrite Hn1. apply prefix_app_r. reflexivity.
        - right. exists id, (envelope_at (envelopes s) e).
          split; [congruence|]. rewrite Hn1. apply elem_of_app. right.
          apply list_elem_of_here. }
      destruct r1 as [[]|x|]; [|left; exact Hprom..].
      destruct (IH s1 Hnow1) as [Hp|Hp]; [left; congruence | right; exact Hp].
  - rewrite (call_subscriber_None _ _ _ Ho). left. reflexivity.
Qed.

(** A pass that returns has called every observer it started above, whatever
    the users' observers did to the set meanwhile: the ready listener, if it
    stood below index [n], was called; and it was called on a ready envelope
    if the pass began with one and no observer assigns another type. *)
Lemma notify_from_reaches_ready (e : nat) (n : nat) :
  (∀ id content t, AssignEventType t ∈ callback id content → t = KernelReadyType) →
  ∀ s j s', eventType (envelope_at (envelopes s) e) = KernelReadyType →
    (j < n)%nat → subscribers s !! j = Some ReadySubscriber →
    notify_from n e s = (Returned tt, s') →
    (1 ≤ resolve_calls s')%nat.
Proof.
  intros Hkeep. induction n as [|i IH]; intros s j s' Hty Hj Hready Hrun; [lia|].
  rewrite notify_from_S in Hrun. destruct (subscribers s !! i) as [o|] eqn:Ho.
  - rewrite (call_subscriber_Some _ _ _ _ Ho) in Hrun.
    destruct (call_spec o e s) as (r1 & s1 & Hcall & _ & _ & _ & _ & _ & Ho1).
    { apply list_elem_of_lookup. exists i. exact Ho. }
    rewrite Hcall in Hrun. destruct o as [|id].
    + destruct Ho1 as (-> & _ & Hone & _).
      destruct (notify_from_spec e i s1) as (r & s2 & Hrun2 & _ & Hle & _).
      rewrite Hrun2 in Hrun. injection Hrun as _ <-.
      specialize (Hone Hty). lia.
    + destruct Ho1 as ([_ Hpos] & _ & Hr & Hty1).
      destruct r1 as [[]|x|]; [|discriminate..].
      destruct (Hpos j Hready) as (j' & Hle & Hj').
      assert (j ≠ i) by (intros ->; congruence).
      apply (IH s1 j' s'); [|lia | exact Hj' | exact Hrun].
      destruct Hty1 as [Hty1|(t & Ht & Hty1)]; [congruence|].
      rewrite Hty1. apply (Hkeep _ _ _ Ht).
  - rewrite (call_subscriber_None _ _ _ Ho) in Hrun. discriminate.
Qed.

(** ** [handleLine] *)

Lemma handleLine_malformed (line : string) (s : Transport) :
  parse line = None → handleLine line s = (Threw (SyntaxError line), s).
Proof. intros Hp. unfold handleLine. run_M. rewrite Hp. reflexivity. Qed.

Lemma handleLine_decoded (line : string) (envelope : KernelEventEnvelope) (s : Transport) :
  parse line = Some envelope →
  handleLine line s =
    notify_from (length (subscribers s)) (length (envelopes s)) (decoded envelope s).
Proof.
  intros Hp. unfold handleLine, decoded, new_envelope, envelope_read. run_M. rewrite Hp.
  simpl. rewrite envelope_at_new.
  destruct (decide (eventType envelope = DiagnosticLogEntryProducedType)); reflexivity.
Qed.

Lemma decoded_spec (envelope : KernelEventEnvelope) (s : Transport) :
  subscribers (decoded envelope s) = subscribers s ∧
  childProcess (decoded envelope s) = childProcess s ∧
  readyPromise (decoded envelope s) = readyPromise s ∧
  resolve_calls (decoded envelope s) = resolve_calls s ∧
  notifications (decoded envelope s) = notifications s ∧
  envelopes (decoded envelope s) = envelopes s ++ [envelope] ∧
  httpPort (decoded envelope s) = httpPort s ∧
  arrays (decoded envelope s) = arrays s ∧
  exited (decoded envelope s) = exited s ∧
  diagnosticChannel (decoded envelope s) =
    diagnosticChannel s ++
      (if decide (eventType envelope = DiagnosticLogEntryProducedType)
       then [message (event envelope)] else []) ∧
  (ready_inv s → ready_inv (decoded envelope s)).
Proof.
  unfold decoded. destruct (decide _); simpl; rewrite ?app_nil_r; repeat split; tauto.
Qed.

Lemma handleLine_spec (line : string) (s : Transport) :
  ∃ o s', handleLine line s = (o, s') ∧
    childProcess s' = childProcess s ∧
    exited s' = exited s ∧
    notifications s `prefix_of` notifications s' ∧
    (ready_inv s → ready_inv s') ∧
    (readyPromise s' = readyPromise s ∨
     ∃ envelope, parse line = Some envelope ∧
       (eventType envelope = KernelReadyType ∨ made_ready (length (envelopes s)) s')).
Proof.
  destruct (parse line) as [envelope|] eqn:Hp.
  - rewrite (handleLine_decoded _ _ _ Hp).
    destruct (decoded_spec envelope s)
      as (Hs & Hc & Hr & _ & Hn & Henv & _ & _ & Hx & _ & Hi).
    destruct (notify_from_spec (length (envelopes s)) (length (subscribers s))
                (decoded envelope s))
      as (o & s' & Hrun & (Hout & _ & _ & _ & Hex) & _ & Hinv & _).
    pose proof (notify_from_log (length (envelopes s)) (length (subscribers s))
                  (decoded envelope s)) as Hlog.
    exists o, s'. split; [exact Hrun|]. rewrite Hrun in Hlog. simpl in Hlog.
    split; [congruence|]. split; [congruence|]. split; [rewrite <- Hn; exact Hlog|].
    split; [tauto|].
    destruct (notify_from_promise (eventType envelope = KernelReadyType)
                (length (envelopes s)) (length (subscribers s)) (decoded envelope s))
      as [Hsame|Hready].
    + rewrite Henv, envelope_at_new. intros Hty. left. exact Hty.
    + left. rewrite Hrun in Hsame. simpl in Hsame. congruence.
    + right. exists envelope. split; [reflexivity|].
      rewrite Hrun in Hready. exact Hready.
  - rewrite (handleLine_malformed _ _ Hp). exists (Threw (SyntaxError line)), s.
    split; [reflexivity|]. split; [reflexivity|]. split; [reflexivity|].
    split; [reflexivity|]. split; [tauto|]. left. reflexivity.
Qed.

(** ** Events *)

Lemma stdin_write_object (chunk : string) (s : Transport) (p : ChildProcess) :
  childProcess s = object p →
  exited s = false →
  stdin_write chunk s =
    (Returned tt,
     set_childProcess (object
       {| pid := pid p; spawn_command := spawn_command p; spawn_args := spawn_args p;
          spawn_cwd := spawn_cwd p; stdin := stdin p ++ [chunk];
          kill_calls := kill_calls p |}) s).
Proof.
  intros Hc Hx. unfold stdin_write, member. run_M. rewrite Hc. simpl. rewrite Hx.
  reflexivity.
Qed.

Lemma stdin_write_exited (chunk : string) (s : Transport) (p : ChildProcess) :
  childProcess s = object p →
  exited s = true →
  stdin_write chunk s = (Threw (StreamError "ERR_STREAM_DESTROYED"), s).
Proof.
  intros Hc Hx. unfold stdin_write, member. run_M. rewrite Hc. simpl. rewrite Hx.
  reflexivity.
Qed.

Lemma stdin_write_null (chunk : string) (s : Transport) :
  childProcess s = null →
  stdin_write chunk s = (Threw (TypeError "Cannot read property 'stdin' of null"), s).
Proof. intros Hc. unfold stdin_write, member. run_M. rewrite Hc. reflexivity. Qed.

Lemma kill_object (s : Transport) (p : ChildProcess) :
  childProcess s = object p →
  kill s =
    (Returned tt,
     set_childProcess (object
       {| pid := pid p; spawn_command := spawn_command p; spawn_args := spawn_args p;
          spawn_cwd := spawn_cwd p; stdin := stdin p;
          kill_calls := S (kill_calls p) |}) s).
Proof. intros Hc. unfold kill, member. run_M. rewrite Hc. reflexivity. Qed.

Lemma kill_null (s : Transport) :
  childProcess s = null →
  kill s = (Threw (TypeError "Cannot read property 'kill' of null"), s).
Proof. intros Hc. unfold kill, member. run_M. rewrite Hc. reflexivity. Qed.

Lemma submitCommand_object (c : KernelCommand) (t : KernelCommandType) (k : string)
    (s : Transport) (p : ChildProcess) :
  childProcess s = object p →
  exited s = false →
  submitCommand c t k s =
    (Fulfilled tt,
     set_childProcess (object
       {| pid := pid p; spawn_command := spawn_command p; spawn_args := spawn_args p;
          spawn_cwd := spawn_cwd p;
          stdin := stdin p ++
                     [stringify {| token := k; commandType := t; command := c |};
                      newline];
          kill_calls := kill_calls p |}) s).
Proof.
  intros Hc Hx. unfold submitCommand, new_Promise. run_M. rewrite Hc. simpl.
  rewrite (stdin_write_object _ _ _ Hc Hx).
  erewrite (stdin_write_object newline) by (simpl; first [reflexivity | exact Hx]). simpl.
  rewrite <- app_assoc. reflexivity.
Qed.

(** The handle is held but the process has exited: the first write throws
    inside the executor of the promise, which rejects it. *)
Lemma submitCommand_exited (c : KernelCommand) (t : KernelCommandType) (k : string)
    (s : Transport) (p : ChildProcess) :
  childProcess s = object p →
  exited s = true →
  submitCommand c t k s = (Rejected (StreamError "ERR_STREAM_DESTROYED"), s).
Proof.
  intros Hc Hx. unfold submitCommand, new_Promise. run_M. rewrite Hc. simpl.
  rewrite (stdin_write_exited _ _ _ Hc Hx). reflexivity.
Qed.

Lemma submitCommand_null (c : KernelCommand) (t : KernelCommandType) (k : string)
    (s : Transport) :
  childProcess s = null →
  submitCommand c t k s =
    (Rejected (TypeError "Cannot read property 'stdin' of null"), s).
Proof.
  intros Hc. unfold submitCommand, new_Promise. run_M. rewrite Hc. simpl.
  rewrite (stdin_write_null _ _ Hc). reflexivity.
Qed.

Lemma submitCommand_undefined (c : KernelCommand) (t : KernelCommandType) (k : string)
    (s : Transport) :
  childProcess s = undefined →
  submitCommand c t k s = (Rejected NoReason, s).
Proof.
  intros Hc. unfold submitCommand, new_Promise. run_M. rewrite Hc. reflexivity.
Qed.

Lemma dispose_object (s : Transport) (p : ChildProcess) :
  childProcess s = object p →
  dispose s =
    (Returned tt,
     set_childProcess (object
       {| pid := pid p; spawn_command := spawn_command p; spawn_args := spawn_args p;
          spawn_cwd := spawn_cwd p; stdin := stdin p;
          kill_calls := S (kill_calls p) |}) s).
Proof.
  intros Hc. unfold dispose. run_M. rewrite Hc. simpl. apply (kill_object _ _ Hc).
Qed.

Lemma dispose_null (s : Transport) :
  childProcess s = null →
  dispose s = (Threw (TypeError "Cannot read property 'kill' of null"), s).
Proof.
  intros Hc. unfold dispose. run_M. rewrite Hc. simpl. apply (kill_null _ Hc).
Qed.

Lemma dispose_undefined (s : Transport) :
  childProcess s = undefined → dispose s = (Returned tt, s).
Proof. intros Hc. unfold dispose. run_M. rewrite Hc. reflexivity. Qed.

Lemma submitCommand_state (c : KernelCommand) (t : KernelCommandType) (k : string)
    (s : Transport) :
  snd (submitCommand c t k s) = s ∨
  ∃ p p', childProcess s = object p ∧
    snd (submitCommand c t k s) = set_childProcess (object p') s.
Proof.
  destruct (childProcess s) as [| |p] eqn:Hc.
  - left. rewrite (submitCommand_null _ _ _ _ Hc). reflexivity.
  - left. rewrite (submitCommand_undefined _ _ _ _ Hc). reflexivity.
  - destruct (exited s) eqn:Hx.
    + left. rewrite (submitCommand_exited _ _ _ _ _ Hc Hx). reflexivity.
    + right. rewrite (submitCommand_object _ _ _ _ _ Hc Hx). eexists _, _.
      split; reflexivity.
Qed.

Lemma dispose_state (s : Transport) :
  snd (dispose s) = s ∨
  ∃ p p', childProcess s = object p ∧ snd (dispose s) = set_childProcess (object p') s.
Proof.
  destruct (childProcess s) as [| |p] eqn:Hc.
  - left. rewrite (dispose_null _ Hc). reflexivity.
  - left. rewrite (dispose_undefined _ Hc). reflexivity.
  - right. rewrite (dispose_object _ _ Hc). eexists _, _. split; reflexivity.
Qed.

Lemma step_subscription (s : Transport) (ev : Event) :
  match ev with
  | Subscribe _ | DisposeSubscription _ =>
      ∃ l, step s ev = set_subscribers l s ∧ user_edit (subscribers s) l
  | _ => True
  end.
Proof.
  destruct ev as [id|id| | |]; try exact I.
  - exists (subscribers s ++ [UserObserver id]). split; [reflexivity|].
    apply user_edit_push. discriminate.
  - destruct (dispose_user_spec id s) as (l & Hrun & Hedit & _).
    exists l. split; [|exact Hedit]. simpl. rewrite Hrun. reflexivity.
Qed.

Lemma step_spec (s : Transport) (ev : Event) :
  spawned (step s ev) = spawned s ∧
  exited (step s ev) = exited s ∧
  notifications s `prefix_of` notifications (step s ev) ∧
  (ready_inv s → ready_inv (step s ev)) ∧
  (readyPromise (step s ev) = readyPromise s ∨
   spawned s = true ∧
   ∃ line envelope, ev = StdoutLine line ∧ parse line = Some envelope ∧
     (eventType envelope = KernelReadyType ∨ ∃ e, made_ready e (step s ev))).
Proof.
  pose proof (step_subscription s ev) as Hsub.
  destruct ev as [id|id|line|c t k|].
  - destruct Hsub as (l & -> & [Hcount _]). split; [reflexivity|]. split; [reflexivity|].
    split; [reflexivity|]. split; [|left; reflexivity].
    intros [(Hp & Hc & Hn)|(Hp & Hc & Hn)]; [left|right];
      unfold ready_count, spawned in *; simpl; rewrite Hcount; tauto.
  - destruct Hsub as (l & -> & [Hcount _]). split; [reflexivity|]. split; [reflexivity|].
    split; [reflexivity|]. split; [|left; reflexivity].
    intros [(Hp & Hc & Hn)|(Hp & Hc & Hn)]; [left|right];
      unfold ready_count, spawned in *; simpl; rewrite Hcount; tauto.
  - simpl. unfold spawned. destruct (childProcess s) as [| |p] eqn:Hc.
    + rewrite Hc. split; [reflexivity|]. split; [reflexivity|]. split; [reflexivity|].
      split; [tauto | left; reflexivity].
    + rewrite Hc. split; [reflexivity|]. split; [reflexivity|]. split; [reflexivity|].
      split; [tauto | left; reflexivity].
    + destruct (handleLine_spec line s) as (o & s' & Hrun & Hc' & Hx' & Hn' & Hinv & Hprom).
      rewrite Hrun. simpl. rewrite Hc', Hc. split; [reflexivity|].
      split; [exact Hx'|]. split; [exact Hn'|]. split; [exact Hinv|].
      destruct Hprom as [Hprom|(envelope & Hp & Hty)]; [left; exact Hprom|].
      right. split; [reflexivity|]. exists line, envelope.
      split; [reflexivity|]. split; [exact Hp|].
      destruct Hty as [Hty|Hmade]; [left; exact Hty|]. right. eexists. exact Hmade.
  - simpl. destruct (submitCommand_state c t k s) as [->|(p & p' & Hc & ->)].
    + split; [reflexivity|]. split; [reflexivity|]. split; [reflexivity|].
      split; [tauto | left; reflexivity].
    + unfold spawned. simpl. rewrite Hc. split; [reflexivity|]. split; [reflexivity|].
      split; [reflexivity|]. split; [|left; reflexivity].
      unfold ready_inv, ready_count, spawned. simpl. rewrite Hc. tauto.
  - simpl. destruct (dispose_state s) as [->|(p & p' & Hc & ->)].
    + split; [reflexivity|]. split; [reflexivity|]. split; [reflexivity|].
      split; [tauto | left; reflexivity].
    + unfold spawned. simpl. rewrite Hc. split; [reflexivity|]. split; [reflexivity|].
      split; [reflexivity|]. split; [|left; reflexivity].
      unfold ready_inv, ready_count, spawned. simpl. rewrite Hc. tauto.
Qed.

Lemma run_cons (ev : Event) (evs : list Event) (s : Transport) :
  run (ev :: evs) s = run evs (step s ev).
Proof. reflexivity. Qed.

Lemma run_spec (evs : list Event) (s : Transport) :
  spawned (run evs s) = spawned s ∧
  exited (run evs s) = exited s ∧
  notifications s `prefix_of` notifications (run evs s) ∧
  (ready_inv s → ready_inv (run evs s)) ∧
  (readyPromise (run evs s) = readyPromise s ∨
   spawned s = true ∧
   ∃ line envelope, StdoutLine line ∈ evs ∧ parse line = Some envelope ∧
     (eventType envelope = KernelReadyType ∨ ∃ e, made_ready e (run evs s))).
Proof.
  revert s. induction evs as [|ev evs IH]; intros s.
  - split; [reflexivity|]. split; [reflexivity|]. split; [reflexivity|].
    split; [tauto | left; reflexivity].
  - rewrite run_cons. destruct (step_spec s ev) as (Hsp1 & Hx1 & Hn1 & Hinv1 & Hprom1).
    destruct (IH (step s ev)) as (Hsp & Hx & Hn & Hinv & Hprom).
    split; [congruence|]. split; [congruence|]. split; [etrans; eassumption|].
    split; [tauto|].
    destruct Hprom as [Hprom|(Htrue & line & envelope & Hin & Hp & Hty)].
    + destruct Hprom1 as [Hprom1|(Htrue & line & envelope & -> & Hp & Hty)].
      * left. congruence.
      * right. split; [exact Htrue|]. exists line, envelope.
        split; [apply list_elem_of_here|]. split; [exact Hp|].
        destruct Hty as [Hty|(e & Hmade)]; [left; exact Hty|].
        right. exists e. exact (made_ready_later _ _ _ Hn Hmade).
    + right. split; [congruence|]. exists line, envelope.
      split; [apply list_elem_of_further, Hin | tauto].
Qed.

(** ** The executor and the life of a transport *)

Lemma configureHttpArgs_frame (a : nat) (server : list ServerEvent) (s : Transport) :
  ∃ o h d p, configureHttpArgs a server s =
    (o, set_arrays h (set_diagnosticChannel d (set_httpPort p s))).
Proof.
  destruct s. unfold configureHttpArgs. run_M.
  repeat case_decide; simpl;
    try (destruct (findFreePort server); simpl; repeat case_decide; simpl);
    eexists _, _, _, _; unfold set_arrays, set_diagnosticChannel, set_httpPort; simpl;
    reflexivity.
Qed.

Lemma unstarted_ready_inv (s : Transport) : unstarted s → ready_inv s.
Proof. intros (Hsp & Hp & Hc & Hn). left. rewrite Hsp. tauto. Qed.

Lemma executor_spec (processStart : ProcessStart) (server : list ServerEvent)
    (pid : nat) (s : Transport) :
  unstarted s →
  ready_inv (snd (executor processStart server pid s)) ∧
  readyPromise (snd (executor processStart server pid s)) = Pending.
Proof.
  intros (Hsp & Hp & Hc & Hn).
  destruct (configureHttpArgs_frame (args processStart) server s)
    as (o & h & d & p & Heq).
  unfold executor, subscribeToKernelEvents. run_M. rewrite Heq.
  destruct o as [newArgs| |]; simpl.
  - split; [|exact Hp].
    left. unfold ready_count, spawned in *. simpl.
    rewrite filter_app, length_app, Hn. tauto.
  - split; [|exact Hp]. left. unfold ready_count, spawned in *. simpl.
    rewrite Hsp. tauto.
  - split; [|exact Hp]. left. unfold ready_count, spawned in *. simpl.
    rewrite Hsp. tauto.
Qed.

Lemma run_unstarted (evs : list Event) (s : Transport) :
  unstarted s → unstarted (run evs s).
Proof.
  intros Hun. pose proof Hun as (Hsp & Hp & Hc & Hn).
  destruct (run_spec evs s) as (Hsp' & _ & _ & Hinv & Hprom).
  assert (readyPromise (run evs s) = Pending) as Hp'.
  { destruct Hprom as [->|[Htrue _]]; [exact Hp | congruence]. }
  destruct (Hinv (unstarted_ready_inv s Hun)) as [(_ & Hc' & Hn')|(Hf & _)];
    [|congruence].
  rewrite Hsp', Hsp in Hn'. repeat split; congruence.
Qed.

Lemma ready_registered (s : Transport) :
  ready_count s = 1%nat →
  ∃ j, (j < length (subscribers s))%nat ∧ subscribers s !! j = Some ReadySubscriber.
Proof.
  unfold ready_count. intros Hn.
  assert (ReadySubscriber ∈ subscribers s) as Hin.
  { destruct (decide (ReadySubscriber ∈ subscribers s)) as [Hin|Hnot]; [exact Hin|].
    exfalso. clear -Hn Hnot.
    induction (subscribers s) as [|o l IH]; [discriminate|].
    apply not_elem_of_cons in Hnot as [Hne Hnot].
    rewrite filter_cons_False in Hn by congruence. apply IH; assumption. }
  apply list_elem_of_lookup in Hin as [j Hj]. exists j.
  split; [apply (lookup_lt_Some _ _ _ Hj) | exact Hj].
Qed.

(** On a transport that keeps its invariant, a ready envelope whose pass
    returns, with no observer that assigns another type to it, leaves the
    promise fulfilled and the listener gone. *)
Lemma handleLine_ready (line : string) (envelope : KernelEventEnvelope)
    (s s' : Transport) :
  (∀ id content t, AssignEventType t ∈ callback id content → t = KernelReadyType) →
  ready_inv s → spawned s = true →
  parse line = Some envelope → eventType envelope = KernelReadyType →
  handleLine line s = (Returned tt, s') →
  readyPromise s' = Fulfilled tt ∧ resolve_calls s' = 1%nat ∧
  ReadySubscriber ∉ subscribers s'.
Proof.
  intros Hkeep Hinv Hsp Hp Hty Hrun. rewrite (handleLine_decoded _ _ _ Hp) in Hrun.
  destruct (decoded_spec envelope s)
    as (Hs & _ & _ & Hc & _ & Henv & _ & _ & _ & _ & Hi).
  destruct (notify_from_spec (length (envelopes s)) (length (subscribers s))
              (decoded envelope s))
    as (o & s2 & Hrun2 & _ & Hle & Hinv2 & _).
  rewrite Hrun2 in Hrun. injection Hrun as -> ->.
  assert (1 ≤ resolve_calls s')%nat as Hone.
  { destruct Hinv as [(_ & _ & Hn)|(_ & Hc1 & _)]; [|lia].
    rewrite Hsp in Hn. destruct (ready_registered s Hn) as (j & Hj & Hready).
    rewrite <- Hs in Hready.
    apply (notify_from_reaches_ready (length (envelopes s)) (length (subscribers s)) Hkeep
             (decoded envelope s) j s'); [|exact Hj|exact Hready|exact Hrun2].
    rewrite Henv, envelope_at_new. exact Hty. }
  destruct (Hinv2 (Hi Hinv)) as [(_ & Hc' & _)|(Hp' & Hc' & Hn')]; [lia|].
  split; [exact Hp'|]. split; [exact Hc'|]. apply ready_count_0, Hn'.
Qed.

(** ** Claims about the ready promise *)


(** ** Claims about [submitCommand] and [dispose] *)

(** C4, on the code.  With a process (running, as any process is that a
    transport is handed when it has seen no event), [submitCommand] writes the
    encoded envelope and a newline to its input stream and resolves.  On a transport
    that holds [null] for the process, as every transport does until its
    executor has spawned one, [isNotNull] answers [true]: the write is
    attempted on [null], the runtime throws, and the promise is rejected with
    that [TypeError], not by the bare [reject()] of the other branch. *)
Theorem submitCommand_null_process_rejects_with_TypeError (c : KernelCommand)
    (t : KernelCommandType) (k : string) (heap : list (list string))
    (sink : list string) (p : ChildProcess) :
  submitCommand c t k (set_childProcess (object p) (constructor heap sink)) =
    (Fulfilled tt,
     set_childProcess (object
       {| pid := pid p; spawn_command := spawn_command p; spawn_args := spawn_args p;
          spawn_cwd := spawn_cwd p;
          stdin := stdin p ++
                     [stringify {| token := k; commandType := t; command := c |};
                      newline];
          kill_calls := kill_calls p |}) (constructor heap sink)) ∧
  isNotNull (childProcess (constructor heap sink)) = true ∧
  submitCommand c t k (constructor heap sink) =
    (Rejected (TypeError "Cannot read property 'stdin' of null"), constructor heap sink) ∧
  fst (submitCommand c t k (constructor heap sink)) ≠ Rejected NoReason.
Proof.
  split; [rewrite (submitCommand_object c t k _ p) by reflexivity; reflexivity|].
  split; [reflexivity|].
  rewrite (submitCommand_null c t k (constructor heap sink)) by reflexivity.
  split; [reflexivity | discriminate].
Qed.

(** C5, on the code.  With a process, [dispose] kills it.  On a transport that
    holds [null] for the process, [isNotNull] answers [true], [kill] is called
    on [null], and [dispose] throws a [TypeError]. *)
Theorem dispose_null_process_throws (heap : list (list string)) (sink : list string)
    (p : ChildProcess) :
  dispose (set_childProcess (object p) (constructor heap sink)) =
    (Returned tt,
     set_childProcess (object
       {| pid := pid p; spawn_command := spawn_command p; spawn_args := spawn_args p;
          spawn_cwd := spawn_cwd p; stdin := stdin p;
          kill_calls := S (kill_calls p) |}) (constructor heap sink)) ∧
  dispose (constructor heap sink) =
    (Threw (TypeError "Cannot read property 'kill' of null"), constructor heap sink).
Proof.
  split; [rewrite (dispose_object _ p) by reflexivity; reflexivity|].
  apply dispose_null. reflexivity.
Qed.

(** ** Claims about notification *)

(** A whole pass of [handleLine] over a tidy observer set. *)
Lemma handleLine_tidy (line : string) (envelope : KernelEventEnvelope) (s : Transport) :
  parse line = Some envelope →
  tidy_pass (reverse (subscribers s)) envelope = true →
  ∃ s', handleLine line s = (Returned tt, s') ∧
    notifications s' =
      notifications s ++ ((λ o, (o, length (envelopes s))) <$> reverse (subscribers s)) ∧
    envelopes s' = envelopes s ++ [pass_content (reverse (subscribers s)) envelope] ∧
    (calm_pass (reverse (subscribers s)) envelope = true →
     subscribers s' = subscribers s ∧ readyPromise s' = readyPromise s).
Proof.
  intros Hp Htidy. rewrite (handleLine_decoded _ _ _ Hp).
  destruct (decoded_spec envelope s)
    as (Hs & _ & Hr & _ & Hn & Henv & _).
  destruct (notify_from_tidy (length (envelopes s)) (length (subscribers s))
              (decoded envelope s))
    as (s' & Hrun & Hnote & Henv' & _ & Hcalm).
  { rewrite Hs. lia. }
  { rewrite Henv, length_app. simpl. lia. }
  { rewrite Hs, firstn_all, Henv, envelope_at_new. exact Htidy. }
  rewrite Hs, firstn_all in Hnote, Henv', Hcalm.
  rewrite Henv, envelope_at_new in Henv', Hcalm.
  exists s'. split; [exact Hrun|]. split; [rewrite Hnote, Hn; reflexivity|].
  split; [rewrite Henv'; apply insert_new|].
  intros Hc. destruct (Hcalm Hc) as (Hs' & Hr' & _). split; congruence.
Qed.

Lemma run_subscribe (ids : list nat) (s : Transport) :
  run (Subscribe <$> ids) s =
    set_subscribers (subscribers s ++ (UserObserver <$> ids)) s.
Proof.
  revert s. induction ids as [|id ids IH]; intros s.
  - simpl. rewrite app_nil_r. symmetry. apply set_subscribers_same.
  - rewrite fmap_cons, run_cons, IH. simpl. rewrite <- app_assoc. reflexivity.
Qed.

(** C6, as the code has it.  Register observers [ids], one after the other,
    with a transport that has observers already.  If, in the pass over a
    line, no registered observer modifies the observer set and none throws
    (each on the envelope as the observers called before it left it),
    [handleLine] of that line returns and has called every registered
    observer once, the last registered first and the first registered last:
    as many calls as there are observers.  Each was handed the one new
    envelope decoded from the line, which holds in the end what the
    observers made of it.  The observer set is as before. *)
Theorem handleLine_notifies_every_observer (s : Transport) (ids : list nat)
    (line : string) (envelope : KernelEventEnvelope) :
  parse line = Some envelope →
  calm_pass (reverse (subscribers s ++ (UserObserver <$> ids))) envelope = true →
  ∃ s',
    handleLine line (run (Subscribe <$> ids) s) = (Returned tt, s') ∧
    notifications s' =
      notifications s ++
        ((λ o, (o, length (envelopes s))) <$>
           (reverse (UserObserver <$> ids) ++ reverse (subscribers s))) ∧
    length ((λ o, (o, length (envelopes s))) <$>
              (reverse (UserObserver <$> ids) ++ reverse (subscribers s))) =
      (length (subscribers s) + length ids)%nat ∧
    envelopes s' =
      envelopes s ++
        [pass_content (reverse (subscribers s ++ (UserObserver <$> ids))) envelope] ∧
    subscribers s' = subscribers s ++ (UserObserver <$> ids).
Proof.
  intros Hp Hcalm. rewrite run_subscribe.
  destruct (handleLine_tidy line envelope
              (set_subscribers (subscribers s ++ (UserObserver <$> ids)) s) Hp)
    as (s' & Hrun & Hnote & Henv & Hsame).
  { apply calm_pass_tidy. exact Hcalm. }
  exists s'. split; [exact Hrun|]. simpl in Hnote, Henv, Hsame.
  split; [rewrite Hnote, reverse_app; reflexivity|].
  split.
  { rewrite length_fmap, length_app, !length_reverse, length_fmap. lia. }
  split; [exact Henv|]. apply (Hsame Hcalm).
Qed.

(** An observer that is not registered is not called, and stays unregistered
    while nothing subscribes it. *)
Lemma filter_calls_absent (o : Observer) (e : nat) (os : list Observer) :
  o ∉ os → filter (λ x : Observer * nat, fst x = o) ((λ o', (o', e)) <$> os) = [].
Proof.
  induction os as [|o' os IH]; intros Hnot; [reflexivity|].
  apply not_elem_of_cons in Hnot as [Hne Hnot]. rewrite fmap_cons.
  rewrite filter_cons_False by (simpl; congruence). apply IH, Hnot.
Qed.

Lemma call_keeps_absent (id : nat) (o : Observer) (e : nat) (s : Transport) :
  (∀ id' content, SubscribeObserver id ∉ callback id' content) →
  UserObserver id ∉ subscribers s →
  ∃ r s1, call o e s = (r, s1) ∧ (UserObserver id ∉ subscribers s1) ∧
    notifications s1 = notifications s ++ [(o, e)].
Proof.
  intros Hno Hnot. destruct o as [|id'].
  - destruct (decide (eventType (envelope_at (envelopes s) e) = KernelReadyType))
      as [Hty|Hty].
    + destruct (indexOf_split (subscribers s) ReadySubscriber)
        as [[Hnor _]|(l1 & l2 & Hsub & Hnor & _)].
      * unfold call, readyListener, envelope_read. run_M.
        rewrite decide_True by exact Hty. run_M.
        rewrite (dispose_subscription_absent {| observer := ReadySubscriber |})
          by exact Hnor.
        unfold resolve. run_M. eexists _, _. split; [reflexivity|]. simpl.
        split; [exact Hnot | reflexivity].
      * rewrite (call_ready_spec _ _ _ _ Hty Hsub Hnor).
        eexists _, _. split; [reflexivity|]. simpl. split; [|reflexivity].
        rewrite Hsub in Hnot. apply not_elem_of_app in Hnot as [Hn1 Hn2].
        apply not_elem_of_cons in Hn2 as [_ Hn2].
        apply not_elem_of_app. split; assumption.
    + rewrite (call_ready_quiet _ _ Hty). eexists _, _. split; [reflexivity|].
      simpl. split; [exact Hnot | reflexivity].
  - destruct (call_user_spec id' e s) as (r & l & h & Hrun & _ & _ & _ & _ & Hin).
    rewrite Hrun. eexists _, _. split; [reflexivity|]. simpl. split; [|reflexivity].
    intros Hl. destruct (Hin _ Hl) as [Hold|(id'' & Hsub & Heq)]; [contradiction|].
    injection Heq as <-. exact (Hno _ _ Hsub).
Qed.

Lemma notify_from_keeps_absent (id : nat) (e : nat) (n : nat) (s : Transport) :
  (∀ id' content, SubscribeObserver id ∉ callback id' content) →
  UserObserver id ∉ subscribers s →
  (UserObserver id ∉ subscribers (snd (notify_from n e s))) ∧
  calls_of (UserObserver id) (snd (notify_from n e s)) = calls_of (UserObserver id) s.
Proof.
  intros Hno. revert s. induction n as [|i IH]; intros s Hnot; [split; [exact Hnot|reflexivity]|].
  rewrite notify_from_S. destruct (subscribers s !! i) as [o|] eqn:Ho.
  - rewrite (call_subscriber_Some _ _ _ _ Ho).
    destruct (call_keeps_absent id o e s Hno Hnot) as (r1 & s1 & Hcall & Hnot1 & Hnote1).
    rewrite Hcall.
    assert (calls_of (UserObserver id) s1 = calls_of (UserObserver id) s) as Hcalls1.
    { unfold calls_of. rewrite Hnote1, filter_app.
      rewrite filter_cons_False, filter_nil, app_nil_r; [reflexivity|].
      simpl. intros ->. apply Hnot. apply list_elem_of_lookup. exists i. exact Ho. }
    destruct r1 as [[]|x|]; [|split; assumption..].
    destruct (IH s1 Hnot1) as [Hnot' Hcalls']. split; [exact Hnot' | congruence].
  - rewrite (call_subscriber_None _ _ _ Ho). split; [exact Hnot | reflexivity].
Qed.

Lemma handleLine_keeps_absent (id : nat) (line : string) (s : Transport) :
  (∀ id' content, SubscribeObserver id ∉ callback id' content) →
  UserObserver id ∉ subscribers s →
  (UserObserver id ∉ subscribers (snd (handleLine line s))) ∧
  calls_of (UserObserver id) (snd (handleLine line s)) = calls_of (UserObserver id) s.
Proof.
  intros Hno Hnot. destruct (parse line) as [envelope|] eqn:Hp.
  - rewrite (handleLine_decoded _ _ _ Hp).
    destruct (decoded_spec envelope s) as (Hs & _ & _ & _ & Hn & _).
    destruct (notify_from_keeps_absent id (length (envelopes s)) (length (subscribers s))
                (decoded envelope s) Hno) as [Hnot' Hcalls'].
    { rewrite Hs. exact Hnot. }
    split; [exact Hnot'|]. rewrite Hcalls'. unfold calls_of. rewrite Hn. reflexivity.
  - rewrite (handleLine_malformed _ _ Hp). split; [exact Hnot | reflexivity].
Qed.

Lemma step_keeps_absent (id : nat) (ev : Event) (s : Transport) :
  (∀ id' content, SubscribeObserver id ∉ callback id' content) →
  ev ≠ Subscribe id →
  UserObserver id ∉ subscribers s →
  (UserObserver id ∉ subscribers (step s ev)) ∧
  calls_of (UserObserver id) (step s ev) = calls_of (UserObserver id) s.
Proof.
  intros Hno Hev Hnot. destruct ev as [id'|id'|line|c t k|]; simpl.
  - split; [|reflexivity]. apply not_elem_of_app. split; [exact Hnot|].
    apply not_elem_of_cons. split; [congruence | apply not_elem_of_nil].
  - destruct (dispose_user_spec id' s) as (l & Hrun & _ & Hin). rewrite Hrun. simpl.
    split; [|reflexivity]. intros Hl. apply Hnot, Hin, Hl.
  - destruct (childProcess s); try (split; [exact Hnot | reflexivity]).
    apply handleLine_keeps_absent; assumption.
  - destruct (submitCommand_state c t k s) as [->|(p & p' & _ & ->)];
      (split; [exact Hnot | reflexivity]).
  - destruct (dispose_state s) as [->|(p & p' & _ & ->)];
      (split; [exact Hnot | reflexivity]).
Qed.

Lemma run_keeps_absent (id : nat) (evs : list Event) (s : Transport) :
  (∀ id' content, SubscribeObserver id ∉ callback id' content) →
  Subscribe id ∉ evs →
  UserObserver id ∉ subscribers s →
  (UserObserver id ∉ subscribers (run evs s)) ∧
  calls_of (UserObserver id) (run evs s) = calls_of (UserObserver id) s.
Proof.
  intros Hno. revert s. induction evs as [|ev evs IH]; intros s Hevs Hnot;
    [split; [exact Hnot | reflexivity]|].
  apply not_elem_of_cons in Hevs as [Hev Hevs]. rewrite run_cons.
  destruct (step_keeps_absent id ev s Hno) as [Hnot1 Hcalls1]; [congruence|exact Hnot|].
  destruct (IH (step s ev) Hevs Hnot1) as [Hnot' Hcalls'].
  split; [exact Hnot' | congruence].
Qed.

(** C7, as the code has it.  An observer that is registered once and whose
    body disposes its own handle, called at its entry of the loop, causes no
    exception, whatever the other observers do: its call returns and has
    removed exactly the entry the loop is at, so the loop goes on as it would
    on the set without that entry, and the entries it has still to visit are
    where they were.  After the call the observer is not registered, and
    disposing its handle again changes nothing.  For the rest of the pass and
    through any later events it is not called again and stays unregistered,
    as long as nothing subscribes it again. *)
Theorem self_disposing_observer_is_dropped (s : Transport) (id : nat) (e : nat)
    (pre post : list Observer) :
  subscribers s = pre ++ UserObserver id :: post →
  UserObserver id ∉ pre →
  UserObserver id ∉ post →
  callback id (envelope_at (envelopes s) e) = [DisposeHandle id] →
  let s1 := set_subscribers (pre ++ post)
              (set_notifications (notifications s ++ [(UserObserver id, e)]) s) in
  call_subscriber (length pre) e s = (Returned tt, s1) ∧
  notify_from (S (length pre)) e s = notify_from (length pre) e s1 ∧
  (∀ j, (j < length pre)%nat → subscribers s1 !! j = subscribers s !! j) ∧
  (UserObserver id ∉ subscribers s1) ∧
  dispose_subscription {| observer := UserObserver id |} s1 = (Returned tt, s1) ∧
  ((∀ id' content, SubscribeObserver id ∉ callback id' content) →
   ∀ evs, Subscribe id ∉ evs →
     (UserObserver id ∉ subscribers (run evs (snd (notify_from (length pre) e s1)))) ∧
     calls_of (UserObserver id) (run evs (snd (notify_from (length pre) e s1))) =
       calls_of (UserObserver id) s1).
Proof.
  intros Hsub Hpre Hpost Hbody s1.
  assert (call_subscriber (length pre) e s = (Returned tt, s1)) as Hcall.
  { rewrite (call_subscriber_Some _ (UserObserver id))
      by (rewrite Hsub; apply list_lookup_middle; reflexivity).
    unfold call, envelope_read. run_M. rewrite Hbody. simpl. run_M.
    rewrite (dispose_subscription_first {| observer := UserObserver id |} _ pre post);
      [reflexivity|exact Hsub|exact Hpre]. }
  assert (UserObserver id ∉ subscribers s1) as Hgone.
  { simpl. apply not_elem_of_app. split; assumption. }
  split; [exact Hcall|].
  split; [rewrite notify_from_S, Hcall; reflexivity|].
  split.
  { intros j Hj. simpl. rewrite Hsub, !lookup_app_l by exact Hj. reflexivity. }
  split; [exact Hgone|].
  split; [apply dispose_subscription_absent; exact Hgone|].
  intros Hno evs Hevs.
  destruct (notify_from_keeps_absent id e (length pre) s1 Hno Hgone) as [Hnot2 Hcalls2].
  destruct (run_keeps_absent id evs _ Hno Hevs Hnot2) as [Hnot3 Hcalls3].
  split; [exact Hnot3 | congruence].
Qed.

(** C8, as the code has it.  A line that decodes to an envelope with the
    diagnostic discriminant appends the envelope's message to the sink, once
    and as it is, however the pass over the observers ends; and if in that
    pass no observer throws and none modifies the observer set other than by
    disposing its own handle, being registered once, the pass returns and
    has called every registered observer once with the envelope. *)
Theorem diagnostic_entry_logged_and_delivered (s : Transport) (line : string)
    (envelope : KernelEventEnvelope) :
  parse line = Some envelope →
  eventType envelope = DiagnosticLogEntryProducedType →
  diagnosticChannel (snd (handleLine line s)) =
    diagnosticChannel s ++ [message (event envelope)] ∧
  (tidy_pass (reverse (subscribers s)) envelope = true →
   ∃ s', handleLine line s = (Returned tt, s') ∧
     notifications s' =
       notifications s ++
         ((λ o, (o, length (envelopes s))) <$> reverse (subscribers s)) ∧
     envelopes s' = envelopes s ++ [pass_content (reverse (subscribers s)) envelope]).
Proof.
  intros Hp Hty. split.
  - rewrite (handleLine_decoded _ _ _ Hp).
    destruct (decoded_spec envelope s) as (_ & _ & _ & _ & _ & _ & _ & _ & _ & Hd0 & _).
    rewrite decide_True in Hd0 by exact Hty.
    destruct (notify_from_spec (length (envelopes s)) (length (subscribers s))
                (decoded envelope s))
      as (o & s' & Hrun & (_ & _ & Hd & _) & _).
    rewrite Hrun. simpl. congruence.
  - intros Htidy.
    destruct (handleLine_tidy line envelope s Hp Htidy) as (s' & Hrun & Hnote & Henv & _).
    exists s'. split; [exact Hrun|]. split; assumption.
Qed.

(** ** The port allocator *)

Lemma probe_step_settled (st : Probe) (ev : ServerEvent) :
  settled st ≠ Pending → settled (probe_step st ev) = settled st.
Proof.
  intros Hset. destruct ev as [q| |e]; simpl.
  - destruct (on_listening st); reflexivity.
  - destruct (on_close st); [|reflexivity].
    destruct (port_seen st); simpl; destruct (settled st); congruence.
  - destruct (on_error st); [|reflexivity].
    simpl. destruct (settled st); congruence.
Qed.

Lemma probe_run_settled (evs : list ServerEvent) (st : Probe) :
  settled st ≠ Pending → settled (fold_left probe_step evs st) = settled st.
Proof.
  revert st. induction evs as [|ev evs IH]; intros st Hset; [reflexivity|].
  simpl. rewrite IH; rewrite probe_step_settled by exact Hset; [reflexivity | exact Hset].
Qed.

(** Once the first [listening] event has stored its port, further
    [listening] events find no handler. *)
Lemma probe_run_listening (mid : list ServerEvent) (st : Probe) :
  Forall (λ ev, ∃ q, ev = listening q) mid →
  on_listening st = false →
  fold_left probe_step mid st = st.
Proof.
  intros Hmid Hoff. induction Hmid as [|ev mid [q ->] _ IH]; [reflexivity|].
  simpl. rewrite Hoff. exact IH.
Qed.

Lemma server_events_split (evs : list ServerEvent) :
  Forall (λ ev, ∃ q, ev = listening q) evs ∨
  ∃ mid x post, evs = mid ++ x :: post ∧
    Forall (λ ev, ∃ q, ev = listening q) mid ∧ (x = close ∨ ∃ e, x = error e).
Proof.
  induction evs as [|ev evs IH].
  - left. constructor.
  - destruct ev as [q| |e].
    + destruct IH as [Hall|(mid & x & post & -> & Hmid & Hx)].
      * left. constructor; [exists q; reflexivity | exact Hall].
      * right. exists (listening q :: mid), x, post. split; [reflexivity|].
        split; [constructor; [exists q; reflexivity | exact Hmid] | exact Hx].
    + right. exists [], close, evs. split; [reflexivity|].
      split; [constructor | left; reflexivity].
    + right. exists [], (error e), evs. split; [reflexivity|].
      split; [constructor | right; exists e; reflexivity].
Qed.

(** What [findFreePort] answers, by the first event that is not [listening]. *)
Lemma findFreePort_outcome (mid post : list ServerEvent) :
  Forall (λ ev, ∃ q, ev = listening q) mid →
  findFreePort mid = Pending ∧
  findFreePort (mid ++ close :: post) =
    match mid with
    | listening p :: _ => Fulfilled p
    | _ => Rejected (Text "Can't get port")
    end ∧
  ∀ e, findFreePort (mid ++ error e :: post) = Rejected (SocketError e).
Proof.
  intros Hmid. unfold findFreePort.
  destruct Hmid as [|ev mid [p ->] Hmid].
  - split; [reflexivity|]. split; [|intros e]; simpl;
      rewrite probe_run_settled by (unfold settle; simpl; discriminate); reflexivity.
  - simpl. split; [rewrite (probe_run_listening mid _ Hmid) by reflexivity; reflexivity|].
    split; [|intros e]; rewrite fold_left_app;
      rewrite (probe_run_listening mid _ Hmid) by reflexivity; simpl;
      rewrite probe_run_settled by (unfold settle; simpl; discriminate); reflexivity.
Qed.

(** X1. [findFreePort] resolves with [p] exactly when the server's first
    event is [listening] with port [p] and the first event after it that is
    not [listening] is [close]: the port is the one of the first [listening]
    event, and nothing after that [close] matters. *)
Theorem findFreePort_fulfilled_iff (evs : list ServerEvent) (p : Z) :
  findFreePort evs = Fulfilled p ↔
  ∃ mid post, evs = listening p :: mid ++ close :: post ∧
    Forall (λ ev, ∃ q, ev = listening q) mid.
Proof.
  split.
  - intros Hful.
    destruct (server_events_split evs) as [Hall|(mid & x & post & -> & Hmid & Hx)].
    + destruct (findFreePort_outcome evs [] Hall) as (Hpend & _). congruence.
    + destruct (findFreePort_outcome mid post Hmid) as (_ & Hclose & Herror).
      destruct Hx as [->|[e ->]]; [|rewrite Herror in Hful; discriminate].
      rewrite Hclose in Hful.
      destruct mid as [|[q| |e] mid']; try discriminate.
      injection Hful as ->. exists mid', post. split; [reflexivity|].
      inversion Hmid; assumption.
  - intros (mid & post & -> & Hmid).
    assert (Forall (λ ev, ∃ q, ev = listening q) (listening p :: mid)) as Hall
      by (constructor; [exists p; reflexivity | exact Hmid]).
    destruct (findFreePort_outcome _ post Hall) as (_ & Hclose & _). exact Hclose.
Qed.

(** X2. [findFreePort] stays pending exactly when the server has emitted
    neither [close] nor [error]. *)
Theorem findFreePort_pending_iff (evs : list ServerEvent) :
  findFreePort evs = Pending ↔ (close ∉ evs) ∧ ∀ e, error e ∉ evs.
Proof.
  split.
  - intros Hpend.
    destruct (server_events_split evs) as [Hall|(mid & x & post & -> & Hmid & Hx)].
    + rewrite Forall_forall in Hall. split; [|intros e]; intros Hin;
        destruct (Hall _ Hin) as [q Hq]; discriminate.
    + destruct (findFreePort_outcome mid post Hmid) as (_ & Hclose & Herror).
      destruct Hx as [->|[e ->]].
      * rewrite Hclose in Hpend. destruct mid as [|[] ?]; discriminate.
      * rewrite Herror in Hpend. discriminate.
  - intros [Hclose Herror].
    assert (Forall (λ ev, ∃ q, ev = listening q) evs) as Hall.
    { apply Forall_forall. intros [q| |e] Hin;
        [exists q; reflexivity | contradiction | destruct (Herror e Hin)]. }
    destruct (findFreePort_outcome evs [] Hall) as (Hpend & _). exact Hpend.
Qed.

(** X3. [findFreePort] rejects in two ways and no other: with the text
    "Can't get port" when [close] is the server's first event, and with the
    server's error when an [error] event comes before any [close]. *)
Theorem findFreePort_rejected_iff (evs : list ServerEvent) (r : Reason) :
  findFreePort evs = Rejected r ↔
  (∃ post, evs = close :: post ∧ r = Text "Can't get port") ∨
  (∃ mid e post, evs = mid ++ error e :: post ∧
     Forall (λ ev, ∃ q, ev = listening q) mid ∧ r = SocketError e).
Proof.
  split.
  - intros Hrej.
    destruct (server_events_split evs) as [Hall|(mid & x & post & -> & Hmid & Hx)].
    + destruct (findFreePort_outcome evs [] Hall) as (Hpend & _). congruence.
    + destruct (findFreePort_outcome mid post Hmid) as (_ & Hclose & Herror).
      destruct Hx as [->|[e ->]].
      * rewrite Hclose in Hrej. left.
        destruct mid as [|[q| |e] mid']; try discriminate.
        -- injection Hrej as <-. exists post. split; reflexivity.
        -- inversion Hmid as [|? ? [q Hq] _]. discriminate.
        -- inversion Hmid as [|? ? [q Hq] _]. discriminate.
      * rewrite Herror in Hrej. injection Hrej as <-. right.
        exists mid, e, post. repeat split. exact Hmid.
  - intros [(post & -> & ->)|(mid & e & post & -> & Hmid & ->)].
    + destruct (findFreePort_outcome [] post) as (_ & Hclose & _); [constructor|].
      exact Hclose.
    + destruct (findFreePort_outcome mid post Hmid) as (_ & _ & Herror). apply Herror.
Qed.

(** X4. The promise of [findFreePort] settles once: when it has settled after
    some events, no further event of the server changes it. *)
Theorem findFreePort_settles_once (evs more : list ServerEvent) :
  findFreePort evs ≠ Pending →
  findFreePort (evs ++ more) = findFreePort evs.
Proof.
  intros Hset. unfold findFreePort in *. rewrite fold_left_app.
  apply probe_run_settled. exact Hset.
Qed.

(** ** More about subscriptions and passes *)

(** X5. Disposing a subscription handle never throws.  It removes the first
    registration of the handle's observer, leaving every other entry in place
    and in order, and changes nothing else of the transport; when the
    observer is not registered it changes nothing at all. *)
Theorem dispose_subscription_removes_first (h : DisposableSubscription) (s : Transport) :
  ((observer h ∉ subscribers s) ∧ dispose_subscription h s = (Returned tt, s)) ∨
  ∃ l1 l2, subscribers s = l1 ++ observer h :: l2 ∧ (observer h ∉ l1) ∧
    dispose_subscription h s = (Returned tt, set_subscribers (l1 ++ l2) s).
Proof.
  destruct (indexOf_split (subscribers s) (observer h))
    as [[Hnot _]|(l1 & l2 & Hsub & Hnot & _)].
  - left. split; [exact Hnot | apply dispose_subscription_absent, Hnot].
  - right. exists l1, l2. split; [exact Hsub|]. split; [exact Hnot|].
    apply dispose_subscription_first; assumption.
Qed.

(** X6. Subscribing an observer that is not registered and disposing the
    handle that comes back gives the transport as it was. *)
Theorem subscribe_then_dispose (o : Observer) (s : Transport) :
  o ∉ subscribers s →
  (h ← subscribeToKernelEvents o; dispose_subscription h) s = (Returned tt, s).
Proof.
  intros Hnot. unfold subscribeToKernelEvents. run_M.
  rewrite (dispose_subscription_first {| observer := o |} _ (subscribers s) []);
    [|reflexivity|exact Hnot].
  simpl. rewrite app_nil_r. f_equal. exact (set_subscribers_same s).
Qed.

(** X7. Subscribing an observer that is registered already and disposing the
    handle that comes back does not undo the subscription: the earlier
    registration is the one removed, and the observer ends up last. *)
Theorem subscribe_again_then_dispose (o : Observer) (s : Transport)
    (l1 l2 : list Observer) :
  subscribers s = l1 ++ o :: l2 →
  o ∉ l1 →
  (h ← subscribeToKernelEvents o; dispose_subscription h) s =
    (Returned tt, set_subscribers (l1 ++ l2 ++ [o]) s).
Proof.
  intros Hsub Hnot. unfold subscribeToKernelEvents. run_M.
  rewrite (dispose_subscription_first {| observer := o |} _ l1 (l2 ++ [o]));
    [reflexivity| |exact Hnot].
  simpl. rewrite Hsub, <- app_assoc. reflexivity.
Qed.

(** A pass from index [n] down calls at most [n] observers, each with the
    envelope; it ends by returning, after exactly [n] calls, by calling a
    missing entry, or by what the observer called last threw. *)
Lemma notify_from_calls (e : nat) (n : nat) (s : Transport) :
  ∃ r s' os, notify_from n e s = (r, s') ∧
    notifications s' = notifications s ++ ((λ o, (o, e)) <$> os) ∧
    ((r = Returned tt ∧ length os = n) ∨
     (r = Threw (TypeError "this.subscribers[i] is not a function") ∧
      (length os < n)%nat) ∨
     (∃ x id content, r = Threw x ∧ Throw x ∈ callback id content ∧
        last os = Some (UserObserver id) ∧ (length os ≤ n)%nat)).
Proof.
  revert s. induction n as [|i IH]; intros s.
  - exists (Returned tt), s, []. split; [reflexivity|]. simpl. rewrite app_nil_r.
    split; [reflexivity|]. left. split; reflexivity.
  - rewrite notify_from_S. destruct (subscribers s !! i) as [o|] eqn:Ho.
    + rewrite (call_subscriber_Some _ _ _ _ Ho).
      destruct (call_spec o e s) as (r1 & s1 & Hcall & _ & _ & _ & Hn1 & _ & Ho1).
      { apply list_elem_of_lookup. exists i. exact Ho. }
      rewrite Hcall.
      assert (r1 = Returned tt ∨
              ∃ x id content, o = UserObserver id ∧ Throw x ∈ callback id content ∧
                r1 = Threw x) as [->|(x & id & content & -> & Hx & ->)].
      { destruct o as [|id]; [left; tauto|].
        destruct Ho1 as (_ & _ & [->|(x & Hx & ->)] & _); [left; reflexivity|].
        right. exists x, id, (envelope_at (envelopes s) e). tauto. }
      * destruct (IH s1) as (r & s' & os & Hrun & Hn & Hend).
        exists r, s', (o :: os). split; [exact Hrun|].
        split; [rewrite Hn, Hn1, <- app_assoc; reflexivity|].
        destruct Hend as [[-> Hlen]|[[-> Hlen]|(x & id & content & -> & Hx & Hlast & Hlen)]].
        -- left. split; [reflexivity | simpl; lia].
        -- right. left. split; [reflexivity | simpl; lia].
        -- right. right. exists x, id, content. split; [reflexivity|]. split; [exact Hx|].
           split; [|simpl; lia]. destruct os as [|o' os]; [discriminate | exact Hlast].
      * exists (Threw x), s1, [UserObserver id]. split; [reflexivity|].
        split; [exact Hn1|]. right. right. exists x, id, content.
        split; [reflexivity|]. split; [exact Hx|]. split; [reflexivity | simpl; lia].
    + rewrite (call_subscriber_None _ _ _ Ho).
      eexists _, s, []. split; [reflexivity|]. simpl. rewrite app_nil_r.
      split; [reflexivity|]. right. left. split; [reflexivity | lia].
Qed.

(** X8. Whatever the observers do while they are called, [handleLine] of a
    line that decodes makes at most as many calls as there were observers
    when it started, each with the one envelope decoded from the line; it
    ends by returning, after exactly that many calls, by the [TypeError] of
    calling an entry that is no longer there, or by the exception that the
    observer called last threw, which nothing catches. *)
Theorem handleLine_calls_at_most_each_entry (line : string)
    (envelope : KernelEventEnvelope) (s : Transport) :
  parse line = Some envelope →
  ∃ r s' os, handleLine line s = (r, s') ∧
    notifications s' =
      notifications s ++ ((λ o, (o, length (envelopes s))) <$> os) ∧
    ((r = Returned tt ∧ length os = length (subscribers s)) ∨
     (r = Threw (TypeError "this.subscribers[i] is not a function") ∧
      (length os < length (subscribers s))%nat) ∨
     (∃ x id content, r = Threw x ∧ Throw x ∈ callback id content ∧
        last os = Some (UserObserver id) ∧ (length os ≤ length (subscribers s))%nat)).
Proof.
  intros Hp. rewrite (handleLine_decoded _ _ _ Hp).
  destruct (decoded_spec envelope s) as (_ & _ & _ & _ & Hn & _).
  destruct (notify_from_calls (length (envelopes s)) (length (subscribers s))
              (decoded envelope s))
    as (r & s' & os & Hrun & Hnote & Hend).
  exists r, s', os. split; [exact Hrun|]. rewrite <- Hn. split; [exact Hnote | exact Hend].
Qed.

(** X9. [handleLine] writes to the sink for a diagnostic envelope only: a
    line that does not decode throws a [SyntaxError] and leaves the transport
    as it is, and an envelope with any other discriminant leaves the sink as
    it is, however the pass over the observers ends. *)
Theorem handleLine_sink (line : string) (s : Transport) :
  match parse line with
  | None => handleLine line s = (Threw (SyntaxError line), s)
  | Some envelope =>
      diagnosticChannel (snd (handleLine line s)) =
        diagnosticChannel s ++
          (if decide (eventType envelope = DiagnosticLogEntryProducedType)
           then [message (event envelope)] else [])
  end.
Proof.
  destruct (parse line) as [envelope|] eqn:Hp; [|apply handleLine_malformed, Hp].
  rewrite (handleLine_decoded _ _ _ Hp).
  destruct (decoded_spec envelope s) as (_ & _ & _ & _ & _ & _ & _ & _ & _ & Hd0 & _).
  destruct (notify_from_spec (length (envelopes s)) (length (subscribers s))
              (decoded envelope s))
    as (r & s' & -> & (_ & _ & Hd & _) & _).
  simpl. congruence.
Qed.

(** ** What events leave alone *)

Lemma process_continues_refl (p : ChildProcess) : process_continues p p.
Proof.
  split; [reflexivity|]. split; [reflexivity|]. split; [reflexivity|].
  split; [reflexivity|]. split; [reflexivity | lia].
Qed.

Lemma process_continues_trans (p1 p2 p3 : ChildProcess) :
  process_continues p1 p2 → process_continues p2 p3 → process_continues p1 p3.
Proof.
  intros (H1 & H2 & H3 & H4 & H5 & H6) (K1 & K2 & K3 & K4 & K5 & K6).
  split; [congruence|]. split; [congruence|]. split; [congruence|].
  split; [congruence|]. split; [etrans; eassumption | lia].
Qed.

Lemma evolves_refl (s : Transport) : evolves s s.
Proof.
  split; [reflexivity|]. split; [reflexivity|]. split; [reflexivity|].
  destruct (childProcess s) as [| |p]; try reflexivity.
  exists p. split; [reflexivity | apply process_continues_refl].
Qed.

Lemma evolves_trans (s1 s2 s3 : Transport) :
  evolves s1 s2 → evolves s2 s3 → evolves s1 s3.
Proof.
  intros (H1 & H2 & H3 & H4) (K1 & K2 & K3 & K4).
  split; [congruence|]. split; [congruence|]. split; [etrans; eassumption|].
  destruct (childProcess s1) as [| |p1].
  - rewrite H4 in K4. exact K4.
  - rewrite H4 in K4. exact K4.
  - destruct H4 as (p2 & Hc2 & Hp2). rewrite Hc2 in K4.
    destruct K4 as (p3 & Hc3 & Hp3). exists p3.
    split; [exact Hc3 | exact (process_continues_trans _ _ _ Hp2 Hp3)].
Qed.

Lemma evolves_subscribers (l : list Observer) (s : Transport) :
  evolves s (set_subscribers l s).
Proof. exact (evolves_refl s). Qed.

Lemma evolves_sink (line : string) (s : Transport) :
  evolves s (set_diagnosticChannel (diagnosticChannel s ++ [line]) s).
Proof.
  split; [reflexivity|]. split; [reflexivity|].
  split; [apply prefix_app_r; reflexivity|]. simpl.
  destruct (childProcess s) as [| |p]; try reflexivity.
  exists p. split; [reflexivity | apply process_continues_refl].
Qed.

Lemma evolves_of (s s' : Transport) :
  httpPort s' = httpPort s → arrays s' = arrays s →
  diagnosticChannel s `prefix_of` diagnosticChannel s' →
  childProcess s' = childProcess s →
  evolves s s'.
Proof.
  intros Hh Ha Hd Hc. split; [exact Hh|]. split; [exact Ha|]. split; [exact Hd|].
  rewrite Hc. destruct (childProcess s) as [| |p]; try reflexivity.
  exists p. split; [reflexivity | apply process_continues_refl].
Qed.

Lemma handleLine_evolves (line : string) (s : Transport) :
  evolves s (snd (handleLine line s)).
Proof.
  destruct (parse line) as [envelope|] eqn:Hp.
  - rewrite (handleLine_decoded _ _ _ Hp).
    destruct (decoded_spec envelope s)
      as (_ & Hc0 & _ & _ & _ & _ & Hh0 & Ha0 & _ & Hd0 & _).
    destruct (notify_from_spec (length (envelopes s)) (length (subscribers s))
                (decoded envelope s))
      as (r & s' & -> & (Hc & Hh & Hd & Ha & _) & _).
    simpl. apply evolves_of; [congruence|congruence| |congruence].
    rewrite Hd, Hd0. apply prefix_app_r. reflexivity.
  - rewrite (handleLine_malformed _ _ Hp). apply evolves_refl.
Qed.

Lemma step_evolves (s : Transport) (ev : Event) : evolves s (step s ev).
Proof.
  pose proof (step_subscription s ev) as Hsub.
  destruct ev as [id|id|line|c t k|].
  - destruct Hsub as (l & -> & _). apply evolves_subscribers.
  - destruct Hsub as (l & -> & _). apply evolves_subscribers.
  - simpl. destruct (childProcess s); try apply evolves_refl. apply handleLine_evolves.
  - simpl. destruct (childProcess s) as [| |p] eqn:Hc.
    + rewrite (submitCommand_null _ _ _ _ Hc). apply evolves_refl.
    + rewrite (submitCommand_undefined _ _ _ _ Hc). apply evolves_refl.
    + destruct (exited s) eqn:Hx.
      { rewrite (submitCommand_exited _ _ _ _ _ Hc Hx). apply evolves_refl. }
      rewrite (submitCommand_object _ _ _ _ _ Hc Hx).
      split; [reflexivity|]. split; [reflexivity|]. split; [reflexivity|].
      rewrite Hc. eexists. split; [reflexivity|].
      split; [reflexivity|]. split; [reflexivity|]. split; [reflexivity|].
      split; [reflexivity|]. split; [apply prefix_app_r; reflexivity | simpl; lia].
  - simpl. destruct (childProcess s) as [| |p] eqn:Hc.
    + rewrite (dispose_null _ Hc). apply evolves_refl.
    + rewrite (dispose_undefined _ Hc). apply evolves_refl.
    + rewrite (dispose_object _ _ Hc).
      split; [reflexivity|]. split; [reflexivity|]. split; [reflexivity|].
      rewrite Hc. eexists. split; [reflexivity|].
      split; [reflexivity|]. split; [reflexivity|]. split; [reflexivity|].
      split; [reflexivity|]. split; [reflexivity | simpl; lia].
Qed.

Lemma host_step_evolves (s : Transport) (ev : HostEvent) : evolves s (host_step s ev).
Proof.
  destruct ev as [ev|code signal|data]; simpl.
  - apply step_evolves.
  - destruct (childProcess s) eqn:Hc; try apply evolves_refl.
    apply evolves_of; simpl; try reflexivity. apply prefix_app_r. reflexivity.
  - destruct (childProcess s); try apply evolves_refl. apply evolves_sink.
Qed.

Lemma host_run_evolves (evs : list HostEvent) (s : Transport) :
  evolves s (host_run evs s).
Proof.
  revert s. induction evs as [|ev evs IH]; intros s; [apply evolves_refl|].
  exact (evolves_trans _ _ _ (host_step_evolves s ev) (IH (host_step s ev))).
Qed.

Lemma run_as_host_run (evs : list Event) (s : Transport) :
  run evs s = host_run (Api <$> evs) s.
Proof.
  revert s. induction evs as [|ev evs IH]; intros s; [reflexivity|].
  rewrite fmap_cons. simpl. apply IH.
Qed.

(** X10. No event changes [httpPort] or any array of arguments: whatever is
    subscribed, disposed, submitted, read from the process or reported by it,
    the port the transport shows and the arrays it was given stay as the
    executor left them. *)
Theorem events_keep_port_and_arrays (evs : list HostEvent) (s : Transport) :
  httpPort (host_run evs s) = httpPort s ∧ arrays (host_run evs s) = arrays s.
Proof. destruct (host_run_evolves evs s) as (Hh & Ha & _). split; assumption. Qed.

(** X11. The diagnostic sink is only ever appended to: after any events, the
    lines that were in it are still there, in order, at its beginning. *)
Theorem events_append_to_sink (evs : list HostEvent) (s : Transport) :
  diagnosticChannel s `prefix_of` diagnosticChannel (host_run evs s).
Proof. destruct (host_run_evolves evs s) as (_ & _ & Hd & _). exact Hd. Qed.

(** X12. Once the transport holds a process, it holds it for good: no event,
    neither [dispose] nor the exit of the process, clears the handle or
    replaces the process; what was written to its input stream stays, in
    order, and it is killed at least as often as before. *)
Theorem events_keep_process (evs : list HostEvent) (s : Transport) (p : ChildProcess) :
  childProcess s = object p →
  ∃ p', childProcess (host_run evs s) = object p' ∧ process_continues p p'.
Proof.
  intros Hc. destruct (host_run_evolves evs s) as (_ & _ & _ & Hp).
  rewrite Hc in Hp. exact Hp.
Qed.

(** The process of a transport has exited exactly when the host has
    reported its exit. *)
Lemma host_run_exited (evs : list HostEvent) (s : Transport) (p : ChildProcess) :
  childProcess s = object p →
  exited (host_run evs s) = (exited s || existsb is_exit evs)%bool.
Proof.
  revert s p. induction evs as [|ev evs IH]; intros s p Hc.
  - simpl. rewrite orb_false_r. reflexivity.
  - destruct (host_step_evolves s ev) as (_ & _ & _ & Hp). rewrite Hc in Hp.
    destruct Hp as (p' & Hc' & _).
    change (host_run (ev :: evs) s) with (host_run evs (host_step s ev)).
    rewrite (IH _ _ Hc'). simpl existsb. rewrite orb_assoc. f_equal.
    destruct ev as [ev|code signal|data]; simpl.
    + destruct (step_spec s ev) as (_ & -> & _). rewrite orb_false_r. reflexivity.
    + rewrite Hc. simpl. rewrite orb_true_r. reflexivity.
    + rewrite Hc. simpl. rewrite orb_false_r. reflexivity.
Qed.

(** X13. [submitCommand] checks that a handle exists, not that the process
    lives.  On a transport that holds a running process, after any events
    that do not include the exit of the process ([dispose] among them, which
    only signals it), it puts the encoded envelope and a newline after what
    was written before and resolves.  Once the process has exited the handle
    is still held, so the write is attempted, throws on the destroyed stream,
    and the promise is rejected with that error; nothing is written. *)
Theorem submitCommand_after_events (evs : list HostEvent) (s : Transport)
    (p : ChildProcess) (c : KernelCommand) (t : KernelCommandType) (k : string) :
  childProcess s = object p →
  exited s = false →
  ∃ p',
    childProcess (host_run evs s) = object p' ∧
    submitCommand c t k (host_run evs s) =
      if existsb is_exit evs
      then (Rejected (StreamError "ERR_STREAM_DESTROYED"), host_run evs s)
      else (Fulfilled tt,
            set_childProcess (object
              {| pid := pid p; spawn_command := spawn_command p;
                 spawn_args := spawn_args p; spawn_cwd := spawn_cwd p;
                 stdin := stdin p' ++
                            command_chunks
                              {| token := k; commandType := t; command := c |};
                 kill_calls := kill_calls p' |}) (host_run evs s)).
Proof.
  intros Hc Hx. destruct (host_run_evolves evs s) as (_ & _ & _ & Hp).
  rewrite Hc in Hp. destruct Hp as (p' & Hc' & H1 & H2 & H3 & H4 & _).
  exists p'. split; [exact Hc'|].
  pose proof (host_run_exited evs s p Hc) as Hx'. rewrite Hx in Hx'. simpl in Hx'.
  destruct (existsb is_exit evs).
  - apply (submitCommand_exited _ _ _ _ _ Hc' Hx').
  - rewrite (submitCommand_object _ _ _ _ _ Hc' Hx').
    rewrite H1, H2, H3, H4. reflexivity.
Qed.

(** X14. Commands submitted one after the other to a transport that holds a
    running process are written to its input stream in that order, each as
    its encoded envelope followed by a newline, after what was written
    before; nothing else of the transport changes. *)
Theorem submitted_commands_are_written_in_order (cmds : list CommandEnvelope)
    (s : Transport) (p : ChildProcess) :
  childProcess s = object p →
  exited s = false →
  run ((λ c, SubmitCommand (command c) (commandType c) (token c)) <$> cmds) s =
    set_childProcess (object
      {| pid := pid p; spawn_command := spawn_command p; spawn_args := spawn_args p;
         spawn_cwd := spawn_cwd p;
         stdin := stdin p ++ concat (command_chunks <$> cmds);
         kill_calls := kill_calls p |}) s.
Proof.
  revert s p. induction cmds as [|c cmds IH]; intros s p Hc Hx.
  - simpl. rewrite app_nil_r. destruct s, p. simpl in Hc. subst. reflexivity.
  - rewrite fmap_cons, run_cons. simpl step.
    rewrite (submitCommand_object _ _ _ _ _ Hc Hx). simpl snd.
    erewrite IH; [|reflexivity|exact Hx]. simpl. rewrite <- app_assoc.
    destruct c. reflexivity.
Qed.

Lemma host_step_ready_inv (s : Transport) (ev : HostEvent) :
  ready_inv s → ready_inv (host_step s ev).
Proof.
  intros Hinv. destruct ev as [ev|code signal|data]; simpl.
  - destruct (step_spec s ev) as (_ & _ & _ & Hstep & _). exact (Hstep Hinv).
  - destruct (childProcess s) eqn:Hc; exact Hinv.
  - destruct (childProcess s) eqn:Hc; exact Hinv.
Qed.

Lemma host_run_ready_inv (evs : list HostEvent) (s : Transport) :
  ready_inv s → ready_inv (host_run evs s).
Proof.
  revert s. induction evs as [|ev evs IH]; intros s Hinv; [exact Hinv|].
  apply (IH (host_step s ev)), host_step_ready_inv, Hinv.
Qed.

(** X15. The ready promise is never rejected.  Whatever happens in the life
    of a transport (the port allocation failing, the process exiting,
    [dispose]), [waitForReady] hands out a promise that is pending or
    fulfilled, and leaves the transport as it is. *)
Theorem waitForReady_never_rejected (heap : list (list string)) (sink : list string)
    (processStart : ProcessStart) (before : list Event) (server : list ServerEvent)
    (pid : nat) (after : list HostEvent) :
  let s := host_lifetime heap sink processStart before server pid after in
  waitForReady s = (Returned Pending, s) ∨ waitForReady s = (Returned (Fulfilled tt), s).
Proof.
  intros s. unfold waitForReady, get.
  assert (ready_inv s) as Hinv.
  { apply host_run_ready_inv, executor_spec, run_unstarted. repeat split. }
  destruct Hinv as [(-> & _)|(-> & _)]; [left | right]; reflexivity.
Qed.

Lemma host_step_null (s : Transport) (ev : HostEvent) :
  childProcess s = null → ∃ l, host_step s ev = set_subscribers l s.
Proof.
  intros Hc. assert (s = set_subscribers (subscribers s) s) as Hs
    by (symmetry; apply set_subscribers_same).
  destruct ev as [[id|id|line|c t k|]|code signal|data]; simpl; rewrite ?Hc.
  - eexists. reflexivity.
  - destruct (dispose_user_spec id s) as (l & Hrun & _).
    exists l. rewrite Hrun. reflexivity.
  - exists (subscribers s). exact Hs.
  - rewrite (submitCommand_null _ _ _ _ Hc). exists (subscribers s). exact Hs.
  - rewrite (dispose_null _ Hc). exists (subscribers s). exact Hs.
  - exists (subscribers s). exact Hs.
  - exists (subscribers s). exact Hs.
Qed.

Lemma host_run_null (evs : list HostEvent) (s : Transport) :
  childProcess s = null → ∃ l, host_run evs s = set_subscribers l s.
Proof.
  revert s. induction evs as [|ev evs IH]; intros s Hc.
  - exists (subscribers s). symmetry. apply set_subscribers_same.
  - destruct (host_step_null s ev Hc) as (l & Hstep).
    destruct (IH (host_step s ev)) as (l' & Hrun); [rewrite Hstep; exact Hc|].
    exists l'. simpl. rewrite Hrun, Hstep. reflexivity.
Qed.

Lemma executor_started (processStart : ProcessStart) (server : list ServerEvent)
    (pid : nat) (s s1 : Transport) (newArgs : nat) :
  configureHttpArgs (args processStart) server s = (Returned newArgs, s1) →
  executor processStart server pid s =
    (Returned tt,
     set_subscribers (subscribers s1 ++ [ReadySubscriber])
       (set_diagnosticChannel
          (diagnosticChannel s1 ++ ["Kernel started with pid " +:+ pretty pid +:+ "."])
          (set_childProcess (object
             {| pid := pid; spawn_command := command_path processStart;
                spawn_args := deref (arrays s1) newArgs;
                spawn_cwd := workingDirectory processStart;
                stdin := []; kill_calls := 0 |}) s1))).
Proof.
  intros Hrun. unfold executor, subscribeToKernelEvents. run_M. rewrite Hrun.
  reflexivity.
Qed.

Lemma executor_not_started (processStart : ProcessStart) (server : list ServerEvent)
    (pid : nat) (s s1 : Transport) (r : Outcome nat) :
  configureHttpArgs (args processStart) server s = (r, s1) →
  (∀ newArgs, r ≠ Returned newArgs) →
  snd (executor processStart server pid s) = s1.
Proof.
  intros Hrun Hnot. unfold executor. run_M. rewrite Hrun.
  destruct r as [newArgs| |]; [destruct (Hnot newArgs eq_refl) | reflexivity..].
Qed.

(** X16. When the arguments name no port and the port allocation fails or
    never settles, the transport stays as constructed for good: no process is
    spawned, nothing is logged, no observer is called, [httpPort] stays [0]
    and the ready promise stays pending, whatever is done to the transport
    before and after. *)
Theorem failed_port_allocation_starts_nothing (heap : list (list string))
    (sink : list string) (processStart : ProcessStart) (before : list Event)
    (server : list ServerEvent) (pid : nat) (after : list HostEvent)
    (l : list string) :
  heap !! args processStart = Some l →
  "--http-port" ∉ l →
  (∀ port, findFreePort server ≠ Fulfilled port) →
  let s := host_lifetime heap sink processStart before server pid after in
  childProcess s = null ∧ readyPromise s = Pending ∧ diagnosticChannel s = sink ∧
  notifications s = [] ∧ httpPort s = Int 0.
Proof.
  intros Hl Hnot Hfail s. unfold host_lifetime in s.
  destruct (host_run_null (Api <$> before) (constructor heap sink) eq_refl)
    as (l0 & Hbefore).
  rewrite <- run_as_host_run in Hbefore.
  assert (snd (executor processStart server pid (run before (constructor heap sink)))
          = set_arrays (heap ++ [l]) (set_subscribers l0 (constructor heap sink)))
    as Hexec.
  { rewrite Hbefore. destruct (findFreePort server) as [|port|e] eqn:Hprobe.
    - pose proof (configureHttpArgs_suspended (args processStart) server
                    (set_subscribers l0 (constructor heap sink)) l Hl Hnot Hprobe) as Hcfg.
      apply (executor_not_started _ _ pid _ _ _ Hcfg). intros newArgs. discriminate.
    - destruct (Hfail port eq_refl).
    - pose proof (configureHttpArgs_rejected (args processStart) server
                    (set_subscribers l0 (constructor heap sink)) l e Hl Hnot Hprobe) as Hcfg.
      apply (executor_not_started _ _ pid _ _ _ Hcfg). intros newArgs. discriminate. }
  destruct (host_run_null after
              (snd (executor processStart server pid (run before (constructor heap sink)))))
    as (l1 & Hafter); [rewrite Hexec; reflexivity|].
  subst s. rewrite Hafter, Hexec. repeat split.
Qed.

(** ** From the arguments to the process *)

(** The transport after the executor has negotiated the arguments to
    [newArgs] and spawned the process, and after any events: it holds that
    process, started on the negotiated arguments, and [httpPort] and the
    arrays are as the negotiation left them. *)
Lemma started_lifetime (heap : list (list string)) (sink : list string)
    (processStart : ProcessStart) (before : list Event) (server : list ServerEvent)
    (n : nat) (after : list HostEvent) (newArgs : nat) (s1 : Transport) :
  (∀ l0, ∃ d,
     configureHttpArgs (args processStart) server
       (set_subscribers l0 (constructor heap sink)) =
     (Returned newArgs,
      set_diagnosticChannel d
        (set_arrays (arrays s1) (set_httpPort (httpPort s1)
           (set_subscribers l0 (constructor heap sink)))))) →
  ∃ p, childProcess (host_lifetime heap sink processStart before server n after)
         = object p ∧
    pid p = n ∧ spawn_command p = command_path processStart ∧
    spawn_cwd p = workingDirectory processStart ∧
    spawn_args p = deref (arrays s1) newArgs ∧
    httpPort (host_lifetime heap sink processStart before server n after)
      = httpPort s1 ∧
    arrays (host_lifetime heap sink processStart before server n after) = arrays s1.
Proof.
  intros Hcfg. unfold host_lifetime.
  destruct (host_run_null (Api <$> before) (constructor heap sink) eq_refl)
    as (l0 & Hbefore).
  rewrite <- run_as_host_run in Hbefore. rewrite Hbefore.
  destruct (Hcfg l0) as (d & Hcfg0).
  rewrite (executor_started _ _ n _ _ _ Hcfg0). simpl snd.
  match goal with |- context [host_run after ?st] => set (s2 := st) end.
  destruct (host_run_evolves after s2) as (Hh & Ha & _ & Hp).
  simpl in Hp. destruct Hp as (p & Hc & Hp1 & Hp2 & Hp3 & Hp4 & _).
  exists p. split; [exact Hc|]. split; [exact Hp1|]. split; [exact Hp2|].
  split; [exact Hp4|]. split; [exact Hp3|]. split; [exact Hh | exact Ha].
Qed.

(** X17. When the arguments name neither a port nor a port range and the
    port allocation yields [port], then, whatever is done to the transport
    before and after, the process is spawned once, on the caller's command
    and working directory and on the caller's arguments followed by
    ["--http-port"] and the text of [port]; [httpPort] is that [port]; and
    the caller's array of arguments is as it was. *)
Theorem process_started_on_allocated_port (heap : list (list string))
    (sink : list string) (processStart : ProcessStart) (before : list Event)
    (server : list ServerEvent) (n : nat) (after : list HostEvent)
    (l : list string) (port : Z) :
  heap !! args processStart = Some l →
  "--http-port" ∉ l →
  "--http-port-range" ∉ l →
  findFreePort server = Fulfilled port →
  ∃ p, childProcess (host_lifetime heap sink processStart before server n after)
         = object p ∧
    pid p = n ∧ spawn_command p = command_path processStart ∧
    spawn_cwd p = workingDirectory processStart ∧
    spawn_args p = l ++ ["--http-port"; number_toString (Int port)] ∧
    httpPort (host_lifetime heap sink processStart before server n after)
      = Int port ∧
    arrays (host_lifetime heap sink processStart before server n after)
      !! args processStart = Some l.
Proof.
  intros Hl Hnot Hnor Hprobe.
  destruct (started_lifetime heap sink processStart before server n after
              (length heap)
              (set_arrays (heap ++ [l ++ ["--http-port"; number_toString (Int port)]])
                 (set_httpPort (Int port) (constructor heap sink))))
    as (p & Hc & H1 & H2 & H3 & H4 & H5 & H6).
  { intros l0. exists sink.
    rewrite (configureHttpArgs_appends _ _ _ l port); try assumption; [reflexivity|].
    rewrite (indexOf_absent _ _ Hnor). lia. }
  exists p. split; [exact Hc|]. split; [exact H1|]. split; [exact H2|].
  split; [exact H3|]. split; [rewrite H4; apply deref_new|].
  split; [exact H5|]. rewrite H6. simpl. apply lookup_app_l_Some, Hl.
Qed.

(** X18. When the arguments name a port, the port allocator is not asked:
    whatever the probing server would emit and whatever is done to the
    transport, the process is spawned on the caller's arguments as they are,
    and [httpPort] is [parseInt] of the token after the first
    ["--http-port"]. *)
Theorem process_started_on_explicit_port (heap : list (list string))
    (sink : list string) (processStart : ProcessStart) (before : list Event)
    (server : list ServerEvent) (n : nat) (after : list HostEvent)
    (l1 l2 : list string) :
  heap !! args processStart = Some (l1 ++ "--http-port" :: l2) →
  "--http-port" ∉ l1 →
  ∃ p, childProcess (host_lifetime heap sink processStart before server n after)
         = object p ∧
    pid p = n ∧ spawn_command p = command_path processStart ∧
    spawn_cwd p = workingDirectory processStart ∧
    spawn_args p = l1 ++ "--http-port" :: l2 ∧
    httpPort (host_lifetime heap sink processStart before server n after)
      = parseInt (head l2).
Proof.
  intros Hl Hnot.
  destruct (started_lifetime heap sink processStart before server n after
              (length heap)
              (set_arrays (heap ++ [l1 ++ "--http-port" :: l2])
                 (set_httpPort (parseInt (head l2)) (constructor heap sink))))
    as (p & Hc & H1 & H2 & H3 & H4 & H5 & _).
  { intros l0. exists sink.
    rewrite (configureHttpArgs_explicit _ _ _ l1 l2); try assumption. reflexivity. }
  exists p. split; [exact Hc|]. split; [exact H1|]. split; [exact H2|].
  split; [exact H3|]. split; [rewrite H4; apply deref_new | exact H5].
Qed.

(** X19. At any index but the first, ["--http-port-range"] and the token
    after it are replaced where they stand by ["--http-port"] and the text of
    the allocated port, the arguments before and after keep their places,
    and one line, the deprecation notice, is appended to the sink.  When the
    flag is the last argument there is no token to replace and the list
    grows by one. *)
Theorem configureHttpArgs_replaces_port_range (a : nat) (server : list ServerEvent)
    (s : Transport) (l1 l2 : list string) (port : Z) :
  arrays s !! a = Some (l1 ++ "--http-port-range" :: l2) →
  "--http-port" ∉ l1 ++ "--http-port-range" :: l2 →
  "--http-port-range" ∉ l1 →
  l1 ≠ [] →
  findFreePort server = Fulfilled port →
  ∃ s' l',
    configureHttpArgs a server s = (Returned (length (arrays s)), s') ∧
    arrays s' !! length (arrays s) = Some l' ∧
    l' = l1 ++ "--http-port" :: number_toString (Int port) :: tail l2 ∧
    length l' = (length (l1 ++ "--http-port-range" :: l2)
                 + if decide (l2 = []) then 1 else 0)%nat ∧
    diagnosticChannel s' = diagnosticChannel s ++ [deprecation_notice] ∧
    httpPort s' = Int port.
Proof.
  intros Ha Hnot Hfirst Hne Hprobe.
  eexists _, _. split; [apply (configureHttpArgs_replaces a server s l1 l2 port); assumption|].
  split; [simpl; apply list_lookup_middle; reflexivity|].
  split; [reflexivity|]. split; [|split; reflexivity].
  rewrite !length_app. simpl. destruct l2; simpl; lia.
Qed.

(** X20. Negotiating arguments that [configureHttpArgs] returned changes
    nothing, whichever branch returned them (the port flag was given, the
    pair was appended, the port range was replaced, the port range stood
    first), provided [parseInt] reads the numeral of an allocated port back:
    the second call returns an equal list, leaves the first list as it is,
    records the same port, logs nothing and does not ask the port allocator,
    whatever the probing server would emit. *)
Theorem configureHttpArgs_twice (a : nat) (server server2 : list ServerEvent)
    (s s' : Transport) (l : list string) (newArgs : nat) :
  ("--http-port" ∉ l → ∀ port, findFreePort server = Fulfilled port →
     parseInt (Some (pretty port)) = Int port) →
  arrays s !! a = Some l →
  configureHttpArgs a server s = (Returned newArgs, s') →
  ∃ newArgs2 s'' l',
    configureHttpArgs newArgs server2 s' = (Returned newArgs2, s'') ∧
    arrays s' !! newArgs = Some l' ∧
    arrays s'' !! newArgs2 = Some l' ∧
    arrays s'' !! newArgs = Some l' ∧
    newArgs2 ≠ newArgs ∧
    httpPort s'' = httpPort s' ∧
    diagnosticChannel s'' = diagnosticChannel s'.
Proof.
  intros Hread Ha Hrun.
  destruct (configureHttpArgs_result a server s s' l newArgs Ha Hrun)
    as (l1 & l2 & Harr & Hnot & Hport).
  eexists (length (arrays s')), _, (l1 ++ "--http-port" :: l2).
  split; [apply (configureHttpArgs_explicit newArgs server2 s' l1 l2 Harr Hnot)|].
  split; [exact Harr|].
  cbn [arrays httpPort diagnosticChannel set_arrays set_httpPort].
  split; [apply list_lookup_middle; reflexivity|].
  split; [apply lookup_app_l_Some, Harr|].
  split; [apply lookup_lt_Some in Harr; lia|].
  split; [|reflexivity].
  destruct Hport as [(_ & _ & ->)|(Habs & _ & port & Hprobe & -> & ->)]; [reflexivity|].
  apply (Hread Habs port Hprobe).
Qed.

(** ** The exit handler *)

Lemma string_length_append (s1 s2 : string) :
  String.length (s1 +:+ s2) = (String.length s1 + String.length s2)%nat.
Proof. induction s1 as [|c s1 IH]; simpl; [reflexivity | rewrite IH; reflexivity]. Qed.

Lemma string_append_empty (t : string) : t +:+ "" = t.
Proof.
  induction t as [|c t IH]; [reflexivity|].
  change (String c (t +:+ "") = String c t). f_equal. exact IH.
Qed.

(** X21. The line the exit handler logs is exactly "Kernel pid <pid> ended"
    when, and only when, the exit code is [0], [NaN] or [null] and the signal
    is empty or [null]: a code of [0] is never shown, and any other code or
    a signal makes the line longer. *)
Theorem exit_message_bare_iff (pid : nat) (code : option Number)
    (signal : option string) :
  exit_message pid code signal = "Kernel pid " +:+ pretty pid +:+ " ended" ↔
  truthy_number code = false ∧ truthy_string signal = false.
Proof.
  unfold exit_message.
  assert ((truthy_number code && not_zero code)%bool = truthy_number code) as ->.
  { destruct code as [[|z]|]; simpl; try reflexivity. destruct (z =? 0)%Z; reflexivity. }
  set (m := "Kernel pid " +:+ pretty pid +:+ " ended").
  split.
  - intros Heq. apply (f_equal String.length) in Heq.
    rewrite !string_length_append in Heq.
    destruct (truthy_number code), (truthy_string signal); simpl in Heq;
      try (split; reflexivity); rewrite ?string_length_append in Heq; simpl in Heq; lia.
  - intros [-> ->]. rewrite !string_append_empty. reflexivity.
Qed.

End Transport.

(** ** Examples

    The transport with the example codec, discriminants and observers. *)

Local Notation "'example_handleLine'" :=
  (handleLine parse_colon "KernelReady" "DiagnosticLogEntryProduced" example_callback).
Local Notation "'example_notify_from'" := (notify_from "KernelReady" example_callback).
Local Notation "'example_call_subscriber'" :=
  (call_subscriber "KernelReady" example_callback).
Local Notation "'example_decoded'" := (decoded "DiagnosticLogEntryProduced").
Local Notation "'example_run'" :=
  (run parse_colon stringify_colon "KernelReady" "DiagnosticLogEntryProduced"
     example_callback).
Local Notation "'example_lifetime'" :=
  (lifetime parseInt_decimal parse_colon stringify_colon "KernelReady"
     "DiagnosticLogEntryProduced" example_callback).
Local Notation "'example_modifies'" := (modifies "KernelReady" example_callback).
Local Notation "'example_throws'" := (throws example_callback).

Ltac absent :=
  repeat (apply not_elem_of_cons; split; [discriminate|]); apply not_elem_of_nil.

(** No body of the examples holds a statement of the kind that [H] says one
    holds. *)
Ltac no_such_statement id H :=
  do 11 (destruct id as [|id];
         [simpl in H;
          repeat (apply elem_of_cons in H as [H|H]; [discriminate H|]);
          apply elem_of_nil in H; destruct H|]);
  simpl in H; apply elem_of_nil in H; destruct H.

(** C9 on the arguments [--verbose] with the probe yielding port 5000: the
    token appended is the numeral ["5000"]. *)
Lemma configureHttpArgs_appends_port_pair_verbose :
  ∃ newArgs s' l',
    configureHttpArgs parseInt_decimal 0 [listening 5000; close]
      (constructor [["--verbose"]] []) = (Returned newArgs, s') ∧
    arrays s' !! newArgs = Some l' ∧
    l' = ["--verbose"; "--http-port"; "5000"] ∧
    (∀ i x, ["--verbose"] !! i = Some x → l' !! i = Some x) ∧
    length (filter (λ x, x = "--http-port") l') = 1%nat ∧
    httpPort s' = Int 5000.
Proof.
  destruct (configureHttpArgs_appends_port_pair parseInt_decimal 0
              [listening 5000; close] (constructor [["--verbose"]] []) ["--verbose"] 5000)
    as (newArgs & s' & l' & Hrun & Harr & Hl & Hkeep & Hone & Hport).
  - reflexivity.
  - absent.
  - absent.
  - reflexivity.
  - exists newArgs, s', l'. split; [exact Hrun|]. split; [exact Harr|].
    split; [rewrite Hl; vm_compute; reflexivity|].
    split; [exact Hkeep|]. split; [exact Hone | exact Hport].
Defined.

(** C10 on the arguments [--http-port-range 1000-3000 --verbose] behind another
    array. *)
Lemma configureHttpArgs_keeps_callers_array_example :
  let s := constructor [["unrelated"]; ["--verbose"; "--http-port-range"; "1000-3000"]] [] in
  let r := configureHttpArgs parseInt_decimal 1 [listening 5000; close] s in
  arrays s !! 1%nat = Some ["--verbose"; "--http-port-range"; "1000-3000"] ∧
  arrays (snd r) !! 1%nat = Some ["--verbose"; "--http-port-range"; "1000-3000"] ∧
  arrays (snd r) !! 2%nat = Some ["--verbose"; "--http-port"; "5000"].
Proof.
  intros s r.
  destruct (configureHttpArgs_keeps_callers_array parseInt_decimal 1
              [listening 5000; close] s
              ["--verbose"; "--http-port-range"; "1000-3000"] eq_refl)
    as (Hkept & _ & _).
  split; [reflexivity|]. split; [exact Hkept | reflexivity].
Defined.

(** C2 at position 0: the arguments [--http-port-range 1000-3000]. *)
Lemma configureHttpArgs_leading_port_range_kept_example :
  ∃ s',
    configureHttpArgs parseInt_decimal 0 [listening 5000; close]
      (constructor [["--http-port-range"; "1000-3000"]] []) = (Returned 1%nat, s') ∧
    arrays s' !! 1%nat =
      Some ["--http-port-range"; "1000-3000"; "--http-port"; "5000"] ∧
    diagnosticChannel s' = [].
Proof.
  apply (configureHttpArgs_leading_port_range_kept parseInt_decimal 0
           [listening 5000; close]
           (constructor [["--http-port-range"; "1000-3000"]] []) ["1000-3000"] 5000).
  - reflexivity.
  - absent.
  - reflexivity.
Defined.

(** C2 at a later position, for comparison: the pair is replaced in place and
    one line is logged. *)
Lemma configureHttpArgs_later_port_range_replaced_example :
  configureHttpArgs parseInt_decimal 0 [listening 5000; close]
    (constructor [["--verbose"; "--http-port-range"; "1000-3000"]] []) =
  (Returned 1%nat,
   set_arrays [["--verbose"; "--http-port-range"; "1000-3000"];
               ["--verbose"; "--http-port"; "5000"]]
     (set_diagnosticChannel [deprecation_notice]
        (set_httpPort (Int 5000)
           (constructor [["--verbose"; "--http-port-range"; "1000-3000"]] [])))).
Proof. reflexivity. Qed.

(** C3 on the arguments [--http-port 8080], where the port is read from the
    arguments, and on the arguments [--verbose] with the probe yielding port
    5000, where the token after the flag is the numeral ["5000"]. *)
Lemma configureHttpArgs_records_first_port_example :
  let given := configureHttpArgs parseInt_decimal 0 []
                 (constructor [["--http-port"; "8080"]] []) in
  let allocated := configureHttpArgs parseInt_decimal 0 [listening 5000; close]
                     (constructor [["--verbose"]] []) in
  (∃ l1 l2,
     arrays (snd given) !! 1%nat = Some (l1 ++ "--http-port" :: l2) ∧
     l1 ++ "--http-port" :: l2 = ["--http-port"; "8080"] ∧
     httpPort (snd given) = Int 8080) ∧
  (∃ l1 l2,
     arrays (snd allocated) !! 1%nat = Some (l1 ++ "--http-port" :: l2) ∧
     l1 ++ "--http-port" :: l2 = ["--verbose"; "--http-port"; "5000"] ∧
     head l2 = Some "5000" ∧
     httpPort (snd allocated) = Int 5000).
Proof.
  intros given allocated. split.
  - destruct (configureHttpArgs_records_first_port parseInt_decimal 0 []
                (constructor [["--http-port"; "8080"]] []) (snd given)
                ["--http-port"; "8080"] 1 eq_refl eq_refl)
      as (l1 & l2 & Harr & _ & _).
    exists l1, l2. split; [exact Harr|]. split; [|reflexivity].
    assert (arrays (snd given) !! 1%nat = Some ["--http-port"; "8080"]) as Hlit
      by reflexivity.
    rewrite Hlit in Harr. injection Harr as Harr. symmetry. exact Harr.
  - destruct (configureHttpArgs_records_first_port parseInt_decimal 0
                [listening 5000; close] (constructor [["--verbose"]] [])
                (snd allocated) ["--verbose"] 1 eq_refl eq_refl)
      as (l1 & l2 & Harr & _ & [(Hin & _)|(_ & _ & port & Hprobe & Hhead & Hport)]).
    { exfalso. revert Hin. absent. }
    assert (port = 5000) as -> by (vm_compute in Hprobe; congruence).
    exists l1, l2. split; [exact Harr|].
    assert (arrays (snd allocated) !! 1%nat = Some ["--verbose"; "--http-port"; "5000"])
      as Hlit by (vm_compute; reflexivity).
    rewrite Hlit in Harr. injection Harr as Harr.
    split; [symmetry; exact Harr|].
    split; [rewrite Hhead; vm_compute; reflexivity | exact Hport].
Defined.

(** C3 as stated fails: for the arguments [--http-port 1 --http-port 2] the
    list that is returned holds the flag twice, not exactly once. *)
Lemma configureHttpArgs_two_port_flags :
  let r := configureHttpArgs parseInt_decimal 0 []
             (constructor [["--http-port"; "1"; "--http-port"; "2"]] []) in
  fst r = Returned 1%nat ∧
  ∃ l', arrays (snd r) !! 1%nat = Some l' ∧
    length (filter (λ x, x = "--http-port") l') = 2%nat ∧
    length (filter (λ x, x = "--http-port") l') ≠ 1%nat.
Proof.
  split; [reflexivity|].
  exists ["--http-port"; "1"; "--http-port"; "2"].
  split; [reflexivity|]. split; [reflexivity | discriminate].
Qed.

(** ... and for the arguments [--http-port], the flag given last, the port
    recorded is [NaN]. *)
Lemma configureHttpArgs_port_flag_last :
  httpPort (snd (configureHttpArgs parseInt_decimal 0 []
                   (constructor [["--http-port"]] []))) = NaN.
Proof. reflexivity. Qed.

(** A started transport for the examples: observer 7 was registered while
    the executor waited for its port, then the process was spawned. *)
Local Notation "'example_started'" :=
  (example_lifetime [["--verbose"]] [] example_start [Subscribe 7]
     [listening 5000; close] 42%nat).

Local Notation "'tick'" :=
  {| eventType := "Tick"; event := {| message := ""; body := "Tick:" |} |}.
Local Notation "'boot_ok'" :=
  {| eventType := "DiagnosticLogEntryProduced";
     event := {| message := "boot ok"; body := "DiagnosticLogEntryProduced:boot ok" |} |}.

(** C6 with observers 1 and 10 registered after observer 7 and the ready
    listener: four calls, in the order 10, 1, ready listener, 7, each with the
    one envelope of the line, whose payload observer 10 replaced. *)
Lemma handleLine_notifies_every_observer_example :
  ∃ s',
    example_handleLine "Tick:" (example_run (Subscribe <$> [1; 10]%nat) (example_started []))
      = (Returned tt, s') ∧
    notifications s' =
      [(UserObserver 10, 0%nat); (UserObserver 1, 0%nat); (ReadySubscriber, 0%nat);
       (UserObserver 7, 0%nat)] ∧
    envelopes s' =
      [{| eventType := "Tick"; event := {| message := "seen"; body := "" |} |}] ∧
    subscribers s' = [UserObserver 7; ReadySubscriber; UserObserver 1; UserObserver 10].
Proof.
  destruct (handleLine_notifies_every_observer parse_colon stringify_colon
              "KernelReady" "DiagnosticLogEntryProduced" example_callback
              (example_started []) [1; 10]%nat "Tick:" tick eq_refl)
    as (s' & Hrun & Hnote & _ & Henv & Hsub).
  { vm_compute. reflexivity. }
  exists s'. split; [exact Hrun|]. split; [exact Hnote|].
  split; [rewrite Henv; vm_compute; reflexivity | exact Hsub].
Defined.

(** C6 as stated fails: observer 6 throws.  With 1 and 6 registered after
    observer 7 and the ready listener, no observer modifies the observer
    set, yet the pass ends with the first call: one notification where four
    observers are registered, and [handleLine] throws what observer 6
    threw. *)
Lemma throwing_observer_ends_the_pass :
  let s := example_started [Subscribe 1; Subscribe 6] in
  subscribers s = [UserObserver 7; ReadySubscriber; UserObserver 1; UserObserver 6] ∧
  (∀ o, o ∈ subscribers s → example_modifies o tick = false) ∧
  example_throws (UserObserver 6) tick = true ∧
  fst (example_handleLine "Tick:" s) = Threw (Text "observer failed") ∧
  notifications (snd (example_handleLine "Tick:" s)) = [(UserObserver 6, 0%nat)] ∧
  subscribers (snd (example_handleLine "Tick:" s)) = subscribers s ∧
  length (notifications (snd (example_handleLine "Tick:" s))) ≠ length (subscribers s).
Proof.
  intros s.
  assert (subscribers s =
          [UserObserver 7; ReadySubscriber; UserObserver 1; UserObserver 6]) as Hs
    by (vm_compute; reflexivity).
  split; [exact Hs|]. split.
  { rewrite Hs. intros o Ho.
    repeat (apply elem_of_cons in Ho as [->|Ho]; [reflexivity|]).
    apply elem_of_nil in Ho. destruct Ho. }
  split; [reflexivity|]. split; [vm_compute; reflexivity|].
  split; [vm_compute; reflexivity|]. split; [vm_compute; reflexivity|].
  vm_compute. discriminate.
Qed.

(** C7 with observer 4, which disposes its own handle, registered last, in
    the pass over the line [Tick:]: its call returns and leaves the three
    entries before it, the pass goes on over them and returns, and neither
    the rest of the pass nor later lines call it again. *)
Lemma self_disposing_observer_is_dropped_example :
  let s0 := example_started [Subscribe 5; Subscribe 4] in
  let s := example_decoded tick s0 in
  let s1 := set_subscribers [UserObserver 7; ReadySubscriber; UserObserver 5]
              (set_notifications [(UserObserver 4, 0%nat)] s) in
  subscribers s = [UserObserver 7; ReadySubscriber; UserObserver 5; UserObserver 4] ∧
  example_handleLine "Tick:" s0 = example_notify_from 4 0 s ∧
  example_call_subscriber 3 0 s = (Returned tt, s1) ∧
  example_notify_from 4 0 s = example_notify_from 3 0 s1 ∧
  fst (example_notify_from 3 0 s1) = Returned tt ∧
  notifications (snd (example_notify_from 3 0 s1)) =
    [(UserObserver 4, 0%nat); (UserObserver 5, 0%nat); (ReadySubscriber, 0%nat);
     (UserObserver 7, 0%nat)] ∧
  dispose_subscription {| observer := UserObserver 4 |} s1 = (Returned tt, s1) ∧
  calls_of (UserObserver 4)
    (example_run [StdoutLine "Tock:"; DisposeSubscription 5; StdoutLine "Tick:"]
       (snd (example_notify_from 3 0 s1))) = [(UserObserver 4, 0%nat)].
Proof.
  intros s0 s s1.
  assert (subscribers s =
          [UserObserver 7; ReadySubscriber; UserObserver 5] ++ UserObserver 4 :: []) as Hs
    by (vm_compute; reflexivity).
  destruct (self_disposing_observer_is_dropped parse_colon stringify_colon "KernelReady"
              "DiagnosticLogEntryProduced" example_callback s 4%nat 0%nat
              [UserObserver 7; ReadySubscriber; UserObserver 5] [] Hs)
    as (Hcall & Hloop & _ & _ & Hagain & Hlater).
  { absent. }
  { absent. }
  { reflexivity. }
  destruct (Hlater
              ltac:(intros id' content Hin; no_such_statement id' Hin)
              [StdoutLine "Tock:"; DisposeSubscription 5; StdoutLine "Tick:"])
    as [_ Hcalls].
  { absent. }
  assert (notifications s = []) as Hn by (vm_compute; reflexivity).
  split; [exact Hs|]. split; [vm_compute; reflexivity|].
  rewrite Hn in Hcall, Hloop, Hagain, Hcalls.
  split; [exact Hcall|]. split; [exact Hloop|].
  split; [vm_compute; reflexivity|]. split; [vm_compute; reflexivity|].
  split; [exact Hagain|].
  etrans; [exact Hcalls|]. vm_compute. reflexivity.
Defined.

(** C8 on the line of the scenario, with the self-disposing observer 4
    registered too: ["boot ok"] is appended once, and observer 4, the ready
    listener and observer 7 are called once each. *)
Lemma diagnostic_entry_logged_and_delivered_example :
  let s := example_started [Subscribe 4] in
  diagnosticChannel (snd (example_handleLine "DiagnosticLogEntryProduced:boot ok" s)) =
    diagnosticChannel s ++ ["boot ok"] ∧
  ∃ s', example_handleLine "DiagnosticLogEntryProduced:boot ok" s = (Returned tt, s') ∧
    notifications s' =
      [(UserObserver 4, 0%nat); (ReadySubscriber, 0%nat); (UserObserver 7, 0%nat)] ∧
    envelopes s' = [boot_ok].
Proof.
  intros s.
  destruct (diagnostic_entry_logged_and_delivered parse_colon "KernelReady"
              "DiagnosticLogEntryProduced" example_callback
              s "DiagnosticLogEntryProduced:boot ok" boot_ok eq_refl eq_refl)
    as (Hlog & Hpass).
  split; [exact Hlog|].
  destruct Hpass as (s' & Hrun & Hnote & Henv).
  { vm_compute. reflexivity. }
  exists s'. split; [exact Hrun|]. split; [exact Hnote|].
  rewrite Henv. vm_compute. reflexivity.
Defined.

(** C8 as stated fails: observer 3 disposes the handle of observer 1 when it
    is called.  With 1 and 3 registered, the diagnostic line is logged once,
    but observer 1 is never called and observer 3 is called twice. *)
Lemma diagnostic_entry_not_delivered_once_each :
  let s := example_started [Subscribe 1; Subscribe 3] in
  subscribers s = [UserObserver 7; ReadySubscriber; UserObserver 1; UserObserver 3] ∧
  ∃ s', example_handleLine "DiagnosticLogEntryProduced:boot ok" s = (Returned tt, s') ∧
    diagnosticChannel s' = diagnosticChannel s ++ ["boot ok"] ∧
    notifications s' =
      [(UserObserver 3, 0%nat); (UserObserver 3, 0%nat); (ReadySubscriber, 0%nat);
       (UserObserver 7, 0%nat)] ∧
    (∀ e, (UserObserver 1, e) ∉ notifications s').
Proof.
  intros s. split; [vm_compute; reflexivity|].
  eexists. split; [vm_compute; reflexivity|].
  split; [vm_compute; reflexivity|]. split; [vm_compute; reflexivity|].
  intros e. cbn [notifications].
  repeat (apply not_elem_of_cons; split; [discriminate|]). apply not_elem_of_nil.
Qed.

(** C7 as stated fails: a function registered twice.  The first disposal
    removes one registration, the second disposal of the same handle finds
    the other one and removes it, so it is not a no-op; and when the function
    disposes its handle from within its call, it is called again in the same
    pass. *)
Lemma second_disposal_removes_other_registration :
  let s := example_started [Subscribe 4; Subscribe 4] in
  let once := snd (dispose_subscription {| observer := UserObserver 4 |} s) in
  let twice := snd (dispose_subscription {| observer := UserObserver 4 |} once) in
  subscribers s = [UserObserver 7; ReadySubscriber; UserObserver 4; UserObserver 4] ∧
  subscribers once = [UserObserver 7; ReadySubscriber; UserObserver 4] ∧
  subscribers twice = [UserObserver 7; ReadySubscriber] ∧
  twice ≠ once ∧
  notifications (snd (example_handleLine "Tick:" s)) =
    [(UserObserver 4, 0%nat); (UserObserver 4, 0%nat); (ReadySubscriber, 0%nat);
     (UserObserver 7, 0%nat)].
Proof.
  intros s once twice. split; [vm_compute; reflexivity|].
  split; [vm_compute; reflexivity|]. split; [vm_compute; reflexivity|].
  split; [|vm_compute; reflexivity].
  intros Heq. apply (f_equal subscribers) in Heq. vm_compute in Heq. discriminate.
Qed.


(** ... and in the other direction: observer 8 assigns the ready type to the
    envelope it is handed.  Registered after the ready listener, it is called
    before it, so on the line [Tick:], which is no ready envelope, the
    listener reads the ready type and the promise is fulfilled. *)
Lemma ready_type_assigned_promise_fulfilled :
  let s' := example_lifetime [["--http-port"; "8080"]] [] example_start [] [] 42%nat
              [Subscribe 8; StdoutLine "Tick:"] in
  parse_colon "Tick:" = Some tick ∧
  readyPromise s' = Fulfilled tt ∧
  notifications s' = [(UserObserver 8, 0%nat); (ReadySubscriber, 0%nat)] ∧
  envelopes s' =
    [{| eventType := "KernelReady"; event := {| message := ""; body := "Tick:" |} |}] ∧
  ¬ ∃ line envelope,
      StdoutLine line ∈ [Subscribe 8; StdoutLine "Tick:"] ∧
      parse_colon line = Some envelope ∧ eventType envelope = "KernelReady".
Proof.
  intros s'. repeat (split; [vm_compute; reflexivity|]).
  intros (line & envelope & Hin & Hp & Hty).
  apply elem_of_cons in Hin as [Hin|Hin]; [discriminate|].
  apply list_elem_of_singleton in Hin. injection Hin as ->.
  vm_compute in Hp. injection Hp as <-. vm_compute in Hty. discriminate.
Qed.


(** ** Examples for the port allocator, the process and the events *)

Local Notation "'example_host_run'" :=
  (host_run parse_colon stringify_colon "KernelReady" "DiagnosticLogEntryProduced"
     example_callback).
Local Notation "'example_host_lifetime'" :=
  (host_lifetime parseInt_decimal parse_colon stringify_colon "KernelReady"
     "DiagnosticLogEntryProduced" example_callback).
Local Notation "'example_process'" :=
  {| pid := 42; spawn_command := "dotnet-interactive";
     spawn_args := ["--verbose"; "--http-port"; "5000"]; spawn_cwd := "/workspace";
     stdin := []; kill_calls := 0 |}.

(** X4 on a server that reports an error after it was closed. *)
Lemma findFreePort_settles_once_example :
  findFreePort [listening 5000; close] = Fulfilled 5000 ∧
  findFreePort ([listening 5000; close] ++ [error "late"]) =
    findFreePort [listening 5000; close].
Proof.
  split; [reflexivity|].
  apply (findFreePort_settles_once [listening 5000; close] [error "late"]).
  vm_compute. discriminate.
Defined.

(** X6 with observer 9, registered nowhere. *)
Lemma subscribe_then_dispose_example :
  (h ← subscribeToKernelEvents (UserObserver 9); dispose_subscription h)
    (example_started []) = (Returned tt, example_started []).
Proof.
  apply (subscribe_then_dispose (UserObserver 9) (example_started [])).
  assert (subscribers (example_started []) = [UserObserver 7; ReadySubscriber]) as ->
    by (vm_compute; reflexivity).
  absent.
Defined.

(** X7 with observer 7, registered first: it ends up last. *)
Lemma subscribe_again_then_dispose_example :
  (h ← subscribeToKernelEvents (UserObserver 7); dispose_subscription h)
    (example_started []) =
  (Returned tt, set_subscribers [ReadySubscriber; UserObserver 7] (example_started [])).
Proof.
  apply (subscribe_again_then_dispose (UserObserver 7) (example_started [])
           [] [ReadySubscriber]).
  - vm_compute. reflexivity.
  - absent.
Defined.

(** X8 on the pass that ends in a [TypeError], one call where three observers
    were registered, and on the pass that observer 6 ends by throwing. *)
Lemma handleLine_calls_at_most_each_entry_example :
  let s := example_lifetime [["--http-port"; "8080"]] [] example_start [] [] 42%nat
             [Subscribe 1; Subscribe 2] in
  (length (subscribers s) = 3%nat ∧
   fst (example_handleLine "KernelReady:" s) =
     Threw (TypeError "this.subscribers[i] is not a function") ∧
   notifications (snd (example_handleLine "KernelReady:" s)) = [(UserObserver 2, 0%nat)]) ∧
  ∃ r s' os, example_handleLine "Tick:" (example_started [Subscribe 6]) = (r, s') ∧
    notifications s' =
      notifications (example_started [Subscribe 6]) ++ ((λ o, (o, 0%nat)) <$> os) ∧
    r = Threw (Text "observer failed") ∧ os = [UserObserver 6].
Proof.
  intros s. split.
  - split; [vm_compute; reflexivity|]. split; vm_compute; reflexivity.
  - destruct (handleLine_calls_at_most_each_entry parse_colon "KernelReady"
                "DiagnosticLogEntryProduced" example_callback "Tick:" tick
                (example_started [Subscribe 6]) eq_refl)
      as (r & s' & os & Hrun & Hnote & _).
    exists r, s', os. split; [exact Hrun|].
    assert (envelopes (example_started [Subscribe 6]) = []) as Henv
      by (vm_compute; reflexivity).
    rewrite Henv in Hnote. split; [exact Hnote|].
    pose proof (f_equal fst Hrun) as Hr. cbn [fst] in Hr.
    pose proof (f_equal snd Hrun) as Hs. cbn [snd] in Hs.
    split; [rewrite <- Hr; vm_compute; reflexivity|].
    assert (notifications (snd (example_handleLine "Tick:" (example_started [Subscribe 6])))
            = [(UserObserver 6, 0%nat)]) as Hlog by (vm_compute; reflexivity).
    assert (notifications (example_started [Subscribe 6]) = []) as Hn0
      by (vm_compute; reflexivity).
    rewrite <- Hs, Hlog, Hn0 in Hnote. cbn [app] in Hnote.
    destruct os as [|o [|o' os]]; try discriminate Hnote.
    rewrite fmap_cons, fmap_nil in Hnote. injection Hnote as <-. reflexivity.
Defined.

(** X12 over a [dispose], the exit of the process and a command. *)
Lemma events_keep_process_example :
  ∃ p',
    childProcess
      (example_host_run
         [Api Dispose; Exit (Some (Int 1)) None;
          Api (SubmitCommand "{}" "Submit" "tok-1")]
         (example_started [])) = object p' ∧
    process_continues example_process p'.
Proof.
  apply (events_keep_process parse_colon stringify_colon "KernelReady"
           "DiagnosticLogEntryProduced" example_callback
           [Api Dispose; Exit (Some (Int 1)) None;
            Api (SubmitCommand "{}" "Submit" "tok-1")]
           (example_started []) example_process).
  vm_compute. reflexivity.
Defined.

(** X13 after [dispose] alone, where the command is written, and after the
    exit of the process, where the promise is rejected. *)
Lemma submitCommand_after_events_example :
  fst (submitCommand stringify_colon "{}" "Submit" "tok-1"
         (example_host_run [Api Dispose; StderrData "warn"] (example_started [])))
    = Fulfilled tt ∧
  fst (submitCommand stringify_colon "{}" "Submit" "tok-1"
         (example_host_run [Exit (Some (Int 0)) (Some "SIGTERM"); Api Dispose]
            (example_started [])))
    = Rejected (StreamError "ERR_STREAM_DESTROYED").
Proof.
  split.
  - destruct (submitCommand_after_events parse_colon stringify_colon
                "KernelReady" "DiagnosticLogEntryProduced" example_callback
                [Api Dispose; StderrData "warn"]
                (example_started []) example_process "{}" "Submit" "tok-1")
      as (p' & _ & Hrun).
    { vm_compute. reflexivity. }
    { vm_compute. reflexivity. }
    rewrite Hrun. reflexivity.
  - destruct (submitCommand_after_events parse_colon stringify_colon
                "KernelReady" "DiagnosticLogEntryProduced" example_callback
                [Exit (Some (Int 0)) (Some "SIGTERM"); Api Dispose]
                (example_started []) example_process "{}" "Submit" "tok-1")
      as (p' & _ & Hrun).
    { vm_compute. reflexivity. }
    { vm_compute. reflexivity. }
    rewrite Hrun. reflexivity.
Defined.

(** X14 with two commands. *)
Lemma submitted_commands_are_written_in_order_example :
  childProcess
    (example_run
       [SubmitCommand "{}" "Submit" "tok-1"; SubmitCommand "{}" "Cancel" "tok-2"]
       (example_started [])) =
  object {| pid := 42; spawn_command := "dotnet-interactive";
            spawn_args := ["--verbose"; "--http-port"; "5000"];
            spawn_cwd := "/workspace";
            stdin := ["tok-1:Submit:{}"; newline; "tok-2:Cancel:{}"; newline];
            kill_calls := 0 |}.
Proof.
  pose proof (submitted_commands_are_written_in_order parse_colon stringify_colon
                "KernelReady" "DiagnosticLogEntryProduced" example_callback
                [{| token := "tok-1"; commandType := "Submit"; command := "{}" |};
                 {| token := "tok-2"; commandType := "Cancel"; command := "{}" |}]
                (example_started []) example_process) as Hrun.
  simpl fmap in Hrun.
  rewrite Hrun; [reflexivity|vm_compute; reflexivity|vm_compute; reflexivity].
Defined.

(** X16 with a port probe that fails. *)
Lemma failed_port_allocation_starts_nothing_example :
  let s := example_host_lifetime [["--verbose"]] ["earlier line"] example_start
             [Subscribe 1; SubmitCommand "{}" "Submit" "tok-1"; Dispose]
             [error "EADDRINUSE"; close] 42%nat
             [Api (StdoutLine "KernelReady:"); Exit (Some (Int 1)) None] in
  childProcess s = null ∧ readyPromise s = Pending ∧
  diagnosticChannel s = ["earlier line"] ∧ notifications s = [] ∧ httpPort s = Int 0.
Proof.
  apply (failed_port_allocation_starts_nothing parseInt_decimal parse_colon
           stringify_colon "KernelReady" "DiagnosticLogEntryProduced" example_callback
           [["--verbose"]] ["earlier line"] example_start
           [Subscribe 1; SubmitCommand "{}" "Submit" "tok-1"; Dispose]
           [error "EADDRINUSE"; close] 42%nat
           [Api (StdoutLine "KernelReady:"); Exit (Some (Int 1)) None] ["--verbose"]).
  - reflexivity.
  - absent.
  - intros port. vm_compute. discriminate.
Defined.

(** X17 on the arguments [--verbose]. *)
Lemma process_started_on_allocated_port_example :
  ∃ p,
    childProcess
      (example_host_lifetime [["--verbose"]] [] example_start [Subscribe 1]
         [listening 5000; close] 42%nat [Api Dispose; Exit None (Some "SIGTERM")])
      = object p ∧
    spawn_args p = ["--verbose"; "--http-port"; "5000"] ∧
    httpPort
      (example_host_lifetime [["--verbose"]] [] example_start [Subscribe 1]
         [listening 5000; close] 42%nat [Api Dispose; Exit None (Some "SIGTERM")])
      = Int 5000.
Proof.
  destruct (process_started_on_allocated_port parseInt_decimal parse_colon
              stringify_colon "KernelReady" "DiagnosticLogEntryProduced" example_callback
              [["--verbose"]] [] example_start [Subscribe 1]
              [listening 5000; close] 42%nat [Api Dispose; Exit None (Some "SIGTERM")]
              ["--verbose"] 5000)
    as (p & Hc & _ & _ & _ & Hargs & Hport & _).
  - reflexivity.
  - absent.
  - absent.
  - reflexivity.
  - exists p. split; [exact Hc|]. split; [exact Hargs | exact Hport].
Defined.

(** X18 on the arguments [--http-port 8080], with a probe that would fail. *)
Lemma process_started_on_explicit_port_example :
  ∃ p,
    childProcess
      (example_host_lifetime [["--http-port"; "8080"]] [] example_start []
         [error "EADDRINUSE"] 42%nat [StderrData "warn"])
      = object p ∧
    spawn_args p = ["--http-port"; "8080"] ∧
    httpPort
      (example_host_lifetime [["--http-port"; "8080"]] [] example_start []
         [error "EADDRINUSE"] 42%nat [StderrData "warn"])
      = Int 8080.
Proof.
  destruct (process_started_on_explicit_port parseInt_decimal parse_colon
              stringify_colon "KernelReady" "DiagnosticLogEntryProduced" example_callback
              [["--http-port"; "8080"]] [] example_start []
              [error "EADDRINUSE"] 42%nat [StderrData "warn"] [] ["8080"])
    as (p & Hc & _ & _ & _ & Hargs & Hport).
  - reflexivity.
  - absent.
  - exists p. split; [exact Hc|]. split; [exact Hargs | exact Hport].
Defined.

(** X19 on the arguments [--verbose --http-port-range 1000-3000]. *)
Lemma configureHttpArgs_replaces_port_range_example :
  ∃ s' l',
    configureHttpArgs parseInt_decimal 0 [listening 5000; close]
      (constructor [["--verbose"; "--http-port-range"; "1000-3000"]] [])
      = (Returned 1%nat, s') ∧
    arrays s' !! 1%nat = Some l' ∧
    l' = ["--verbose"; "--http-port"; "5000"] ∧
    length l' = 3%nat ∧
    diagnosticChannel s' = [deprecation_notice] ∧
    httpPort s' = Int 5000.
Proof.
  apply (configureHttpArgs_replaces_port_range parseInt_decimal 0
           [listening 5000; close]
           (constructor [["--verbose"; "--http-port-range"; "1000-3000"]] [])
           ["--verbose"] ["1000-3000"] 5000).
  - reflexivity.
  - absent.
  - absent.
  - discriminate.
  - reflexivity.
Defined.

(** X20 on the arguments [--verbose --http-port-range 1000-3000], where the
    range was replaced: the second negotiation, with a probe that would fail,
    returns the same arguments and the same port and logs nothing more. *)
Lemma configureHttpArgs_twice_example :
  let first := configureHttpArgs parseInt_decimal 0 [listening 5000; close]
                 (constructor [["--verbose"; "--http-port-range"; "1000-3000"]] []) in
  fst first = Returned 1%nat ∧
  ∃ newArgs2 s'' l',
    configureHttpArgs parseInt_decimal 1 [error "EADDRINUSE"] (snd first)
      = (Returned newArgs2, s'') ∧
    l' = ["--verbose"; "--http-port"; "5000"] ∧
    arrays s'' !! newArgs2 = Some l' ∧
    arrays s'' !! 1%nat = Some l' ∧
    newArgs2 ≠ 1%nat ∧
    httpPort s'' = Int 5000 ∧
    diagnosticChannel s'' = [deprecation_notice].
Proof.
  intros first. split; [reflexivity|].
  destruct (configureHttpArgs_twice parseInt_decimal 0 [listening 5000; close]
              [error "EADDRINUSE"]
              (constructor [["--verbose"; "--http-port-range"; "1000-3000"]] [])
              (snd first) ["--verbose"; "--http-port-range"; "1000-3000"] 1)
    as (newArgs2 & s'' & l' & Hrun & Hfirst & Harr2 & Harr1 & Hne & Hport & Hlog).
  - intros _ port Hprobe. vm_compute in Hprobe. injection Hprobe as <-.
    vm_compute. reflexivity.
  - reflexivity.
  - reflexivity.
  - exists newArgs2, s'', l'. split; [exact Hrun|].
    assert (arrays (snd first) !! 1%nat = Some ["--verbose"; "--http-port"; "5000"])
      as Hlit by (vm_compute; reflexivity).
    rewrite Hlit in Hfirst. injection Hfirst as <-.
    split; [reflexivity|]. split; [exact Harr2|]. split; [exact Harr1|].
    split; [exact Hne|]. split; [rewrite Hport; reflexivity | rewrite Hlog; reflexivity].
Defined.
